(** * osc-mqtt-bridge: the relay engine and its configuration validator

    A shallow embedding of [config.go] (the validation part of
    [App.ReadConfig]) and of the relay code ([OscDispatcher.makeBundle],
    [OscDispatcher.Dispatch], [Relay.OscSend], [Relay.SendStatus],
    [Relay.MakeOSCBundle], [Relay.MqttOnEvent], [Relay.Log], [Relay.Start]),
    followed by the properties of the specification that hold of them.

    Conventions.  A Go [string] and a Go [[]byte] are Rocq [string]s; a Go
    [int] is a [Z]; a Go struct is a record, whose fields keep their Go
    names inside a module named after the struct.  A slice that the relay
    only ranges over, measures or passes along whole ([Commands],
    [OscSubscriptions], argument slices) is the [list] of its elements.
    The slices that the bundle codec builds with [append], the messages and
    the nested bundles of a bundle, are [Slice.t]: a nil slice and an empty
    one are different values there, as they are for [encoding/json]
    ([null] and [[]]); their elements are pointers, and a pointer that
    JSON can leave nil is an [option]. *)

From Stdlib Require Import ZArith Lia DecimalString.
From stdpp Require Import base tactics option list strings gmap.

Set Warnings "-register-all".

Local Open Scope Z_scope.
Local Open Scope string_scope.
Local Open Scope list_scope.

(** ** Data model *)

(** [interface{}] values that travel as OSC arguments.  The program never
    inspects them: it only moves whole argument slices around. *)
Inductive Value : Type :=
| VString (s : string)
| VInt (n : Z)
| VFloat (bits : Z)
| VBool (b : bool)
| VTime (unix_nano : Z)
| VBlob (data : string)
| VNil.

(** [type LogLevel int] with its four [iota] constants.  The level of a
    relay is whatever integer its configuration gives: nothing checks that
    it is one of the four. *)
Definition LogLevel : Type := Z.

Definition ErrorLog : LogLevel := 0.
Definition ReceiveLog : LogLevel := 1.
Definition SendLog : LogLevel := 2.
Definition DebugLog : LogLevel := 3.

Module RelayCommand.
Record t : Type := mk {
  Command : string;
  MqttTopic : string;
  MqttSubTopic : string;
  DisallowPayload : bool;
  DefaultPayload : list Value
}.
End RelayCommand.

Module RelayOscSubscription.
Record t : Type := mk {
  Command : string;
  Payload : list Value;
  Interval : Z
}.
End RelayOscSubscription.

(** The configuration fields of [Relay]; its four runtime fields
    ([MqttClient], [OscClient], [OscServer], [OscServerConn]) live in
    [Runtime] below. *)
Module Relay.
Record t : Type := mk {
  MqttHost : string;
  MqttPort : Z;
  MqttClientId : string;
  MqttUser : string;
  MqttPassword : string;
  MqttTopic : string;
  MqttDisableConfigSend : bool;
  OscHost : string;
  OscPort : Z;
  OscBindAddr : string;
  OscBindPort : Z;
  OscDisallowArbritaryCommand : bool;
  Commands : list RelayCommand.t;
  OscSubscriptions : list RelayOscSubscription.t;
  LogLevel : LogLevel
}.

(** [relay.OscBindPort = p] *)
Definition set_OscBindPort (p : Z) (r : t) : t :=
  mk (MqttHost r) (MqttPort r) (MqttClientId r) (MqttUser r)
     (MqttPassword r) (MqttTopic r) (MqttDisableConfigSend r)
     (OscHost r) (OscPort r) (OscBindAddr r) p
     (OscDisallowArbritaryCommand r) (Commands r) (OscSubscriptions r)
     (LogLevel r).
End Relay.

(** [time.Time]: its wall and monotonic words and its location.  The relay
    only copies such values. *)
Record Time : Type := mkTime { wall : Z; ext : Z; loc : string }.

(** Go slices, where nil and empty must be told apart: [None] is the nil
    slice. *)
Module Slice.
Definition t (A : Type) : Type := option (list A).

(** The elements that [for _, a := range s] visits. *)
Definition elems {A} (s : t A) : list A :=
  match s with Some l => l | None => [] end.

(** [for _, a := range s { b = f b a }] *)
Definition range {A B} (s : t A) (f : B -> A -> B) (b : B) : B :=
  match s with Some l => fold_left f l b | None => b end.

(** [append(s, a)]: never nil. *)
Definition append {A} (s : t A) (a : A) : t A := Some (elems s ++ [a]).

(** Appending the elements of [l], one by one. *)
Definition extend {A} (s : t A) (l : list A) : t A := fold_left append l s.

(** The slice that appending the elements of [l], one by one, to a nil
    slice gives. *)
Definition of_list {A} (l : list A) : t A :=
  match l with [] => None | _ => Some l end.
End Slice.

(** [OscMessage] and [OscBundle]: the JSON mirror of an OSC packet.  The
    children of a bundle are pointers ([[]*OscMessage], [[]*OscBundle]):
    [None] is the nil pointer that a JSON [null] element decodes to. *)
Module OscMessage.
Record t : Type := mk {
  Address : string;
  Arguments : list Value
}.
End OscMessage.

Inductive OscBundle : Type :=
  mkOscBundle (Timetag : Time) (Messages : Slice.t (option OscMessage.t))
              (Bundles : Slice.t (option OscBundle)).

Module OscBundle.
Definition Timetag (b : OscBundle) : Time :=
  match b with mkOscBundle t _ _ => t end.
Definition Messages (b : OscBundle) : Slice.t (option OscMessage.t) :=
  match b with mkOscBundle _ ms _ => ms end.
Definition Bundles (b : OscBundle) : Slice.t (option OscBundle) :=
  match b with mkOscBundle _ _ bs => bs end.
End OscBundle.

(** ** The go-osc library, as far as the relay uses it

    [osc.Timetag] has unexported fields; the relay makes one with
    [osc.NewBundle(time)], which stores [*NewTimetag(time)], and reads it
    with [Timetag.Time()].  Both are operations of the library. *)
Class GoOsc : Type := {
  Timetag : Type;
  NewTimetag : Time -> Timetag;
  Timetag_Time : Timetag -> Time
}.

(** The library's contract for time tags: [Time()] gives back the time
    the tag was made from. *)
Class GoOscLaws `{GoOsc} : Prop := {
  Time_NewTimetag : forall t : Time, Timetag_Time (NewTimetag t) = t
}.

Module osc.
Section WithLibrary.
Context `{GoOsc}.

Record Message : Type := mkMessage {
  Address : string;
  Arguments : list Value
}.

(** [osc.Bundle].  Its children are pointers too; the values of this type
    that reach the relay come from the library's parser and from
    [MakeOSCBundle], which append pointers to fresh structs, so a child is
    never nil. *)
Inductive Bundle : Type :=
  mkBundle (Timetag : Timetag) (Messages : Slice.t Message) (Bundles : Slice.t Bundle).

Definition Bundle_Timetag (b : Bundle) : Timetag :=
  match b with mkBundle t _ _ => t end.
Definition Bundle_Messages (b : Bundle) : Slice.t Message :=
  match b with mkBundle _ ms _ => ms end.
Definition Bundle_Bundles (b : Bundle) : Slice.t Bundle :=
  match b with mkBundle _ _ bs => bs end.

(** The [osc.Packet] interface: the library's two implementations, and
    any other one ([Dispatch] has a [default] case).  A nil packet is
    [None] of [option Packet]. *)
Inductive Packet : Type :=
| PMessage (m : Message)
| PBundle (b : Bundle)
| POther (kind : string).

(** [osc.NewMessage(addr)] *)
Definition NewMessage (addr : string) : Message := mkMessage addr [].

(** [m.Arguments = arguments] *)
Definition set_Arguments (arguments : list Value) (m : Message) : Message :=
  mkMessage (Address m) arguments.

(** [osc.NewBundle(time)]: the two slices start nil. *)
Definition NewBundle (time : Time) : Bundle := mkBundle (NewTimetag time) None None.

(** [b.Append(pck)]: a message is appended to [b.Messages], a bundle to
    [b.Bundles]; any other packet is refused and [b] stays as it is. *)
Definition Append (pck : Packet) (b : Bundle) : Bundle :=
  match pck with
  | PMessage m =>
      mkBundle (Bundle_Timetag b) (Slice.append (Bundle_Messages b) m) (Bundle_Bundles b)
  | PBundle sb =>
      mkBundle (Bundle_Timetag b) (Bundle_Messages b) (Slice.append (Bundle_Bundles b) sb)
  | POther _ => b
  end.

Record Server : Type := mkServer { Addr : string }.

End WithLibrary.
End osc.

(** ** Go's [strings] functions that the router calls *)

Module GoStrings.

(** [strings.HasPrefix(s, prefix)]:
    [len(s) >= len(prefix) && s[0:len(prefix)] == prefix] *)
Definition HasPrefix (s prefix : string) : bool :=
  bool_decide (String.length prefix <= String.length s)%nat
  && bool_decide (String.substring 0 (String.length prefix) s = prefix).

(** [strings.Index(s, substr)]; [None] is Go's -1. *)
Fixpoint Index (s substr : string) : option nat :=
  if HasPrefix s substr then Some 0%nat
  else match s with
       | EmptyString => None
       | String _ s' => S <$> Index s' substr
       end.

(** [strings.Replace(s, old, new, 1)]: [s] when [old == new] or [old] does
    not occur, else [s[:j] + new + s[j+len(old):]] at the first
    occurrence [j]. *)
Definition Replace1 (s old new : string) : string :=
  if bool_decide (old = new) then s
  else match Index s old with
       | None => s
       | Some j =>
           String.substring 0 j s +:+ new +:+
           String.substring (j + String.length old)
                            (String.length s - (j + String.length old)) s
       end.

End GoStrings.

(** ** The relay at run time *)

(** An [mqtt.Message]: its topic and its payload. *)
Module mqtt.
Record Message : Type := mkMessage { Topic : string; Payload : string }.
End mqtt.

(** [*net.UDPAddr] *)
Record UDPAddr : Type := mkUDPAddr { IP : string; Port : Z }.

(** The sockets of a relay: the one that [net.ListenPacket] binds to the
    server address, and the ones that [net.DialUDP] connects to a peer from
    a source port of the system's choice. *)
Inductive conn : Type :=
| Bound (addr : string)
| Dialed (peer : UDPAddr).

(** The fields of [Relay] set by [Start]. *)
Record Runtime : Type := mkRuntime {
  config :> Relay.t;
  OscClient : option (string * Z);
  OscServer : option osc.Server;
  OscServerConn : option conn
}.

(** What a run does to the outside: lines printed by [log.Println],
    publications on the broker, calls of [Relay.OscSend] with a non-nil
    packet, and socket operations.  A log line is recorded by its level
    and its format string. *)
Inductive event `{GoOsc} : Type :=
| Println (level : LogLevel) (format : string)
| Publish (topic : string) (qos : Z) (retained : bool) (payload : option string)
| OscSendCall (packet : osc.Packet)
| WriteTo (c : conn) (data : string) (addr : UDPAddr)
| DialUDP (peer : UDPAddr)
| Write (c : conn) (data : string)
| Close (c : conn)
| ListenPacket (addr : string)
| ReadFrom (c : conn) (packet : option osc.Packet).

(** How a piece of a handler ends: it falls through to the next
    statement, it returns from the handler, or it panics. *)
Inductive flow : Type := Next | Return | Panic.

(** What [OscSend] returns: nil, an error, or a panic on the way. *)
Inductive send_result : Type := SendNil | SendError | SendPanic.

(** The libraries and the network, which answer the relay's calls:
    [encoding/json], [net], and the binary encoder of go-osc.  [None] is
    an error return. *)
Record World `{GoOsc} : Type := mkWorld {
  json_Unmarshal_arguments : string -> option (list Value);
  json_Unmarshal_OscBundle : string -> option OscBundle;
  json_Marshal_arguments : list Value -> option string;
  json_Marshal_OscBundle : OscBundle -> option string;
  json_Marshal_Relay : Relay.t -> option string;
  net_ResolveUDPAddr : string -> Z -> option UDPAddr;
  osc_MarshalBinary : osc.Packet -> option string;
  conn_WriteTo_ok : conn -> string -> UDPAddr -> bool;
  net_DialUDP_ok : UDPAddr -> bool
}.

(** ** The bundle codec *)

Module Codec.
Section WithLibrary.
Context `{GoOsc}.

(** [b.Messages = append(b.Messages, m)] *)
Definition append_Messages (m : option OscMessage.t) (b : OscBundle) : OscBundle :=
  mkOscBundle (OscBundle.Timetag b) (Slice.append (OscBundle.Messages b) m)
              (OscBundle.Bundles b).

(** [b.Bundles = append(b.Bundles, subBundle)] *)
Definition append_Bundles (subBundle : option OscBundle) (b : OscBundle) : OscBundle :=
  mkOscBundle (OscBundle.Timetag b) (OscBundle.Messages b)
              (Slice.append (OscBundle.Bundles b) subBundle).

(** [OscDispatcher.makeBundle]: an [OscBundle] from an [osc.Bundle].
    [new(OscBundle)] has the zero time and two nil slices; the pointers
    that the loops append are to fresh structs. *)
Fixpoint makeBundle (bundle : osc.Bundle) : OscBundle :=
  match bundle with
  | osc.mkBundle timetag messages bundles =>
      let b := mkOscBundle (Timetag_Time timetag) None None in
      let b :=
        Slice.range messages
          (fun b message =>
             let m := OscMessage.mk (osc.Address message) (osc.Arguments message) in
             append_Messages (Some m) b) b in
      let b :=
        Slice.range bundles
          (fun b sbundle =>
             let subBundle := makeBundle sbundle in
             append_Bundles (Some subBundle) b) b in
      b
  end.

(** [Relay.MakeOSCBundle]: an [osc.Bundle] from an [OscBundle].  [None]
    is the panic of a nil dereference: [message.Address] on a nil message,
    [bundle.Timetag] in the call on a nil nested bundle.  The loops are
    folds over the state of [b], which is lost once an iteration has
    panicked. *)
Fixpoint MakeOSCBundle (bundle : OscBundle) : option osc.Bundle :=
  match bundle with
  | mkOscBundle timetag messages bundles =>
      let b := Some (osc.NewBundle timetag) in
      let b :=
        Slice.range messages
          (fun b message =>
             b ← b;
             message ← message;
             let m := osc.NewMessage (OscMessage.Address message) in
             let m := osc.set_Arguments (OscMessage.Arguments message) m in
             Some (osc.Append (osc.PMessage m) b)) b in
      let b :=
        Slice.range bundles
          (fun b sbundle =>
             b ← b;
             sbundle ← sbundle;
             subBundle ← MakeOSCBundle sbundle;
             Some (osc.Append (osc.PBundle subBundle) b)) b in
      b
  end.

End WithLibrary.
End Codec.

(** A wire bundle as the library builds them: every time tag in it was
    made by [NewTimetag] and no slice in it is empty without being nil,
    which is what [osc.NewBundle] followed by [Append], and so the packet
    parser, produce. *)
Fixpoint library_built `{GoOsc} (b : osc.Bundle) : Prop :=
  match b with
  | osc.mkBundle timetag messages bundles =>
      (exists t, timetag = NewTimetag t) /\
      ~ (messages = Some []) /\ ~ (bundles = Some []) /\
      match bundles with
      | Some l => fold_right (fun sb rest => library_built sb /\ rest) True l
      | None => True
      end
  end.

(** ** What the round trip keeps *)

Module CodecSpec.
Section WithLibrary.
Context `{GoOsc}.

(** The message that [makeBundle] makes of a wire message, and the one
    that [MakeOSCBundle] makes of a message: same address, same
    arguments. *)
Definition portable_message (m : osc.Message) : OscMessage.t :=
  OscMessage.mk (osc.Address m) (osc.Arguments m).

Definition wire_message (m : OscMessage.t) : osc.Message :=
  osc.mkMessage (OscMessage.Address m) (OscMessage.Arguments m).

(** No pointer to a message or to a nested bundle is nil, at any depth. *)
Fixpoint whole (x : OscBundle) : Prop :=
  match x with
  | mkOscBundle _ ms bs =>
      Forall is_Some (Slice.elems ms) /\
      match bs with
      | Some l =>
          fold_right (fun b rest => match b with Some b => whole b | None => False end /\ rest)
                     True l
      | None => True
      end
  end.

(** No slice of messages or of nested bundles is empty without being nil,
    at any depth. *)
Fixpoint compact (x : OscBundle) : Prop :=
  match x with
  | mkOscBundle _ ms bs =>
      ~ (ms = Some []) /\ ~ (bs = Some []) /\
      match bs with
      | Some l =>
          fold_right (fun b rest => match b with Some b => compact b | None => True end /\ rest)
                     True l
      | None => True
      end
  end.

(** The same bundle with nil for every empty slice of messages or of
    nested bundles: same time tags, same messages, same nested bundles,
    in the same order. *)
Fixpoint nil_for_empty (x : OscBundle) : OscBundle :=
  match x with
  | mkOscBundle t ms bs =>
      mkOscBundle t (Slice.of_list (Slice.elems ms))
        match bs with
        | Some l => Slice.of_list (map (option_map nil_for_empty) l)
        | None => None
        end
  end.


End WithLibrary.
End CodecSpec.

(** ** The bundle codec on the heap

    The same two functions with Go's pointers: a bundle is a pointer to a
    struct that holds slices of pointers to its messages and nested
    bundles, and a message holds the slice of its arguments.  This is the
    level at which a function could write to its argument.  A slice of
    pointers is kept in the cell of its struct, nil or with its
    elements; the slice of arguments of a message is a pointer to its
    backing array ([None] for a nil slice), which the codec shares between
    the message it reads and the one it builds. *)

Module Heap.
Section WithLibrary.
Context `{GoOsc}.

Definition loc : Type := nat.

(** A Go pointer: [None] is nil. *)
Definition ptr : Type := option loc.

Inductive cell : Type :=
| COscMessage (Address : string) (Arguments : ptr)
| COscBundle (Timetag : Time) (Messages : Slice.t ptr) (Bundles : Slice.t ptr)
| CMessage (Address : string) (Arguments : ptr)
| CBundle (Timetag : Timetag) (Messages : Slice.t ptr) (Bundles : Slice.t ptr)
| CArguments (elems : list Value).

(** A computation on the heap returns a value and the new heap, panics
    (a nil pointer is dereferenced), or runs out of fuel. *)
Inductive result (A : Type) : Type :=
| Ok (a : A) (h : gmap loc cell)
| Panics
| OutOfFuel.
Arguments Ok {A} a h.
Arguments Panics {A}.
Arguments OutOfFuel {A}.

Definition M (A : Type) : Type := gmap loc cell -> result A.

Definition ret {A} (a : A) : M A := fun h => Ok a h.

Definition bind {A B} (m : M A) (k : A -> M B) : M B :=
  fun h => match m h with
           | Ok a h' => k a h'
           | Panics => Panics
           | OutOfFuel => OutOfFuel
           end.

#[global] Instance M_ret : MRet M := @ret.
#[global] Instance M_bind : MBind M := fun A B k m => bind m k.

Definition panic {A} : M A := fun _ => Panics.
Definition out_of_fuel {A} : M A := fun _ => OutOfFuel.

(** [new(T)] and the library's constructors: a cell at a location that
    is not in use. *)
Definition alloc (c : cell) : M loc :=
  fun h => let l := fresh (dom h) in Ok l (<[l := c]> h).

(** Reading through a pointer. *)
Definition load (p : ptr) : M cell :=
  fun h => match p with
           | None => Panics
           | Some l => match h !! l with Some c => Ok c h | None => Panics end
           end.

(** Writing the fields of the struct at [l]. *)
Definition store (l : loc) (c : cell) : M unit :=
  fun h => Ok tt (<[l := c]> h).

(** [for _, a := range l { body }] *)
Fixpoint for_each {A} (l : list A) (body : A -> M unit) : M unit :=
  match l with
  | [] => mret tt
  | a :: rest => _ ← body a; for_each rest body
  end.

(** The zero value of [time.Time]. *)
Definition zero_Time : Time := mkTime 0 0 EmptyString.

(** [b.Timetag = t] on an [OscBundle]. *)
Definition set_Timetag (b : loc) (t : Time) : M unit :=
  c ← load (Some b);
  match c with
  | COscBundle _ ms bs => store b (COscBundle t ms bs)
  | _ => panic
  end.

(** [m.Address = a] and [m.Arguments = args] on an [OscMessage]. *)
Definition set_Address (m : loc) (a : string) : M unit :=
  c ← load (Some m);
  match c with
  | COscMessage _ args => store m (COscMessage a args)
  | _ => panic
  end.

Definition set_Arguments (m : loc) (args : ptr) : M unit :=
  c ← load (Some m);
  match c with
  | COscMessage a _ => store m (COscMessage a args)
  | CMessage a _ => store m (CMessage a args)
  | _ => panic
  end.

(** [b.Messages = append(b.Messages, m)] and
    [b.Bundles = append(b.Bundles, sb)] on an [OscBundle]. *)
Definition append_Messages (b : loc) (m : ptr) : M unit :=
  c ← load (Some b);
  match c with
  | COscBundle t ms bs => store b (COscBundle t (Slice.append ms m) bs)
  | _ => panic
  end.

Definition append_Bundles (b : loc) (sb : ptr) : M unit :=
  c ← load (Some b);
  match c with
  | COscBundle t ms bs => store b (COscBundle t ms (Slice.append bs sb))
  | _ => panic
  end.

(** [b.Append(m)] and [b.Append(subBundle)] of go-osc. *)
Definition Append_Message (b : loc) (m : ptr) : M unit :=
  c ← load (Some b);
  match c with
  | CBundle t ms bs => store b (CBundle t (Slice.append ms m) bs)
  | _ => panic
  end.

Definition Append_Bundle (b : loc) (sb : ptr) : M unit :=
  c ← load (Some b);
  match c with
  | CBundle t ms bs => store b (CBundle t ms (Slice.append bs sb))
  | _ => panic
  end.

(** The body of the first loop of [makeBundle]. *)
Definition makeBundle_message (b : loc) (message : ptr) : M unit :=
  m ← alloc (COscMessage EmptyString None);
  c ← load message;
  match c with
  | CMessage address arguments =>
      _ ← set_Address m address;
      _ ← set_Arguments m arguments;
      append_Messages b (Some m)
  | _ => panic
  end.

(** [OscDispatcher.makeBundle]; [fuel] bounds the depth of the calls.
    The struct at [bundle] is read once: nothing writes to it between the
    three places where the function reads its fields. *)
Fixpoint makeBundle (fuel : nat) (bundle : ptr) : M ptr :=
  match fuel with
  | O => out_of_fuel
  | S fuel =>
      b ← alloc (COscBundle zero_Time None None);
      c ← load bundle;
      match c with
      | CBundle timetag messages bundles =>
          _ ← set_Timetag b (Timetag_Time timetag);
          _ ← for_each (Slice.elems messages) (makeBundle_message b);
          _ ← for_each (Slice.elems bundles) (fun sbundle =>
                 subBundle ← makeBundle fuel sbundle;
                 append_Bundles b subBundle);
          mret (Some b)
      | _ => panic
      end
  end.

(** The body of the first loop of [MakeOSCBundle]. *)
Definition MakeOSCBundle_message (b : loc) (message : ptr) : M unit :=
  c ← load message;
  match c with
  | COscMessage address arguments =>
      m ← alloc (CMessage address None);
      _ ← set_Arguments m arguments;
      Append_Message b (Some m)
  | _ => panic
  end.

(** [Relay.MakeOSCBundle], with the same conventions. *)
Fixpoint MakeOSCBundle (fuel : nat) (bundle : ptr) : M ptr :=
  match fuel with
  | O => out_of_fuel
  | S fuel =>
      c ← load bundle;
      match c with
      | COscBundle timetag messages bundles =>
          b ← alloc (CBundle (NewTimetag timetag) None None);
          _ ← for_each (Slice.elems messages) (MakeOSCBundle_message b);
          _ ← for_each (Slice.elems bundles) (fun sbundle =>
                 subBundle ← MakeOSCBundle fuel sbundle;
                 Append_Bundle b subBundle);
          mret (Some b)
      | _ => panic
      end
  end.

(** *** What a pointer stands for *)

(** The slice of arguments at [a] holds [vs]. *)
Definition is_arguments (h : gmap loc cell) (a : ptr) (vs : list Value) : Prop :=
  match a with
  | None => vs = []
  | Some l => h !! l = Some (CArguments vs)
  end.

(** [p] points to the [OscMessage] [m]. *)
Definition is_OscMessage (h : gmap loc cell) (p : ptr) (m : OscMessage.t) : Prop :=
  exists l a, p = Some l /\ h !! l = Some (COscMessage (OscMessage.Address m) a) /\
    is_arguments h a (OscMessage.Arguments m).

(** [p] points to the [osc.Message] [m]. *)
Definition is_Message (h : gmap loc cell) (p : ptr) (m : osc.Message) : Prop :=
  exists l a, p = Some l /\ h !! l = Some (CMessage (osc.Address m) a) /\
    is_arguments h a (osc.Arguments m).

(** The slice [s] of pointers stands for the slice [s'] of values: both
    nil, or element by element. *)
Definition is_slice {A B} (R : A -> B -> Prop) (s : Slice.t A) (s' : Slice.t B) : Prop :=
  option_Forall2 (Forall2 R) s s'.

(** A pointer to a child that is there. *)
Inductive points_to {B} (R : ptr -> B -> Prop) : ptr -> option B -> Prop :=
| points_to_some p b : R p b -> points_to R p (Some b).

(** [p] points to the [OscBundle] [x], with all that it nests; no pointer
    that is followed on the way is nil. *)
Inductive is_OscBundle (h : gmap loc cell) : ptr -> OscBundle -> Prop :=
| is_OscBundle_at l t pms pbs ms bs :
    h !! l = Some (COscBundle t pms pbs) ->
    is_slice (points_to (is_OscMessage h)) pms ms ->
    is_slice (points_to (is_OscBundle h)) pbs bs ->
    is_OscBundle h (Some l) (mkOscBundle t ms bs).

(** [p] points to the [osc.Bundle] [x], with all that it nests. *)
Inductive is_Bundle (h : gmap loc cell) : ptr -> osc.Bundle -> Prop :=
| is_Bundle_at l t pms pbs ms bs :
    h !! l = Some (CBundle t pms pbs) ->
    is_slice (is_Message h) pms ms ->
    is_slice (is_Bundle h) pbs bs ->
    is_Bundle h (Some l) (osc.mkBundle t ms bs).

(** The nesting depth of a bundle. *)
Fixpoint depth (x : OscBundle) : nat :=
  match x with
  | mkOscBundle _ _ bs =>
      S (Slice.range bs
           (fun d b => match b with Some b => Nat.max (depth b) d | None => d end) 0%nat)
  end.

Fixpoint wire_depth (x : osc.Bundle) : nat :=
  match x with
  | osc.mkBundle _ _ bs => S (Slice.range bs (fun d b => Nat.max (wire_depth b) d) 0%nat)
  end.

(** What [MakeOSCBundle] with fuel [n] does on a bundle of depth at most
    [n]: it returns a pointer to the wire form in a heap that extends the
    one it started from.  [G] is any part of the heap that holds the
    bundle; the result is held by [G] and cells that were not in use. *)
Definition MakeOSCBundle_spec (n : nat) : Prop :=
  forall x G h p,
    (depth x <= n)%nat -> G ⊆ h -> is_OscBundle G p x ->
    exists h' G' q y,
      Codec.MakeOSCBundle x = Some y /\
      MakeOSCBundle n p h = Ok q h' /\
      h ⊆ h' /\ G ⊆ G' /\ G' ⊆ h' /\
      (forall l, is_Some (h !! l) -> G' !! l = G !! l) /\
      is_Bundle G' q y.

(** The same for [makeBundle]. *)
Definition makeBundle_spec (n : nat) : Prop :=
  forall x G h p,
    (wire_depth x <= n)%nat -> G ⊆ h -> is_Bundle G p x ->
    exists h' G' q,
      makeBundle n p h = Ok q h' /\
      h ⊆ h' /\ G ⊆ G' /\ G' ⊆ h' /\
      (forall l, is_Some (h !! l) -> G' !! l = G !! l) /\
      is_OscBundle G' q (Codec.makeBundle x).

End WithLibrary.

Arguments Ok {_ A} a h.
Arguments Panics {_ A}.
Arguments OutOfFuel {_ A}.
End Heap.

(** ** The relay's methods *)

Module Engine.
Section WithLibrary.
Context `{GoOsc}.

(** [Relay.Log]: prints when [level <= r.LogLevel]. *)
Definition Log (r : Relay.t) (level : LogLevel) (format : string) : list event :=
  if bool_decide (level <= Relay.LogLevel r)
  then [Println level format] else [].

(** [Relay.OscSend].  In the branch without a server the result of
    [conn.Write] goes to an [err] declared inside that branch, so the
    function returns the outer [err], which is nil there; the deferred
    [conn.Close()] runs on return. *)
Definition OscSend (w : World) (r : Runtime) (packet : option osc.Packet)
    : list event * send_result :=
  match packet with
  | None => ([], SendNil)
  | Some packet =>
      let entry :=
        OscSendCall packet ::
        match packet with
        | osc.PMessage _ => Log r SendLog "-> [OSC] %s: %s"
        | osc.PBundle _ => Log r SendLog "-> [OSC] Bundle %s"
        | osc.POther _ => []
        end in
      match net_ResolveUDPAddr w (Relay.OscHost r) (Relay.OscPort r) with
      | None => (entry, SendError)
      | Some addr =>
          match osc_MarshalBinary w packet with
          | None => (entry, SendError)
          | Some data =>
              let debug :=
                if bool_decide (DebugLog <= Relay.LogLevel r)
                then Log r DebugLog "-> [OSC] Binary %s" else [] in
              match OscServer r with
              | Some _ =>
                  match OscServerConn r with
                  | Some c =>
                      (entry ++ debug ++ [WriteTo c data addr],
                       if conn_WriteTo_ok w c data addr then SendNil else SendError)
                  | None => (entry ++ debug, SendPanic)
                  end
              | None =>
                  if net_DialUDP_ok w addr
                  then (entry ++ debug ++
                          [DialUDP addr; Write (Dialed addr) data; Close (Dialed addr)],
                        SendNil)
                  else (entry ++ debug, SendError)
              end
          end
      end
  end.

(** [Relay.SendStatus] *)
Definition SendStatus (w : World) (r : Runtime) : list event :=
  if Relay.MqttDisableConfigSend r then []
  else match json_Marshal_Relay w r with
       | Some config => [Publish (Relay.MqttTopic r +:+ "/status") 0 true (Some config)]
       | None =>
           Log r ErrorLog "Json Error: %s" ++
           [Publish (Relay.MqttTopic r +:+ "/status") 0 true None]
       end.

(** [err := r.OscSend(p); if err != nil { r.Log(ErrorLog, "Send Error: %s", err) }] *)
Definition send_and_log (w : World) (r : Runtime) (p : osc.Packet) : list event * flow :=
  match OscSend w r (Some p) with
  | (tr, SendNil) => (tr, Next)
  | (tr, SendError) => (tr ++ Log r ErrorLog "Send Error: %s", Next)
  | (tr, SendPanic) => (tr, Panic)
  end.

(** The condition of the loop over [r.Commands] in [MqttOnEvent]. *)
Definition command_matches (r : Relay.t) (cmd : RelayCommand.t) (topic : string) : bool :=
  bool_decide (topic = RelayCommand.MqttTopic cmd)
  || (bool_decide (RelayCommand.MqttSubTopic cmd <> EmptyString)
      && bool_decide (topic = Relay.MqttTopic r +:+ "/" +:+ RelayCommand.MqttSubTopic cmd)).

(** The body of that loop for a command that matches. *)
Definition command_action (w : World) (r : Runtime) (cmd : RelayCommand.t)
    (message : mqtt.Message) : list event * flow :=
  let oscMessage := osc.NewMessage (RelayCommand.Command cmd) in
  if negb (RelayCommand.DisallowPayload cmd)
     && negb (bool_decide (String.length (mqtt.Payload message) = 0%nat))
  then
    match json_Unmarshal_arguments w (mqtt.Payload message) with
    | None => (Log r ErrorLog "Json Error: %s", Return)
    | Some arguments =>
        send_and_log w r (osc.PMessage (osc.set_Arguments arguments oscMessage))
    end
  else
    let arguments :=
      if negb (bool_decide (length (RelayCommand.DefaultPayload cmd) = 0%nat))
      then RelayCommand.DefaultPayload cmd else [] in
    send_and_log w r (osc.PMessage (osc.set_Arguments arguments oscMessage)).

(** The loop [for _, cmd := range r.Commands]. *)
Fixpoint commands_loop (w : World) (r : Runtime) (cmds : list RelayCommand.t)
    (message : mqtt.Message) : list event * flow :=
  match cmds with
  | [] => ([], Next)
  | cmd :: rest =>
      if command_matches r cmd (mqtt.Topic message) then
        match command_action w r cmd message with
        | (tr, Next) =>
            let '(tr', f) := commands_loop w r rest message in (tr ++ tr', f)
        | (tr, f) => (tr, f)
        end
      else commands_loop w r rest message
  end.

(** The branch [strings.HasPrefix(message.Topic(), r.MqttTopic+"/send")]. *)
Definition standard_send (w : World) (r : Runtime) (message : mqtt.Message)
    : list event * flow :=
  if Relay.OscDisallowArbritaryCommand r
  then (Log r ErrorLog "Arbritary commands are disabled on this relay.", Return)
  else
    let cmd := GoStrings.Replace1 (mqtt.Topic message) (Relay.MqttTopic r +:+ "/send") EmptyString in
    let cmd := if bool_decide (cmd = EmptyString) then "/" else cmd in
    let decoded :=
      if negb (bool_decide (String.length (mqtt.Payload message) = 0%nat))
      then json_Unmarshal_arguments w (mqtt.Payload message)
      else Some [] in
    match decoded with
    | None => (Log r ErrorLog "Json Error: %s", Return)
    | Some arguments =>
        let oscMessage := osc.NewMessage cmd in
        send_and_log w r (osc.PMessage (osc.set_Arguments arguments oscMessage))
    end.

(** The branch [message.Topic() == r.MqttTopic+"/bundle/send"].  The
    decoder fills a fresh [OscBundle]; [MakeOSCBundle] panics on a nil
    pointer in it. *)
Definition bundle_send (w : World) (r : Runtime) (message : mqtt.Message)
    : list event * flow :=
  if Relay.OscDisallowArbritaryCommand r
  then (Log r ErrorLog "Arbritary commands are disabled on this relay.", Return)
  else
    match json_Unmarshal_OscBundle w (mqtt.Payload message) with
    | None => (Log r ErrorLog "Json Error: %s", Return)
    | Some bundle =>
        match Codec.MakeOSCBundle bundle with
        | None => ([], Panic)
        | Some b => send_and_log w r (osc.PBundle b)
        end
    end.

(** The [if / else if / else if] chain that follows the loop. *)
Definition generic_routing (w : World) (r : Runtime) (message : mqtt.Message)
    : list event * flow :=
  if GoStrings.HasPrefix (mqtt.Topic message) (Relay.MqttTopic r +:+ "/send")
  then standard_send w r message
  else if bool_decide (mqtt.Topic message = Relay.MqttTopic r +:+ "/bundle/send")
  then bundle_send w r message
  else if bool_decide (mqtt.Topic message = Relay.MqttTopic r +:+ "/status/check")
  then (SendStatus w r, Next)
  else ([], Next).

(** [Relay.MqttOnEvent] *)
Definition MqttOnEvent (w : World) (r : Runtime) (message : mqtt.Message)
    : list event * flow :=
  let tr0 := Log r ReceiveLog "<- [MQTT] %s: %s\n" in
  match commands_loop w r (Relay.Commands r) message with
  | (tr1, Next) =>
      let '(tr2, f) := generic_routing w r message in (tr0 ++ tr1 ++ tr2, f)
  | (tr1, f) => (tr0 ++ tr1, f)
  end.

(** [OscDispatcher.Dispatch], for the dispatcher of relay [r]. *)
Definition Dispatch (w : World) (r : Runtime) (packet : option osc.Packet) : list event :=
  match packet with
  | None => []
  | Some (osc.POther _) => Log r ErrorLog "Unknown OSC packet received."
  | Some (osc.PMessage message) =>
      Log r ReceiveLog "<- [OSC] %s: %s" ++
      let topic := Relay.MqttTopic r +:+ "/cmd" +:+ osc.Address message in
      match json_Marshal_arguments w (osc.Arguments message) with
      | None => Log r ErrorLog "Json Encode: %s"
      | Some data =>
          [Publish topic 0 true (Some data)] ++ Log r SendLog "-> [MQTT] %s: %s"
      end
  | Some (osc.PBundle bundle) =>
      let b := Codec.makeBundle bundle in
      Log r ReceiveLog "<- [OSC] Bundle %s" ++
      let topic := Relay.MqttTopic r +:+ "/bundle" in
      match json_Marshal_OscBundle w b with
      | None => Log r ErrorLog "Json Encode: %s"
      | Some data =>
          [Publish topic 0 true (Some data)] ++ Log r SendLog "-> [MQTT] %s: %s"
      end
  end.

(** One tick of the goroutine that [Start] spawns for a subscription. *)
Definition subscription_tick (w : World) (r : Runtime) (subcription : RelayOscSubscription.t)
    : list event * flow :=
  let oscMessage := osc.NewMessage (RelayOscSubscription.Command subcription) in
  let oscMessage := osc.set_Arguments (RelayOscSubscription.Payload subcription) oscMessage in
  let '(tr, f) := send_and_log w r (osc.PMessage oscMessage) in
  (Log r DebugLog "Running subscription: %s" ++ tr, f).

(** [fmt.Sprintf("%s:%d", host, port)] *)
Definition host_port (host : string) (port : Z) : string :=
  host +:+ ":" +:+ NilZero.string_of_int (Z.to_int port).

(** The runtime fields as [Relay.Start] sets them: the client when the
    peer is configured, the server when the bind address and port are; the
    server's socket is bound by the goroutine that [Start] spawns. *)
Definition Start (r : Relay.t) : Runtime :=
  mkRuntime r
    (if negb (bool_decide (Relay.OscHost r = EmptyString))
        && negb (bool_decide (Relay.OscPort r = 0))
     then Some (Relay.OscHost r, Relay.OscPort r) else None)
    (if negb (bool_decide (Relay.OscBindAddr r = EmptyString))
        && negb (bool_decide (Relay.OscBindPort r = 0))
     then Some (osc.mkServer (host_port (Relay.OscBindAddr r) (Relay.OscBindPort r)))
     else None)
    None.

(** The topics that [Relay.Start] subscribes to, in order. *)
Definition Start_subscriptions (r : Relay.t) : list string :=
  [Relay.MqttTopic r +:+ "/send/#";
   Relay.MqttTopic r +:+ "/bundle/send";
   Relay.MqttTopic r +:+ "/status/check"] ++
  flat_map (fun cmd =>
              (if negb (bool_decide (RelayCommand.MqttTopic cmd = EmptyString))
               then [RelayCommand.MqttTopic cmd] else []) ++
              (if negb (bool_decide (RelayCommand.MqttSubTopic cmd = EmptyString))
               then [Relay.MqttTopic r +:+ "/" +:+ RelayCommand.MqttSubTopic cmd]
               else []))
           (Relay.Commands r).

(** [r.OscServerConn = c] *)
Definition set_OscServerConn (c : conn) (r : Runtime) : Runtime :=
  mkRuntime (config r) (OscClient r) (OscServer r) (Some c).

(** [r.OscClient = c] and [r.OscServer = s] *)
Definition set_OscClient (c : option (string * Z)) (r : Runtime) : Runtime :=
  mkRuntime (config r) c (OscServer r) (OscServerConn r).

Definition set_OscServer (s : option osc.Server) (r : Runtime) : Runtime :=
  mkRuntime (config r) (OscClient r) s (OscServerConn r).

(** *** A relay from the call of [Start] on

    [Start] runs in the goroutine of its caller while the broker client
    calls [MqttOnEvent] from its own goroutines as soon as a subscription
    is in place, the server goroutine binds and serves the socket, and
    each subscription has its ticker goroutine.  The relay is the runtime
    fields together with the place where [Start] stands. *)
Inductive start_pc : Type :=
| AtConnect
| AtSubscribe (n : nat)
| AtClient
| AtServer
| AtTickers
| AtStatus
| Returned.

Record process : Type := mkProcess { rt :> Runtime; pc : start_pc }.

(** The relay when [Start] is called: the configuration, no client, no
    server, no socket. *)
Definition boot (r : Relay.t) : process :=
  mkProcess (mkRuntime r None None None) AtConnect.

(** A relay either runs or has ended by a panic or [log.Fatal]. *)
Inductive status : Type := Running (p : process) | Crashed.

Definition after (f : flow) (p : process) : status :=
  match f with Panic => Crashed | _ => Running p end.

Definition at_pc (pc' : start_pc) (p : process) : process := mkProcess (rt p) pc'.

(** [Start] has issued at least one [Subscribe], so the broker may
    deliver messages to [MqttOnEvent]. *)
Definition subscribed (pc : start_pc) : bool :=
  match pc with AtConnect | AtSubscribe O => false | _ => true end.

(** [Start] has spawned the goroutines of the subscriptions. *)
Definition ticking (pc : start_pc) : bool :=
  match pc with AtStatus | Returned => true | _ => false end.

(** One step of a relay.  The first group are the statements of [Start],
    in order: connecting (a failure is fatal), one [MqttSubscribe] per
    topic (an error is logged and [Start] goes on), the client, the server
    with its goroutine, the goroutines of the subscriptions (their first
    log line is taken with the spawning), the status.  The second group
    are the goroutines: the server binds its socket (or fails, which is
    fatal), reads a packet and dispatches it; the broker client delivers a
    message to [MqttOnEvent]; a subscription ticks. *)
Inductive step (w : World) : process -> list event -> status -> Prop :=
| step_connect (p : process) :
    pc p = AtConnect ->
    step w p (Log p DebugLog "Connecting to MQTT") (Running (at_pc (AtSubscribe 0) p))
| step_connect_fatal (p : process) :
    pc p = AtConnect ->
    step w p (Log p DebugLog "Connecting to MQTT") Crashed
| step_subscribe (p : process) n topic (ok : bool) :
    pc p = AtSubscribe n -> Start_subscriptions p !! n = Some topic ->
    step w p (Log p DebugLog "Subscribing MQTT: %s" ++
              if ok then [] else Log p ErrorLog "MQTT Subscribe Error: %s")
         (Running (at_pc (AtSubscribe (S n)) p))
| step_subscribed (p : process) :
    pc p = AtSubscribe (length (Start_subscriptions p)) ->
    step w p [] (Running (at_pc AtClient p))
| step_client (p : process) :
    pc p = AtClient ->
    step w p [] (Running (mkProcess (set_OscClient (OscClient (Start p)) p) AtServer))
| step_server (p : process) :
    pc p = AtServer ->
    step w p [] (Running (mkProcess (set_OscServer (OscServer (Start p)) p) AtTickers))
| step_tickers (p : process) :
    pc p = AtTickers ->
    step w p (flat_map (fun _ : RelayOscSubscription.t =>
                          Log p DebugLog "Started subscription: %s")
                       (Relay.OscSubscriptions p))
         (Running (at_pc AtStatus p))
| step_status (p : process) :
    pc p = AtStatus ->
    step w p (SendStatus w p) (Running (at_pc Returned p))
| step_listen (p : process) srv :
    OscServer p = Some srv -> OscServerConn p = None ->
    step w p (Log p DebugLog "Starting OSC Server" ++ [ListenPacket (osc.Addr srv)])
         (Running (mkProcess (set_OscServerConn (Bound (osc.Addr srv)) p) (pc p)))
| step_listen_fatal (p : process) srv :
    OscServer p = Some srv -> OscServerConn p = None ->
    step w p (Log p DebugLog "Starting OSC Server") Crashed
| step_serve (p : process) srv c packet :
    OscServer p = Some srv -> OscServerConn p = Some c ->
    step w p (ReadFrom c packet :: Dispatch w p packet) (Running p)
| step_serve_fatal (p : process) srv c :
    OscServer p = Some srv -> OscServerConn p = Some c ->
    step w p [] Crashed
| step_mqtt (p : process) message :
    subscribed (pc p) = true ->
    step w p (fst (MqttOnEvent w p message)) (after (snd (MqttOnEvent w p message)) p)
| step_tick (p : process) subcription :
    ticking (pc p) = true ->
    subcription ∈ Relay.OscSubscriptions p ->
    step w p (fst (subscription_tick w p subcription))
         (after (snd (subscription_tick w p subcription)) p).

(** Runs of a relay from a state on. *)
Inductive run (w : World) (p0 : process) : list event -> status -> Prop :=
| run_start : run w p0 [] (Running p0)
| run_step tr p tr' st :
    run w p0 tr (Running p) -> step w p tr' st -> run w p0 (tr ++ tr') st.

End WithLibrary.
End Engine.

(** ** config.go: validation in [App.ReadConfig] *)

Module Config.

(** The [log.Fatal] exits of the validation, with the relay index that
    the message prints. *)
Inductive fatal : Type :=
| NoRelaysDefined
| MqttHostPortRequired (i : nat)
| MqttTopicRequired (i : nat)
| BindAddrOrHostRequired (i : nat)
| DuplicateMqttTopic (i : nat)
| DuplicateOscBindPort (i : nat).

(** First loop body: [if relay.OscBindAddr != "" && relay.OscBindPort == 0]. *)
Definition default_bind_port (relay : Relay.t) : Relay.t :=
  if bool_decide (Relay.OscBindAddr relay <> EmptyString)
     && bool_decide (Relay.OscBindPort relay = 0)
  then Relay.set_OscBindPort (Relay.OscPort relay) relay
  else relay.

(** Inner loop [for b, relay2 := range app.config.Relays], from index [b]. *)
Fixpoint check_against (i : nat) (relay : Relay.t) (b : nat)
    (relays : list Relay.t) : option fatal :=
  match relays with
  | [] => None
  | relay2 :: rest =>
      if bool_decide (b <> i) then
        if bool_decide (Relay.MqttTopic relay = Relay.MqttTopic relay2)
        then Some (DuplicateMqttTopic i)
        else if bool_decide (Relay.OscBindPort relay = Relay.OscBindPort relay2)
        then Some (DuplicateOscBindPort i)
        else check_against i relay (S b) rest
      else check_against i relay (S b) rest
  end.

(** Second loop [for i, relay := range app.config.Relays], from index [i];
    [all] is the whole list, which the inner loop walks again. *)
Fixpoint check_relays (all : list Relay.t) (i : nat)
    (relays : list Relay.t) : option fatal :=
  match relays with
  | [] => None
  | relay :: rest =>
      if bool_decide (Relay.MqttHost relay = EmptyString)
         || bool_decide (Relay.MqttPort relay = 0)
      then Some (MqttHostPortRequired i)
      else if bool_decide (Relay.MqttTopic relay = EmptyString)
      then Some (MqttTopicRequired i)
      else if bool_decide (Relay.OscBindAddr relay = EmptyString)
              && bool_decide (Relay.OscHost relay = EmptyString)
      then Some (BindAddrOrHostRequired i)
      else match check_against i relay 0 all with
           | Some e => Some e
           | None => check_relays all (S i) rest
           end
  end.

(** [ReadConfig] from [len(app.config.Relays) == 0] on: the relays as
    they stand when it returns, or the fatal exit. *)
Definition ReadConfig (relays : list Relay.t) : fatal + list Relay.t :=
  if bool_decide (length relays = 0%nat) then inl NoRelaysDefined
  else
    let relays := default_bind_port <$> relays in
    match check_relays relays 0 relays with
    | Some e => inl e
    | None => inr relays
    end.

End Config.

(** ** Observations on a run *)

Module Observe.
Section WithLibrary.
Context `{GoOsc}.

(** The packets handed to [Relay.OscSend], in order. *)
Definition sent (tr : list event) : list osc.Packet :=
  omap (fun e => match e with OscSendCall p => Some p | _ => None end) tr.

(** The broker publications: topic, retain flag and payload, in order. *)
Definition published (tr : list event) : list (string * bool * option string) :=
  omap (fun e => match e with
                 | Publish topic _ retained payload => Some (topic, retained, payload)
                 | _ => None
                 end) tr.

(** The error lines of the log, by format string. *)
Definition errors (tr : list event) : list string :=
  omap (fun e => match e with
                 | Println level format =>
                     if bool_decide (level = ErrorLog) then Some format else None
                 | _ => None
                 end) tr.

(** The operations on sockets. *)
Definition is_socket_op (e : event) : bool :=
  match e with
  | WriteTo _ _ _ | DialUDP _ | Write _ _ | Close _ | ListenPacket _ | ReadFrom _ _ => true
  | _ => false
  end.

Definition socket_ops (tr : list event) : list event := filter is_socket_op tr.

(** The argument list of a generic send: the decoded payload, or no
    argument when the payload is empty. *)
Definition decoded_payload (w : World) (payload : string) : option (list Value) :=
  if negb (bool_decide (String.length payload = 0%nat))
  then json_Unmarshal_arguments w payload else Some [].

(** The arguments that a mapping sends, given the decoded payload. *)
Definition mapping_arguments (cmd : RelayCommand.t) (payload : string)
    (decoded : list Value) : list Value :=
  if negb (RelayCommand.DisallowPayload cmd)
     && negb (bool_decide (String.length payload = 0%nat))
  then decoded else RelayCommand.DefaultPayload cmd.

(** The sends of a run with its socket operations: what [OscSend] was
    asked and what reached the sockets, in order. *)
Definition is_wire (e : event) : bool :=
  match e with OscSendCall _ => true | _ => is_socket_op e end.

Definition wire (tr : list event) : list event := filter is_wire tr.

(** Every send goes through the bound socket [c]: a packet handed to
    [OscSend] is followed by one write, through [c], of its encoding to the
    resolved peer, and by nothing when the peer does not resolve or the
    packet does not encode; apart from that, packets are read from [c]. *)
Inductive bound_use (w : World) (r : Relay.t) (c : conn) : list event -> Prop :=
| bound_nil : bound_use w r c []
| bound_read packet rest :
    bound_use w r c rest -> bound_use w r c (ReadFrom c packet :: rest)
| bound_send p addr data rest :
    net_ResolveUDPAddr w (Relay.OscHost r) (Relay.OscPort r) = Some addr ->
    osc_MarshalBinary w p = Some data ->
    bound_use w r c rest ->
    bound_use w r c (OscSendCall p :: WriteTo c data addr :: rest)
| bound_unsent p rest :
    net_ResolveUDPAddr w (Relay.OscHost r) (Relay.OscPort r) = None \/
      osc_MarshalBinary w p = None ->
    bound_use w r c rest ->
    bound_use w r c (OscSendCall p :: rest).

(** Every send dials: a packet handed to [OscSend] is followed by a dial
    to the resolved peer, one write of its encoding on the connection just
    opened and the close of that connection, and by nothing when the peer
    does not resolve, the packet does not encode or the dial fails; no
    packet is read. *)
Inductive dial_use (w : World) (r : Relay.t) : list event -> Prop :=
| dial_nil : dial_use w r []
| dial_send p addr data rest :
    net_ResolveUDPAddr w (Relay.OscHost r) (Relay.OscPort r) = Some addr ->
    osc_MarshalBinary w p = Some data ->
    net_DialUDP_ok w addr = true ->
    dial_use w r rest ->
    dial_use w r (OscSendCall p :: DialUDP addr :: Write (Dialed addr) data ::
                  Close (Dialed addr) :: rest)
| dial_unsent p rest :
    net_ResolveUDPAddr w (Relay.OscHost r) (Relay.OscPort r) = None \/
      osc_MarshalBinary w p = None \/
      (exists addr, net_ResolveUDPAddr w (Relay.OscHost r) (Relay.OscPort r) = Some addr /\
                    net_DialUDP_ok w addr = false) ->
    dial_use w r rest ->
    dial_use w r (OscSendCall p :: rest).

(** The states of a relay whose server has bound the socket [c]. *)
Definition bound_state (r : Relay.t) (c : conn) (p : Engine.process) : Prop :=
  config (Engine.rt p) = r /\
  OscServer (Engine.rt p) = OscServer (Engine.Start r) /\
  is_Some (OscServer (Engine.rt p)) /\
  OscServerConn (Engine.rt p) = Some c.

(** What holds in every state that a relay reaches from [boot]. *)
Definition reached (r : Relay.t) (p : Engine.process) : Prop :=
  config (Engine.rt p) = r /\
  (OscServer (Engine.rt p) = None \/
   (is_Some (OscServer (Engine.rt p)) /\
    OscServer (Engine.rt p) = OscServer (Engine.Start r))) /\
  forall c, OscServerConn (Engine.rt p) = Some c ->
    exists srv, OscServer (Engine.rt p) = Some srv /\ c = Bound (osc.Addr srv).

(** The states of a relay that never has a server. *)
Definition client_state (r : Relay.t) (p : Engine.process) : Prop :=
  config (Engine.rt p) = r /\ OscServer (Engine.rt p) = None /\
  OscServerConn (Engine.rt p) = None.

(** The server, when there is one, has bound its socket. *)
Definition socket_ready (r : Runtime) : Prop :=
  OscServer r = None \/ is_Some (OscServerConn r).

End WithLibrary.
End Observe.

(** ** What the specification says of a configuration list *)

Module ConfigSpec.
Import Config.

(** What the specification asks of one relay. *)
Definition relay_ok (r : Relay.t) : Prop :=
  Relay.MqttHost r <> EmptyString /\ Relay.MqttPort r <> 0 /\
  Relay.MqttTopic r <> EmptyString /\
  ~ (Relay.OscBindAddr r = EmptyString /\ Relay.OscHost r = EmptyString).

(** The bind port of a relay: the configured one, or the peer port when a
    bind address is given and the bind port is omitted. *)
Definition bind_port (r : Relay.t) : Z :=
  if bool_decide (Relay.OscBindAddr r <> EmptyString)
     && bool_decide (Relay.OscBindPort r = 0)
  then Relay.OscPort r else Relay.OscBindPort r.

(** Two distinct relays of the list share a topic root or a bind port. *)
Definition clash (rs : list Relay.t) (i j : nat) : Prop :=
  i <> j /\ exists ri rj, rs !! i = Some ri /\ rs !! j = Some rj /\
    (Relay.MqttTopic ri = Relay.MqttTopic rj \/ bind_port ri = bind_port rj).

Definition invalid (rs : list Relay.t) : Prop :=
  rs = [] \/
  (exists r, r ∈ rs /\ (Relay.MqttHost r = EmptyString \/ Relay.MqttPort r = 0)) \/
  (exists r, r ∈ rs /\ Relay.MqttTopic r = EmptyString) \/
  (exists r, r ∈ rs /\ Relay.OscBindAddr r = EmptyString /\ Relay.OscHost r = EmptyString) \/
  (exists i j, clash rs i j).

(** The relay that a fatal exit names does have the defect it reports. *)
Definition blames (rs : list Relay.t) (e : fatal) : Prop :=
  match e with
  | NoRelaysDefined => rs = []
  | MqttHostPortRequired i =>
      exists r, rs !! i = Some r /\
        (Relay.MqttHost r = EmptyString \/ Relay.MqttPort r = 0)
  | MqttTopicRequired i =>
      exists r, rs !! i = Some r /\ Relay.MqttTopic r = EmptyString
  | BindAddrOrHostRequired i =>
      exists r, rs !! i = Some r /\
        Relay.OscBindAddr r = EmptyString /\ Relay.OscHost r = EmptyString
  | DuplicateMqttTopic i =>
      exists j ri rj, i <> j /\ rs !! i = Some ri /\ rs !! j = Some rj /\
        Relay.MqttTopic ri = Relay.MqttTopic rj
  | DuplicateOscBindPort i =>
      exists j ri rj, i <> j /\ rs !! i = Some ri /\ rs !! j = Some rj /\
        bind_port ri = bind_port rj
  end.



End ConfigSpec.

(** ** Sample configurations *)

Module Sample.
(** A relay of the README's example, with the given topic root, peer
    port, bind address and bind port. *)
Definition relay (topic : string) (port : Z) (bind : string) (bport : Z) : Relay.t :=
  Relay.mk "10.0.0.2" 1883 "osc_mqtt_bridge" "mqtt" "PASSWORD" topic false
           "10.0.0.3" port bind bport false [] [] SendLog.

Definition wing : Relay.t := relay "osc/behringer_wing" 2223 "10.0.0.9" 0.
Definition x32 : Relay.t := relay "osc/x32" 10023 "10.0.0.9" 0.
Definition client_a : Relay.t := relay "osc/a" 9000 EmptyString 0.
Definition client_a' : Relay.t := relay "osc/a" 9001 EmptyString 0.

(** An instance of the library: a time tag keeps the time it was made
    from next to its seconds since 1900. *)
Record ntp_tag : Type := mk_ntp_tag { timeTag : Z; time : Time; MinValue : Z }.

Definition timeToTimetag (t : Time) : Z := ext t + 2208988800.

#[global] Instance ntp_osc : GoOsc := {|
  Timetag := ntp_tag;
  NewTimetag t := mk_ntp_tag (timeToTimetag t) t 1;
  Timetag_Time := time
|}.

(** A relay under [osc/test] with the given commands and gate, client
    only, logging everything. *)
Definition test_relay (commands : list RelayCommand.t) (disallow : bool) : Runtime :=
  mkRuntime
    (Relay.mk "10.0.0.2" 1883 "osc_mqtt_bridge" "mqtt" "PASSWORD" "osc/test" false
              "10.0.0.3" 2223 EmptyString 0 disallow commands [] DebugLog)
    (Some ("10.0.0.3", 2223)) None None.

Definition mute : RelayCommand.t :=
  RelayCommand.mk "/ch/1/mute" EmptyString "mute" false [VInt 1].
Definition mute_on_send : RelayCommand.t :=
  RelayCommand.mk "/ch/1/mute" EmptyString "send/x" false [VInt 1].
Definition mute_fixed : RelayCommand.t :=
  RelayCommand.mk "/ch/1/mute" EmptyString "mute" true [VInt 1].

(** A world where the network works, and where JSON is known for the
    payloads of the examples: [[]], [[1]], and anything else is refused. *)
Definition world : World := {|
  json_Unmarshal_arguments payload :=
    if bool_decide (payload = "[]") then Some []
    else if bool_decide (payload = "[1]") then Some [VFloat 4607182418800017408]
    else None;
  json_Unmarshal_OscBundle payload := None;
  json_Marshal_arguments arguments :=
    match arguments with [] => Some "[]" | _ => None end;
  json_Marshal_OscBundle b := None;
  json_Marshal_Relay r := Some "{}";
  net_ResolveUDPAddr host port := Some (mkUDPAddr host port);
  osc_MarshalBinary packet := Some "#datagram";
  conn_WriteTo_ok c data addr := true;
  net_DialUDP_ok peer := true
|}.

Definition t0 : Time := mkTime 0 0 "UTC".
Definition t1 : Time := mkTime 500 1700000000 "UTC".

(** A bundle with two messages and a nested bundle that nests another. *)
Definition nested : OscBundle :=
  mkOscBundle t0
    (Some [Some (OscMessage.mk "/ch/1/mute" [VInt 1]); Some (OscMessage.mk "/ch/2/mute" [])])
    (Some [Some (mkOscBundle t1
                   (Some [Some (OscMessage.mk "/a" [VString "x"; VBool true])])
                   (Some [Some (mkOscBundle t0 None None)]));
           Some (mkOscBundle t1 None None)]).

(** What a JSON object with [[]] for its messages and its bundles decodes
    to: two slices that are empty and not nil. *)
Definition emptied : OscBundle := mkOscBundle t0 (Some []) (Some []).

(** A heap that holds a bundle with one message and one nested bundle,
    and the bundle that it holds at location 3. *)
Definition heap : gmap Heap.loc Heap.cell :=
  <[3%nat := Heap.COscBundle t1 (Some [Some 1%nat]) (Some [Some 2%nat])]>
  (<[2%nat := Heap.COscBundle t0 None None]>
  (<[1%nat := Heap.COscMessage "/ch/1/mute" (Some 0%nat)]>
  (<[0%nat := Heap.CArguments [VInt 1]]> ∅))).

Definition held : OscBundle :=
  mkOscBundle t1 (Some [Some (OscMessage.mk "/ch/1/mute" [VInt 1])])
                 (Some [Some (mkOscBundle t0 None None)]).

(** A relay with a server on port 2223, and one without. *)
Definition two_way : Relay.t := relay "osc/test" 2223 "10.0.0.9" 2223.
Definition one_way : Relay.t := relay "osc/test" 2223 EmptyString 0.

(** The relay of [test_relay] with [log_level: -1] in its configuration. *)
Definition silent_relay (commands : list RelayCommand.t) (disallow : bool) : Runtime :=
  mkRuntime
    (Relay.mk "10.0.0.2" 1883 "osc_mqtt_bridge" "mqtt" "PASSWORD" "osc/test" false
              "10.0.0.3" 2223 EmptyString 0 disallow commands [] (-1))
    (Some ("10.0.0.3", 2223)) None None.

(** A command under the send prefix whose default argument is a string,
    which the encoder of go-osc accepts (it refuses a Go [int], which is
    what YAML makes of [1]). *)
Definition say_on : RelayCommand.t :=
  RelayCommand.mk "/ch/1/mute" EmptyString "send/x" false [VString "on"].

(** JSON texts.  [q s] is [s] between double quotes. *)
Definition dq : string := String (Ascii.ascii_of_nat 34) EmptyString.
Definition q (s : string) : string := dq +:+ s +:+ dq.

Definition json_one_message : string :=
  "{" +:+ q "messages" +:+ ":[{" +:+ q "address" +:+ ":" +:+ q "/a" +:+ "," +:+
  q "arguments" +:+ ":[true]}]}".
Definition json_null_message : string := "{" +:+ q "messages" +:+ ":[null]}".
Definition json_empty_slices : string :=
  "{" +:+ q "messages" +:+ ":[]," +:+ q "bundles" +:+ ":[]}".

(** What [encoding/json] makes of them in a fresh [OscBundle]: an absent
    field keeps its zero value. *)
Definition one_message : OscBundle :=
  mkOscBundle (mkTime 0 0 EmptyString)
              (Some [Some (OscMessage.mk "/a" [VBool true])]) None.
Definition null_message : OscBundle :=
  mkOscBundle (mkTime 0 0 EmptyString) (Some [None]) None.
Definition empty_slices : OscBundle :=
  mkOscBundle (mkTime 0 0 EmptyString) (Some []) (Some []).

(** A rendering of a bundle as JSON: [null] for a nil slice or pointer,
    brackets for a slice that is not nil. *)
Definition render_list {A} (f : A -> string) (l : list A) : string :=
  "[" +:+ String.concat "," (map f l) +:+ "]".

Definition render_value (v : Value) : string :=
  match v with
  | VString s => q s
  | VBool b => if b then "true" else "false"
  | VInt n | VFloat n | VTime n => NilZero.string_of_int (Z.to_int n)
  | VBlob s => q s
  | VNil => "null"
  end.

Definition render_message (m : option OscMessage.t) : string :=
  match m with
  | None => "null"
  | Some m =>
      "{" +:+ q "address" +:+ ":" +:+ q (OscMessage.Address m) +:+ "," +:+
      q "arguments" +:+ ":" +:+ render_list render_value (OscMessage.Arguments m) +:+ "}"
  end.

Fixpoint render_bundle (x : OscBundle) : string :=
  match x with
  | mkOscBundle t ms bs =>
      "{" +:+ q "timetag" +:+ ":" +:+ NilZero.string_of_int (Z.to_int (ext t)) +:+ "," +:+
      q "messages" +:+ ":" +:+
      match ms with None => "null" | Some l => render_list render_message l end +:+ "," +:+
      q "bundles" +:+ ":" +:+
      match bs with
      | None => "null"
      | Some l =>
          render_list (fun b => match b with None => "null" | Some b => render_bundle b end) l
      end +:+ "}"
  end.

(** What the binary encoder of go-osc accepts. *)
Definition encodable (v : Value) : bool :=
  match v with VInt _ => false | _ => true end.

Fixpoint bundle_encodable (b : osc.Bundle) : bool :=
  match b with
  | osc.mkBundle _ ms bs =>
      forallb (fun m => forallb encodable (osc.Arguments m)) (Slice.elems ms)
      && match bs with Some l => forallb bundle_encodable l | None => true end
  end.

(** A world like [world] where the three JSON texts above are known, a
    bundle is rendered as above, and the encoder refuses what go-osc
    refuses; a datagram shows the address it carries. *)
Definition studio : World := {|
  json_Unmarshal_arguments payload :=
    if bool_decide (payload = "[]") then Some []
    else if bool_decide (payload = "[1]") then Some [VFloat 4607182418800017408]
    else None;
  json_Unmarshal_OscBundle payload :=
    if bool_decide (payload = json_one_message) then Some one_message
    else if bool_decide (payload = json_null_message) then Some null_message
    else if bool_decide (payload = json_empty_slices) then Some empty_slices
    else None;
  json_Marshal_arguments arguments := Some (render_list render_value arguments);
  json_Marshal_OscBundle b := Some (render_bundle b);
  json_Marshal_Relay r := Some "{}";
  net_ResolveUDPAddr host port := Some (mkUDPAddr host port);
  osc_MarshalBinary packet :=
    match packet with
    | osc.PMessage m =>
        if forallb encodable (osc.Arguments m) then Some ("osc:" +:+ osc.Address m) else None
    | osc.PBundle b => if bundle_encodable b then Some "osc:#bundle" else None
    | osc.POther _ => None
    end;
  conn_WriteTo_ok c data addr := true;
  net_DialUDP_ok peer := true
|}.

End Sample.

(** ** More of the code *)

Module More.

(** The choice of the configuration file at the start of [ReadConfig]:
    the path of the command line when it is not empty and [os.Stat]
    accepts it, else the first of [./config.yaml], the one of the home
    directory and the one under [/etc] that [os.Stat] accepts.  [None] is
    [log.Fatal("Unable to find a configuration file.")]. *)
Definition config_file (stat : string -> bool)
    (ConfigPath localConfig HomeDir : string) : option string :=
  let homeDirConfig := HomeDir +:+ "/.config/mqtt-osc-bridge/config.yaml" in
  let etcConfig := "/etc/mqtt-osc-bridge/config.yaml" in
  if stat ConfigPath && negb (bool_decide (ConfigPath = EmptyString))
  then Some ConfigPath
  else if stat localConfig then Some localConfig
  else if stat homeDirConfig then Some homeDirConfig
  else if stat etcConfig then Some etcConfig
  else None.

(** [r.LogLevel = l] *)
Definition set_LogLevel (l : LogLevel) (r : Runtime) : Runtime :=
  mkRuntime
    (Relay.mk (Relay.MqttHost r) (Relay.MqttPort r) (Relay.MqttClientId r)
       (Relay.MqttUser r) (Relay.MqttPassword r) (Relay.MqttTopic r)
       (Relay.MqttDisableConfigSend r) (Relay.OscHost r) (Relay.OscPort r)
       (Relay.OscBindAddr r) (Relay.OscBindPort r)
       (Relay.OscDisallowArbritaryCommand r) (Relay.Commands r)
       (Relay.OscSubscriptions r) l)
    (OscClient r) (OscServer r) (OscServerConn r).

(** A run without its log lines and its publications: the calls of
    [OscSend] and the socket operations. *)
Definition is_osc_side `{GoOsc} (e : event) : bool :=
  match e with
  | Println _ _ | Publish _ _ _ _ => false
  | _ => true
  end.

Definition osc_side `{GoOsc} (tr : list event) : list event :=
  filter is_osc_side tr.

(** The relay index that a fatal exit of the validation prints. *)
Definition fatal_index (e : Config.fatal) : option nat :=
  match e with
  | Config.NoRelaysDefined => None
  | Config.MqttHostPortRequired i | Config.MqttTopicRequired i
  | Config.BindAddrOrHostRequired i | Config.DuplicateMqttTopic i
  | Config.DuplicateOscBindPort i => Some i
  end.

End More.

(** * Properties *)

(** ** Slices *)

Section SliceProofs.
Context {A B : Type}.
Import Slice.

Lemma range_elems (s : Slice.t A) (f : B -> A -> B) (b : B) :
  Slice.range s f b = fold_left f (Slice.elems s) b.
Proof. by destruct s. Qed.

Lemma extend_cons (s : Slice.t A) a l :
  extend s (a :: l) = Some (Slice.elems s ++ a :: l).
Proof.
  unfold extend. cbn [fold_left]. revert s a. induction l as [|a' l IH]; intros s a; [done|].
  cbn [fold_left]. rewrite (IH (Slice.append s a) a'). cbn. by rewrite <- app_assoc.
Qed.

Lemma extend_nil_slice (l : list A) : extend None l = Slice.of_list l.
Proof. destruct l as [|a l]; [done|]. by rewrite extend_cons. Qed.

Lemma elems_extend (s : Slice.t A) l : Slice.elems (extend s l) = Slice.elems s ++ l.
Proof.
  destruct l as [|a l]; [by rewrite app_nil_r|]. by rewrite extend_cons.
Qed.

Lemma extend_app (s : Slice.t A) l1 l2 : extend s (l1 ++ l2) = extend (extend s l1) l2.
Proof. unfold extend. by rewrite fold_left_app. Qed.

Lemma elems_of_list (l : list A) : Slice.elems (Slice.of_list l) = l.
Proof. by destruct l. Qed.

Lemma of_list_elems (s : Slice.t A) : s <> Some [] -> Slice.of_list (Slice.elems s) = s.
Proof. destruct s as [[|a l]|]; done. Qed.

Lemma of_list_not_empty (l : list A) : Slice.of_list l <> Some [].
Proof. by destruct l. Qed.

End SliceProofs.

(** ** The bundle codec *)

Section CodecProofs.
Context `{GoOsc}.
Import Slice Codec CodecSpec.

(** Induction on bundles, with the hypothesis for every nested bundle. *)
Lemma OscBundle_nested_ind (P : OscBundle -> Prop) :
  (forall t ms bs,
     Forall (fun b => match b with Some b => P b | None => True end) (Slice.elems bs) ->
     P (mkOscBundle t ms bs)) ->
  forall b, P b.
Proof.
  intros step. fix IH 1. intros [t ms bs]. apply step.
  destruct bs as [bs|]; [|constructor]. cbn.
  induction bs as [|[b|] bs IHbs]; constructor; [apply IH | apply IHbs | done | apply IHbs].
Qed.

Lemma Bundle_nested_ind (P : osc.Bundle -> Prop) :
  (forall t ms bs, Forall P (Slice.elems bs) -> P (osc.mkBundle t ms bs)) ->
  forall b, P b.
Proof.
  intros step. fix IH 1. intros [t ms bs]. apply step.
  destruct bs as [bs|]; [|constructor]. cbn.
  induction bs as [|b bs IHbs]; constructor; [apply IH | apply IHbs].
Qed.

(** The two loops of [makeBundle] append the images of the children, in
    order. *)
Lemma fold_append_Messages {A} (g : A -> option OscMessage.t) l b :
  fold_left (fun b a => append_Messages (g a) b) l b =
  mkOscBundle (OscBundle.Timetag b) (extend (OscBundle.Messages b) (map g l))
              (OscBundle.Bundles b).
Proof.
  revert b. induction l as [|a l IH]; intros [t ms bs]; [done|].
  cbn [fold_left map]. by rewrite IH.
Qed.

Lemma fold_append_Bundles {A} (g : A -> option OscBundle) l b :
  fold_left (fun b a => append_Bundles (g a) b) l b =
  mkOscBundle (OscBundle.Timetag b) (OscBundle.Messages b)
              (extend (OscBundle.Bundles b) (map g l)).
Proof.
  revert b. induction l as [|a l IH]; intros [t ms bs]; [done|].
  cbn [fold_left map]. by rewrite IH.
Qed.

Lemma makeBundle_eq timetag messages bundles :
  makeBundle (osc.mkBundle timetag messages bundles) =
  mkOscBundle (Timetag_Time timetag)
    (Slice.of_list (map (fun m => Some (portable_message m)) (Slice.elems messages)))
    (Slice.of_list (map (fun b => Some (makeBundle b)) (Slice.elems bundles))).
Proof.
  cbn [makeBundle]. rewrite !range_elems.
  rewrite (fold_append_Messages (fun m => Some (portable_message m))).
  rewrite (fold_append_Bundles (fun b => Some (makeBundle b))).
  cbn. by rewrite !extend_nil_slice.
Qed.

(** The loops of [MakeOSCBundle]: a fold that has panicked stays so, and
    one that has not appends the images of the children while they are
    there. *)
Lemma fold_panicked {A} (f : osc.Bundle -> A -> option osc.Bundle) (l : list A) :
  fold_left (fun b a => b ← b; f b a) l None = None.
Proof. by induction l. Qed.

Lemma fold_Append_Message l b :
  fold_left (fun b message =>
               b ← b; message ← message;
               let m := osc.NewMessage (OscMessage.Address message) in
               let m := osc.set_Arguments (OscMessage.Arguments message) m in
               Some (osc.Append (osc.PMessage m) b)) l (Some b) =
  ms ← mapM id l;
  Some (osc.mkBundle (osc.Bundle_Timetag b)
          (extend (osc.Bundle_Messages b) (map wire_message ms)) (osc.Bundle_Bundles b)).
Proof.
  revert b. induction l as [|[m|] l IH]; intros [t ms bs].
  - done.
  - cbn [fold_left mapM]. cbn [mbind option_bind id]. rewrite IH.
    cbn. destruct (mapM id l) as [ms'|]; [|done]. cbn. done.
  - cbn [fold_left]. cbn. apply (fold_panicked (fun b message => _)).
Qed.

Lemma fold_Append_Bundle l b :
  fold_left (fun b sbundle =>
               b ← b; sbundle ← sbundle; subBundle ← MakeOSCBundle sbundle;
               Some (osc.Append (osc.PBundle subBundle) b)) l (Some b) =
  bs ← mapM (fun sbundle => sbundle ← sbundle; MakeOSCBundle sbundle) l;
  Some (osc.mkBundle (osc.Bundle_Timetag b) (osc.Bundle_Messages b)
          (extend (osc.Bundle_Bundles b) bs)).
Proof.
  revert b. induction l as [|[x|] l IH]; intros [t ms bs].
  - done.
  - cbn [fold_left mapM]. cbn [mbind option_bind].
    destruct (MakeOSCBundle x) as [y|]; cbn.
    + rewrite IH. cbn. destruct (mapM _ l) as [bs'|]; [|done]. cbn. done.
    + apply (fold_panicked (fun b sbundle => _)).
  - cbn [fold_left]. cbn. apply (fold_panicked (fun b sbundle => _)).
Qed.

Lemma MakeOSCBundle_eq timetag messages bundles :
  MakeOSCBundle (mkOscBundle timetag messages bundles) =
  ms ← mapM id (Slice.elems messages);
  bs ← mapM (fun sbundle => sbundle ← sbundle; MakeOSCBundle sbundle) (Slice.elems bundles);
  Some (osc.mkBundle (NewTimetag timetag) (Slice.of_list (map wire_message ms))
                     (Slice.of_list bs)).
Proof.
  cbn [MakeOSCBundle]. rewrite !range_elems, fold_Append_Message.
  destruct (mapM id (Slice.elems messages)) as [ms|]; cbn.
  - rewrite fold_Append_Bundle. cbn.
    destruct (mapM _ (Slice.elems bundles)) as [bs|]; [|done]. cbn.
    by rewrite !extend_nil_slice.
  - apply (fold_panicked (fun b sbundle => _)).
Qed.

Lemma mapM_id_Some {A} (l : list (option A)) (l' : list A) :
  mapM id l = Some l' <-> l = map Some l'.
Proof.
  rewrite mapM_Some. split.
  - induction 1 as [|[a|] a' l l' Ha _ IH]; cbn in *; simplify_eq; by f_equal.
  - intros ->. induction l'; by constructor.
Qed.

Lemma whole_Forall t ms bs :
  whole (mkOscBundle t ms bs) <->
  Forall is_Some (elems ms) /\
  Forall (fun b => match b with Some b => whole b | None => False end) (elems bs).
Proof.
  cbn [whole]. apply and_iff_compat_l. destruct bs as [bs|]; cbn; [|by rewrite Forall_nil].
  induction bs as [|b bs IH]; cbn; [by rewrite Forall_nil|].
  by rewrite Forall_cons, IH.
Qed.

Lemma compact_Forall t ms bs :
  compact (mkOscBundle t ms bs) <->
  ms <> Some [] /\ bs <> Some [] /\
  Forall (fun b => match b with Some b => compact b | None => True end) (elems bs).
Proof.
  cbn [compact]. do 2 apply and_iff_compat_l. destruct bs as [bs|]; cbn; [|by rewrite Forall_nil].
  induction bs as [|b bs IH]; cbn; [by rewrite Forall_nil|].
  by rewrite Forall_cons, IH.
Qed.

Lemma nil_for_empty_eq t ms bs :
  nil_for_empty (mkOscBundle t ms bs) =
  mkOscBundle t (of_list (elems ms)) (of_list (map (option_map nil_for_empty) (elems bs))).
Proof. by destruct bs. Qed.

Lemma library_built_Forall timetag messages bundles :
  library_built (osc.mkBundle timetag messages bundles) <->
  (exists t, timetag = NewTimetag t) /\ messages <> Some [] /\ bundles <> Some [] /\
  Forall library_built (elems bundles).
Proof.
  cbn [library_built]. do 3 apply and_iff_compat_l.
  destruct bundles as [bs|]; cbn; [|by rewrite Forall_nil].
  induction bs as [|b bs IH]; cbn; [by rewrite Forall_nil|].
  by rewrite Forall_cons, IH.
Qed.

(** [MakeOSCBundle] returns exactly on the bundles without a nil
    pointer. *)
Lemma MakeOSCBundle_whole (x : OscBundle) : is_Some (MakeOSCBundle x) <-> whole x.
Proof.
  induction x as [t ms bs IH] using OscBundle_nested_ind.
  rewrite MakeOSCBundle_eq, whole_Forall. split.
  - intros [y Hy]. apply bind_Some in Hy as (ms' & Hms & Hy).
    apply bind_Some in Hy as (bs' & Hbs & _). split.
    + apply mapM_id_Some in Hms as ->. apply Forall_fmap, Forall_forall. by eexists.
    + apply mapM_Some in Hbs. clear -Hbs IH.
      induction Hbs as [|[b|] y l l' Hb _ IHl]; [constructor | |done].
      apply Forall_cons in IH as [IHb IH]. constructor; [|by apply IHl].
      apply IHb. by exists y.
  - intros [Hms Hbs].
    assert (exists ms', mapM id (elems ms) = Some ms') as [ms' ->].
    { apply mapM_is_Some. eapply Forall_impl; [exact Hms|]. by intros a Ha. }
    assert (exists bs', mapM (fun sb => sb ← sb; MakeOSCBundle sb) (elems bs) = Some bs')
      as [bs' ->]; [|by eexists].
    apply mapM_is_Some. clear -Hbs IH.
    induction Hbs as [|[b|] l Hb _ IHl]; [constructor | |done].
    apply Forall_cons in IH as [IHb IH]. constructor; [|by apply IHl].
    cbn. by apply IHb.
Qed.

(** To the wire form and back: the bundle started from, with nil for its
    empty slices. *)
Lemma makeBundle_MakeOSCBundle `{!GoOscLaws} (x : OscBundle) (y : osc.Bundle) :
  MakeOSCBundle x = Some y -> makeBundle y = nil_for_empty x.
Proof.
  revert y. induction x as [t ms bs IH] using OscBundle_nested_ind. intros y.
  rewrite MakeOSCBundle_eq, nil_for_empty_eq. intros Hy.
  apply bind_Some in Hy as (ms' & Hms & Hy). apply bind_Some in Hy as (bs' & Hbs & [= <-]).
  rewrite makeBundle_eq, Time_NewTimetag, !elems_of_list, map_map.
  apply mapM_id_Some in Hms. rewrite Hms. f_equal.
  - f_equal. apply map_ext. by intros [a args].
  - f_equal. apply mapM_Some in Hbs. clear -Hbs IH.
    induction Hbs as [|[b|] y l l' Hb _ IHl]; [done | |done].
    apply Forall_cons in IH as [IHb IH]. cbn. f_equal; [|by apply IHl].
    f_equal. by apply IHb.
Qed.

(** On a compact bundle there is nothing to replace. *)
Lemma nil_for_empty_compact (x : OscBundle) : compact x -> nil_for_empty x = x.
Proof.
  induction x as [t ms bs IH] using OscBundle_nested_ind.
  rewrite compact_Forall, nil_for_empty_eq. intros (Hms & Hbs & Hsub).
  rewrite (of_list_elems ms) by done. f_equal.
  rewrite <- (of_list_elems bs) at 2 by done. f_equal.
  clear Hbs. induction Hsub as [|[b|] l Hb _ IHl]; [done | |].
  - apply Forall_cons in IH as [IHb IH]. cbn. f_equal; [|by apply IHl]. f_equal. by apply IHb.
  - apply Forall_cons in IH as [_ IH]. cbn. f_equal. by apply IHl.
Qed.

(** What [makeBundle] returns is whole and compact. *)
Lemma makeBundle_whole (w : osc.Bundle) : whole (makeBundle w).
Proof.
  induction w as [tt ms bs IH] using Bundle_nested_ind.
  rewrite makeBundle_eq, whole_Forall, !elems_of_list. split.
  - apply Forall_fmap, Forall_forall. by eexists.
  - by apply Forall_fmap.
Qed.

Lemma makeBundle_compact (w : osc.Bundle) : compact (makeBundle w).
Proof.
  induction w as [tt ms bs IH] using Bundle_nested_ind.
  rewrite makeBundle_eq, compact_Forall, !elems_of_list.
  split_and!; [apply of_list_not_empty.. |]. by apply Forall_fmap.
Qed.

(** To the portable form and back. *)
Lemma MakeOSCBundle_makeBundle `{!GoOscLaws} (w : osc.Bundle) :
  library_built w -> MakeOSCBundle (makeBundle w) = Some w.
Proof.
  induction w as [tt ms bs IH] using Bundle_nested_ind.
  rewrite library_built_Forall. intros ([t ->] & Hms & Hbs & Hsub).
  rewrite makeBundle_eq, MakeOSCBundle_eq, !elems_of_list.
  assert (mapM id (map (fun m => Some (portable_message m)) (elems ms)) =
          Some (map portable_message (elems ms))) as ->.
  { apply mapM_id_Some. by rewrite map_map. }
  cbn [mbind option_bind].
  assert (mapM (fun sb => sb ← sb; MakeOSCBundle sb)
               (map (fun b => Some (makeBundle b)) (elems bs)) = Some (elems bs)) as ->.
  { apply mapM_Some. clear Hbs. induction Hsub as [|b l Hb _ IHl]; [constructor|].
    apply Forall_cons in IH as [IHb IH]. cbn. constructor; [by apply IHb | by apply IHl]. }
  cbn. rewrite Time_NewTimetag, map_map.
  assert (map (fun m => wire_message (portable_message m)) (elems ms) = elems ms) as ->.
  { rewrite <- (map_id (elems ms)) at 2. apply map_ext. by intros [a args]. }
  by rewrite !of_list_elems.
Qed.

Lemma MakeOSCBundle_library_built (x : OscBundle) (y : osc.Bundle) :
  MakeOSCBundle x = Some y -> library_built y.
Proof.
  revert y. induction x as [t ms bs IH] using OscBundle_nested_ind. intros y.
  rewrite MakeOSCBundle_eq. intros Hy.
  apply bind_Some in Hy as (ms' & Hms & Hy). apply bind_Some in Hy as (bs' & Hbs & [= <-]).
  rewrite library_built_Forall, elems_of_list.
  split_and!; [by exists t | apply of_list_not_empty.. |].
  apply mapM_Some in Hbs. clear -Hbs IH.
  induction Hbs as [|[b|] y l l' Hb _ IHl]; [constructor | |done].
  apply Forall_cons in IH as [IHb IH]. constructor; [by apply IHb | by apply IHl].
Qed.


End CodecProofs.
(** ** The bundle codec on the heap *)

Section HeapProofs.
Context `{GoOsc}.
Import Slice Heap CodecSpec.

Lemma run_bind {A B} (m : M A) (k : A -> M B) h a h' :
  m h = Ok a h' -> (m ≫= k) h = k a h'.
Proof. intros Hm. unfold mbind, M_bind, bind. by rewrite Hm. Qed.

Lemma run_load h l c : h !! l = Some c -> load (Some l) h = Ok c h.
Proof. intros Hl. unfold load. by rewrite Hl. Qed.

Lemma subseteq_delete_r (m1 m2 : gmap loc cell) i :
  m1 !! i = None -> m1 ⊆ m2 -> m1 ⊆ delete i m2.
Proof.
  intros Hi Hsub. apply map_subseteq_spec. intros j x Hj.
  destruct (decide (i = j)) as [->|Hne]; [congruence|].
  rewrite lookup_delete_ne by done. by eapply lookup_weaken.
Qed.

Lemma is_arguments_mono h h' a vs : h ⊆ h' -> is_arguments h a vs -> is_arguments h' a vs.
Proof. intros Hsub. destruct a; cbn; [intros; by eapply lookup_weaken | done]. Qed.

Lemma is_Message_mono h h' p m : h ⊆ h' -> is_Message h p m -> is_Message h' p m.
Proof.
  intros Hsub (l & a & -> & Hl & Ha). exists l, a.
  split_and!; [done | by eapply lookup_weaken | by eapply is_arguments_mono].
Qed.

Lemma is_OscMessage_mono h h' p m : h ⊆ h' -> is_OscMessage h p m -> is_OscMessage h' p m.
Proof.
  intros Hsub (l & a & -> & Hl & Ha). exists l, a.
  split_and!; [done | by eapply lookup_weaken | by eapply is_arguments_mono].
Qed.

Lemma Forall2_impl_Forall {A B} (R R' : A -> B -> Prop) l k :
  Forall (fun b => forall a, R a b -> R' a b) k -> Forall2 R l k -> Forall2 R' l k.
Proof.
  intros HF H2. induction H2 as [|a b l k Hab _ IH]; [constructor|].
  apply Forall_cons in HF as [Hb HF]. constructor; auto.
Qed.

Lemma is_slice_impl {A B} (R R' : A -> B -> Prop) s s' :
  (forall a b, R a b -> R' a b) -> is_slice R s s' -> is_slice R' s s'.
Proof.
  intros HR Hs. destruct Hs; constructor. eapply Forall2_impl; [done|]. exact HR.
Qed.

Lemma is_slice_elems {A B} (R : A -> B -> Prop) s s' :
  is_slice R s s' -> Forall2 R (elems s) (elems s').
Proof. intros Hs. destruct Hs; [done | constructor]. Qed.

Lemma is_slice_of_list {A B} (R : A -> B -> Prop) l l' :
  Forall2 R l l' -> is_slice R (of_list l) (of_list l').
Proof. intros Hl. destruct Hl; constructor. by constructor. Qed.

Lemma is_slice_impl_Forall {A B} (R R' : A -> B -> Prop) s s' :
  Forall (fun b => forall a, R a b -> R' a b) (elems s') -> is_slice R s s' -> is_slice R' s s'.
Proof.
  intros HF Hs. destruct Hs as [l l' Hl|]; constructor. by eapply Forall2_impl_Forall.
Qed.

(** Pointers to children that are there stand for a list of values. *)
Lemma Forall2_points_to {B} (R : ptr -> B -> Prop) ps cs :
  Forall2 (points_to R) ps cs <-> exists xs, cs = map Some xs /\ Forall2 R ps xs.
Proof.
  split.
  - induction 1 as [|p c ps cs Hp _ (xs & -> & IH)]; [by exists []|].
    destruct Hp as [p x Hx]. exists (x :: xs). split; [done | by constructor].
  - intros (xs & -> & Hxs). induction Hxs; constructor; [by constructor | done].
Qed.

Lemma points_to_mono {B} (R R' : ptr -> B -> Prop) p c :
  (forall b, c = Some b -> R p b -> R' p b) -> points_to R p c -> points_to R' p c.
Proof. intros HR Hp. destruct Hp as [p b Hb]. constructor. by apply HR. Qed.

Lemma is_Bundle_mono h h' p x : h ⊆ h' -> is_Bundle h p x -> is_Bundle h' p x.
Proof.
  intros Hsub. revert p. induction x as [t ms bs IH] using Bundle_nested_ind.
  intros p Hp. inversion Hp as [l t' pms pbs ms' bs' Hl Hms Hbs]; subst.
  econstructor; [by eapply lookup_weaken | | by eapply is_slice_impl_Forall].
  eapply is_slice_impl; [|done]. intros ? ?. by apply is_Message_mono.
Qed.

Lemma is_OscBundle_mono h h' p x : h ⊆ h' -> is_OscBundle h p x -> is_OscBundle h' p x.
Proof.
  intros Hsub. revert p. induction x as [t ms bs IH] using OscBundle_nested_ind.
  intros p Hp. inversion Hp as [l t' pms pbs ms' bs' Hl Hms Hbs]; subst.
  econstructor; [by eapply lookup_weaken | |].
  - eapply is_slice_impl; [|done]. intros q c. apply points_to_mono.
    intros ? _. by apply is_OscMessage_mono.
  - eapply is_slice_impl_Forall; [|done].
    eapply Forall_impl; [exact IH|]. intros [b|] Hb q; apply points_to_mono; [|done].
    intros ? [= <-]. apply Hb.
Qed.

(** A bundle that the heap holds has no nil pointer. *)
Lemma is_OscBundle_children h pms pbs ms bs :
  is_slice (points_to (is_OscMessage h)) pms ms ->
  is_slice (points_to (is_OscBundle h)) pbs bs ->
  exists ms' bs',
    elems ms = map Some ms' /\ elems bs = map Some bs' /\
    Forall2 (is_OscMessage h) (elems pms) ms' /\
    Forall2 (is_OscBundle h) (elems pbs) bs'.
Proof.
  intros Hms Hbs. apply is_slice_elems, Forall2_points_to in Hms as (ms' & ? & ?).
  apply is_slice_elems, Forall2_points_to in Hbs as (bs' & ? & ?). by exists ms', bs'.
Qed.


Lemma run_alloc {B} c (k : loc -> M B) h :
  (alloc c ≫= k) h = k (fresh (dom h)) (<[fresh (dom h) := c]> h).
Proof. done. Qed.

Lemma run_load_bind {B} h l c (k : cell -> M B) :
  h !! l = Some c -> (load (Some l) ≫= k) h = k c h.
Proof. intros Hl. apply run_bind, run_load, Hl. Qed.

Lemma run_store l c h : store l c h = Ok tt (<[l := c]> h).
Proof. done. Qed.

Lemma fresh_lookup (h : gmap loc cell) : h !! fresh (dom h) = None.
Proof. apply not_elem_of_dom, is_fresh. Qed.

Lemma fresh_ne (h : gmap loc cell) l c : h !! l = Some c -> fresh (dom h) <> l.
Proof. intros Hl Heq. rewrite <- Heq in Hl. by rewrite fresh_lookup in Hl. Qed.

Lemma lookup_delete_subseteq (G h : gmap loc cell) b l c :
  G ⊆ delete b h -> G !! l = Some c -> h !! l = Some c /\ l <> b.
Proof.
  intros Hsub Hl. eapply lookup_weaken in Hl; [|done].
  apply lookup_delete_Some in Hl as [? ?]. done.
Qed.

Lemma MakeOSCBundle_messages b t bs0 pms ms :
  forall G, Forall2 (is_OscMessage G) pms ms ->
  forall h acc,
  G ⊆ delete b h ->
  h !! b = Some (CBundle t acc bs0) ->
  exists h' G' new,
    for_each pms (MakeOSCBundle_message b) h = Ok tt h' /\
    delete b h ⊆ delete b h' /\ G ⊆ G' /\ G' ⊆ delete b h' /\
    (forall l, is_Some (h !! l) -> G' !! l = G !! l) /\
    h' !! b = Some (CBundle t (extend acc new) bs0) /\
    Forall2 (is_Message G') new
      (map wire_message ms).
Proof.
  revert ms. induction pms as [|p pms IH]; intros ms G HF h acc HG Hb;
    inversion HF as [|? m ? ms' Hm HF']; subst.
  { exists h, G, []. by split_and!. }
  destruct Hm as (l & a & -> & Hl & Ha).
  destruct (lookup_delete_subseteq _ _ _ _ _ HG Hl) as [Hhl Hlb].
  set (lm := fresh (dom h)).
  set (c := CMessage (OscMessage.Address m) a).
  assert (Hfresh : h !! lm = None) by apply fresh_lookup.
  assert (Hlmb : lm <> b) by congruence.
  assert (HGlm : G !! lm = None).
  { destruct (G !! lm) eqn:E; [|done].
    destruct (lookup_delete_subseteq _ _ _ _ _ HG E) as [E' _]. congruence. }
  set (h3 := <[b := CBundle t (append acc (Some lm)) bs0]> (<[lm := c]> h)).
  assert (Hbody : MakeOSCBundle_message b (Some l) h = Ok tt h3).
  { unfold MakeOSCBundle_message. rewrite (run_load_bind _ _ _ _ Hhl).
    rewrite run_alloc. fold lm. unfold set_Arguments.
    erewrite run_bind; last first.
    { erewrite run_load_bind by apply lookup_insert_eq. apply run_store. }
    rewrite insert_insert_eq. unfold Append_Message.
    assert (Hb2 : <[lm := c]> h !! b = Some (CBundle t acc bs0))
      by (by rewrite lookup_insert_ne).
    by rewrite (run_load_bind _ _ _ _ Hb2). }
  assert (Hdel : delete b h3 = <[lm := c]> (delete b h)).
  { unfold h3. rewrite delete_insert_eq. by rewrite delete_insert_ne. }
  destruct (IH ms' (<[lm := c]> G)) with (h := h3) (acc := append acc (Some lm))
    as (h' & G' & new & Hrun & Hd & HGG & HGh & Hagree & Hb' & Hnew).
  { eapply Forall2_impl; [done|]. intros ? ?. apply is_OscMessage_mono.
    by apply insert_subseteq. }
  { rewrite Hdel. by apply insert_mono. }
  { unfold h3. by rewrite lookup_insert_eq. }
  exists h', G', (Some lm :: new). split_and!.
  - cbn [for_each]. by rewrite (run_bind _ _ _ _ _ Hbody).
  - etrans; [|exact Hd]. rewrite Hdel. apply insert_subseteq.
    by rewrite lookup_delete_ne by done.
  - etrans; [|exact HGG]. by apply insert_subseteq.
  - done.
  - intros l' [c' Hl']. rewrite Hagree.
    + apply lookup_insert_ne. congruence.
    + unfold h3. destruct (decide (b = l')) as [->|?];
        [rewrite lookup_insert_eq | rewrite lookup_insert_ne by done]; [done|].
      rewrite lookup_insert_ne by congruence. done.
  - done.
  - cbn [map]. constructor; [|done].
    exists lm, a. split_and!; [done | |].
    + eapply lookup_weaken; [|done]. apply lookup_insert_eq.
    + eapply is_arguments_mono; [|done]. etrans; [|exact HGG]. by apply insert_subseteq.
Qed.


Lemma MakeOSCBundle_bundles n b t ms0 pbs bs :
  MakeOSCBundle_spec n ->
  Forall (fun x => (depth x <= n)%nat) bs ->
  forall G, Forall2 (is_OscBundle G) pbs bs ->
  forall h acc,
  G ⊆ delete b h ->
  h !! b = Some (CBundle t ms0 acc) ->
  exists h' G' new,
    for_each pbs (fun sbundle =>
                    subBundle ← MakeOSCBundle n sbundle;
                    Append_Bundle b subBundle) h = Ok tt h' /\
    delete b h ⊆ delete b h' /\ G ⊆ G' /\ G' ⊆ delete b h' /\
    (forall l, is_Some (h !! l) -> G' !! l = G !! l) /\
    h' !! b = Some (CBundle t ms0 (extend acc new)) /\
    exists ys,
      mapM (fun sb => sb ← sb; Codec.MakeOSCBundle sb) (map Some bs) = Some ys /\
      Forall2 (is_Bundle G') new ys.
Proof.
  intros Hspec. revert bs. induction pbs as [|p pbs IH]; intros bs Hdepth G HF h acc HG Hb;
    inversion HF as [|? x ? bs' Hx HF']; subst.
  { exists h, G, []. split_and!; try done. by exists []. }
  apply Forall_cons in Hdepth as [Hdx Hdepth].
  assert (HGb : G !! b = None).
  { destruct (G !! b) eqn:E; [|done].
    by destruct (lookup_delete_subseteq _ _ _ _ _ HG E). }
  destruct (Hspec x G h p Hdx) as (h1 & G1 & q & y & Hy & Hrun1 & Hh1 & HG1 & HG1h & Hag1 & Hq);
    [etrans; [exact HG | apply delete_subseteq] | done |].
  assert (Hb1 : h1 !! b = Some (CBundle t ms0 acc)) by (by eapply lookup_weaken).
  set (h2 := <[b := CBundle t ms0 (append acc q)]> h1).
  assert (Hbody : (subBundle ← MakeOSCBundle n p; Append_Bundle b subBundle) h = Ok tt h2).
  { rewrite (run_bind _ _ _ _ _ Hrun1). unfold Append_Bundle.
    by rewrite (run_load_bind _ _ _ _ Hb1). }
  assert (HG1b : G1 !! b = None) by (rewrite Hag1; [done | by rewrite Hb]).
  assert (Hdel : delete b h2 = delete b h1) by apply delete_insert_eq.
  destruct (IH bs' Hdepth G1) with (h := h2) (acc := append acc q)
    as (h' & G' & new & Hrun & Hd & HGG & HGh & Hagree & Hb' & ys & Hys & Hnew).
  { eapply Forall2_impl; [done|]. intros ? ?. by apply is_OscBundle_mono. }
  { rewrite Hdel. by apply subseteq_delete_r. }
  { unfold h2. by rewrite lookup_insert_eq. }
  exists h', G', (q :: new). split_and!.
  - cbn [for_each]. by rewrite (run_bind _ _ _ _ _ Hbody).
  - etrans; [|exact Hd]. rewrite Hdel. by apply delete_mono.
  - by etrans.
  - done.
  - intros l' Hl'. rewrite Hagree; [by apply Hag1|].
    destruct Hl' as [c' Hl']. unfold h2.
    destruct (decide (b = l')) as [->|?];
      [rewrite lookup_insert_eq | rewrite lookup_insert_ne by done]; [done|].
    exists c'. by eapply lookup_weaken.
  - done.
  - exists (y :: ys). split.
    + cbn [map mapM]. cbn [mbind option_bind]. rewrite Hy. cbn. by rewrite Hys.
    + constructor; [|done]. by eapply is_Bundle_mono.
Qed.

Lemma depth_children t ms bs bs' n :
  elems bs = map Some bs' ->
  (depth (mkOscBundle t ms bs) <= S n)%nat -> Forall (fun x => (depth x <= n)%nat) bs'.
Proof.
  cbn [depth]. rewrite range_elems. intros -> Hd. apply le_S_n in Hd.
  revert Hd. generalize 0%nat. induction bs' as [|b bs' IH]; intros d Hd; [constructor|].
  cbn in Hd. constructor.
  - etrans; [|exact Hd]. clear. generalize (Nat.max (depth b) d) (Nat.le_max_l (depth b) d).
    induction bs' as [|b' bs' IH']; intros k Hk; cbn; [done|]. apply IH'. lia.
  - by apply (IH _ Hd).
Qed.

Lemma MakeOSCBundle_correct n : MakeOSCBundle_spec n.
Proof.
  induction n as [|n IHn]; intros x G h p Hd HG Hp.
  { destruct x. cbn in Hd. lia. }
  inversion Hp as [l t pms pbs ms bs Hl Hms0 Hbs0]; subst.
  destruct (is_OscBundle_children G pms pbs ms bs Hms0 Hbs0)
    as (ms' & bs' & Ems & Ebs & Hms & Hbs).
  apply (depth_children _ _ _ bs' _ Ebs) in Hd.
  assert (Hhl : h !! l = Some (COscBundle t pms pbs)) by (by eapply lookup_weaken).
  set (b := fresh (dom h)).
  assert (Hfresh : h !! b = None) by apply fresh_lookup.
  assert (HGb : G !! b = None).
  { destruct (G !! b) eqn:E; [|done]. eapply lookup_weaken in E; [|done]. congruence. }
  set (h1 := <[b := CBundle (NewTimetag t) None None]> h).
  assert (Hdel1 : delete b h1 = h).
  { unfold h1. rewrite delete_insert_eq. by apply delete_id. }
  destruct (MakeOSCBundle_messages b (NewTimetag t) None (elems pms) ms' G Hms h1 None)
    as (h2 & G2 & newm & Hrun2 & Hd2 & HG2 & HG2h & Hag2 & Hb2 & Hnewm).
  { by rewrite Hdel1. }
  { unfold h1. by rewrite lookup_insert_eq. }
  destruct (MakeOSCBundle_bundles n b (NewTimetag t) (extend None newm) (elems pbs) bs'
              IHn Hd G2) with (h := h2) (acc := @None (list ptr))
    as (h3 & G3 & newb & Hrun3 & Hd3 & HG3 & HG3h & Hag3 & Hb3 & ys & Hys & Hnewb).
  { eapply Forall2_impl; [done|]. intros ? ?. by apply is_OscBundle_mono. }
  { done. }
  { done. }
  assert (HG3b : G3 !! b = None).
  { destruct (G3 !! b) eqn:E; [|done].
    by destruct (lookup_delete_subseteq _ _ _ _ _ HG3h E). }
  assert (Hh2 : h ⊆ h2).
  { transitivity (delete b h1); [by rewrite Hdel1|].
    transitivity (delete b h2); [done | apply delete_subseteq]. }
  assert (Hh3 : h ⊆ h3).
  { transitivity (delete b h1); [by rewrite Hdel1|].
    transitivity (delete b h2); [done|].
    transitivity (delete b h3); [done | apply delete_subseteq]. }
  exists h3, (<[b := CBundle (NewTimetag t) (extend None newm) (extend None newb)]> G3),
    (Some b),
    (osc.mkBundle (NewTimetag t) (of_list (map wire_message ms')) (of_list ys)).
  split_and!.
  - rewrite MakeOSCBundle_eq, Ems, Ebs.
    rewrite (proj2 (mapM_id_Some (map Some ms') ms') eq_refl). cbn [mbind option_bind].
    by rewrite Hys.
  - cbn [MakeOSCBundle]. rewrite (run_load_bind _ _ _ _ Hhl), run_alloc.
    fold b h1. rewrite (run_bind _ _ _ _ _ Hrun2), (run_bind _ _ _ _ _ Hrun3). done.
  - done.
  - apply insert_subseteq_r; [done|]. by etrans.
  - apply insert_subseteq_l; [done|]. etrans; [exact HG3h | apply delete_subseteq].
  - intros l' [c' Hl']. assert (b <> l') by congruence.
    rewrite lookup_insert_ne by done.
    rewrite Hag3, Hag2; [done | |].
    + unfold h1. rewrite lookup_insert_ne by done. by exists c'.
    + exists c'. by eapply lookup_weaken.
  - rewrite !extend_nil_slice. econstructor.
    + apply lookup_insert_eq.
    + apply is_slice_of_list. eapply Forall2_impl; [exact Hnewm|]. intros ? ?.
      apply is_Message_mono. etrans; [exact HG3|]. by apply insert_subseteq.
    + apply is_slice_of_list. eapply Forall2_impl; [exact Hnewb|]. intros ? ?.
      apply is_Bundle_mono. by apply insert_subseteq.
Qed.


Lemma makeBundle_messages b t bs0 pms ms :
  forall G, Forall2 (is_Message G) pms ms ->
  forall h acc,
  G ⊆ delete b h ->
  h !! b = Some (COscBundle t acc bs0) ->
  exists h' G' new,
    for_each pms (makeBundle_message b) h = Ok tt h' /\
    delete b h ⊆ delete b h' /\ G ⊆ G' /\ G' ⊆ delete b h' /\
    (forall l, is_Some (h !! l) -> G' !! l = G !! l) /\
    h' !! b = Some (COscBundle t (extend acc new) bs0) /\
    Forall2 (is_OscMessage G') new
      (map portable_message ms).
Proof.
  revert ms. induction pms as [|p pms IH]; intros ms G HF h acc HG Hb;
    inversion HF as [|? m ? ms' Hm HF']; subst.
  { exists h, G, []. by split_and!. }
  destruct Hm as (l & a & -> & Hl & Ha).
  destruct (lookup_delete_subseteq _ _ _ _ _ HG Hl) as [Hhl Hlb].
  set (lm := fresh (dom h)).
  set (c := COscMessage (osc.Address m) a).
  assert (Hfresh : h !! lm = None) by apply fresh_lookup.
  assert (Hlmb : lm <> b) by congruence.
  assert (Hlml : lm <> l) by congruence.
  assert (HGlm : G !! lm = None).
  { destruct (G !! lm) eqn:E; [|done].
    destruct (lookup_delete_subseteq _ _ _ _ _ HG E) as [E' _]. congruence. }
  set (h3 := <[b := COscBundle t (append acc (Some lm)) bs0]> (<[lm := c]> h)).
  assert (Hbody : makeBundle_message b (Some l) h = Ok tt h3).
  { unfold makeBundle_message. rewrite run_alloc. fold lm.
    assert (Hl1 : <[lm := COscMessage EmptyString None]> h !! l =
                  Some (CMessage (osc.Address m) a))
      by (by rewrite lookup_insert_ne).
    rewrite (run_load_bind _ _ _ _ Hl1). unfold set_Address.
    erewrite run_bind; last first.
    { erewrite run_load_bind by apply lookup_insert_eq. apply run_store. }
    rewrite insert_insert_eq. unfold set_Arguments.
    erewrite run_bind; last first.
    { erewrite run_load_bind by apply lookup_insert_eq. apply run_store. }
    rewrite insert_insert_eq. unfold append_Messages.
    assert (Hb2 : <[lm := c]> h !! b = Some (COscBundle t acc bs0))
      by (by rewrite lookup_insert_ne).
    by rewrite (run_load_bind _ _ _ _ Hb2). }
  assert (Hdel : delete b h3 = <[lm := c]> (delete b h)).
  { unfold h3. rewrite delete_insert_eq. by rewrite delete_insert_ne. }
  destruct (IH ms' (<[lm := c]> G)) with (h := h3) (acc := append acc (Some lm))
    as (h' & G' & new & Hrun & Hd & HGG & HGh & Hagree & Hb' & Hnew).
  { eapply Forall2_impl; [done|]. intros ? ?. apply is_Message_mono.
    by apply insert_subseteq. }
  { rewrite Hdel. by apply insert_mono. }
  { unfold h3. by rewrite lookup_insert_eq. }
  exists h', G', (Some lm :: new). split_and!.
  - cbn [for_each]. by rewrite (run_bind _ _ _ _ _ Hbody).
  - etrans; [|exact Hd]. rewrite Hdel. apply insert_subseteq.
    by rewrite lookup_delete_ne by done.
  - etrans; [|exact HGG]. by apply insert_subseteq.
  - done.
  - intros l' [c' Hl']. rewrite Hagree.
    + apply lookup_insert_ne. congruence.
    + unfold h3. destruct (decide (b = l')) as [->|?];
        [rewrite lookup_insert_eq | rewrite lookup_insert_ne by done]; [done|].
      rewrite lookup_insert_ne by congruence. done.
  - done.
  - cbn [map]. constructor; [|done].
    exists lm, a. split_and!; [done | |].
    + eapply lookup_weaken; [|done]. apply lookup_insert_eq.
    + eapply is_arguments_mono; [|done]. etrans; [|exact HGG]. by apply insert_subseteq.
Qed.

Lemma makeBundle_bundles n b t ms0 pbs bs :
  makeBundle_spec n ->
  Forall (fun x => (wire_depth x <= n)%nat) bs ->
  forall G, Forall2 (is_Bundle G) pbs bs ->
  forall h acc,
  G ⊆ delete b h ->
  h !! b = Some (COscBundle t ms0 acc) ->
  exists h' G' new,
    for_each pbs (fun sbundle =>
                    subBundle ← makeBundle n sbundle;
                    append_Bundles b subBundle) h = Ok tt h' /\
    delete b h ⊆ delete b h' /\ G ⊆ G' /\ G' ⊆ delete b h' /\
    (forall l, is_Some (h !! l) -> G' !! l = G !! l) /\
    h' !! b = Some (COscBundle t ms0 (extend acc new)) /\
    Forall2 (is_OscBundle G') new (map Codec.makeBundle bs).
Proof.
  intros Hspec. revert bs. induction pbs as [|p pbs IH]; intros bs Hdepth G HF h acc HG Hb;
    inversion HF as [|? x ? bs' Hx HF']; subst.
  { exists h, G, []. by split_and!. }
  apply Forall_cons in Hdepth as [Hdx Hdepth].
  assert (HGb : G !! b = None).
  { destruct (G !! b) eqn:E; [|done].
    by destruct (lookup_delete_subseteq _ _ _ _ _ HG E). }
  destruct (Hspec x G h p Hdx) as (h1 & G1 & q & Hrun1 & Hh1 & HG1 & HG1h & Hag1 & Hq);
    [etrans; [exact HG | apply delete_subseteq] | done |].
  assert (Hb1 : h1 !! b = Some (COscBundle t ms0 acc)) by (by eapply lookup_weaken).
  set (h2 := <[b := COscBundle t ms0 (append acc q)]> h1).
  assert (Hbody : (subBundle ← makeBundle n p; append_Bundles b subBundle) h = Ok tt h2).
  { rewrite (run_bind _ _ _ _ _ Hrun1). unfold append_Bundles.
    by rewrite (run_load_bind _ _ _ _ Hb1). }
  assert (HG1b : G1 !! b = None) by (rewrite Hag1; [done | by rewrite Hb]).
  assert (Hdel : delete b h2 = delete b h1) by apply delete_insert_eq.
  destruct (IH bs' Hdepth G1) with (h := h2) (acc := append acc q)
    as (h' & G' & new & Hrun & Hd & HGG & HGh & Hagree & Hb' & Hnew).
  { eapply Forall2_impl; [done|]. intros ? ?. by apply is_Bundle_mono. }
  { rewrite Hdel. by apply subseteq_delete_r. }
  { unfold h2. by rewrite lookup_insert_eq. }
  exists h', G', (q :: new). split_and!.
  - cbn [for_each]. by rewrite (run_bind _ _ _ _ _ Hbody).
  - etrans; [|exact Hd]. rewrite Hdel. by apply delete_mono.
  - by etrans.
  - done.
  - intros l' Hl'. rewrite Hagree; [by apply Hag1|].
    destruct Hl' as [c' Hl']. unfold h2.
    destruct (decide (b = l')) as [->|?];
      [rewrite lookup_insert_eq | rewrite lookup_insert_ne by done]; [done|].
    exists c'. by eapply lookup_weaken.
  - done.
  - cbn [map]. constructor; [|done]. by eapply is_OscBundle_mono.
Qed.

Lemma wire_depth_children t ms bs n :
  (wire_depth (osc.mkBundle t ms bs) <= S n)%nat ->
  Forall (fun x => (wire_depth x <= n)%nat) (elems bs).
Proof.
  cbn [wire_depth]. rewrite range_elems. intros Hd. apply le_S_n in Hd.
  revert Hd. generalize 0%nat. induction (elems bs) as [|b bs' IH]; intros d Hd; [constructor|].
  cbn in Hd. constructor.
  - etrans; [|exact Hd]. clear.
    generalize (Nat.max (wire_depth b) d) (Nat.le_max_l (wire_depth b) d).
    induction bs' as [|b' bs' IH']; intros k Hk; cbn; [done|]. apply IH'. lia.
  - by apply (IH _ Hd).
Qed.

Lemma makeBundle_correct n : makeBundle_spec n.
Proof.
  induction n as [|n IHn]; intros x G h p Hd HG Hp.
  { destruct x. cbn in Hd. lia. }
  inversion Hp as [l t pms pbs ms bs Hl Hms0 Hbs0]; subst.
  pose proof (is_slice_elems _ _ _ Hms0) as Hms. pose proof (is_slice_elems _ _ _ Hbs0) as Hbs.
  apply wire_depth_children in Hd.
  assert (Hhl : h !! l = Some (CBundle t pms pbs)) by (by eapply lookup_weaken).
  set (b := fresh (dom h)).
  assert (Hfresh : h !! b = None) by apply fresh_lookup.
  assert (Hbl : b <> l) by congruence.
  assert (HGb : G !! b = None).
  { destruct (G !! b) eqn:E; [|done]. eapply lookup_weaken in E; [|done]. congruence. }
  set (h1 := <[b := COscBundle (Timetag_Time t) None None]> h).
  assert (Hdel1 : delete b h1 = h).
  { unfold h1. rewrite delete_insert_eq. by apply delete_id. }
  destruct (makeBundle_messages b (Timetag_Time t) None (elems pms) (elems ms) G Hms h1 None)
    as (h2 & G2 & newm & Hrun2 & Hd2 & HG2 & HG2h & Hag2 & Hb2 & Hnewm).
  { by rewrite Hdel1. }
  { unfold h1. by rewrite lookup_insert_eq. }
  destruct (makeBundle_bundles n b (Timetag_Time t) (extend None newm) (elems pbs) (elems bs)
              IHn Hd G2) with (h := h2) (acc := @None (list ptr))
    as (h3 & G3 & newb & Hrun3 & Hd3 & HG3 & HG3h & Hag3 & Hb3 & Hnewb).
  { eapply Forall2_impl; [done|]. intros ? ?. by apply is_Bundle_mono. }
  { done. }
  { done. }
  assert (HG3b : G3 !! b = None).
  { destruct (G3 !! b) eqn:E; [|done].
    by destruct (lookup_delete_subseteq _ _ _ _ _ HG3h E). }
  assert (Hh2 : h ⊆ h2).
  { transitivity (delete b h1); [by rewrite Hdel1|].
    transitivity (delete b h2); [done | apply delete_subseteq]. }
  assert (Hh3 : h ⊆ h3).
  { transitivity (delete b h1); [by rewrite Hdel1|].
    transitivity (delete b h2); [done|].
    transitivity (delete b h3); [done | apply delete_subseteq]. }
  exists h3, (<[b := COscBundle (Timetag_Time t) (extend None newm) (extend None newb)]> G3),
    (Some b). split_and!.
  - cbn [makeBundle]. rewrite run_alloc. fold b.
    assert (Hl1 : <[b := COscBundle zero_Time None None]> h !! l = Some (CBundle t pms pbs))
      by (by rewrite lookup_insert_ne).
    rewrite (run_load_bind _ _ _ _ Hl1). unfold set_Timetag.
    erewrite run_bind; last first.
    { erewrite run_load_bind by apply lookup_insert_eq. apply run_store. }
    rewrite insert_insert_eq. fold h1.
    rewrite (run_bind _ _ _ _ _ Hrun2), (run_bind _ _ _ _ _ Hrun3). done.
  - done.
  - apply insert_subseteq_r; [done|]. by etrans.
  - apply insert_subseteq_l; [done|]. etrans; [exact HG3h | apply delete_subseteq].
  - intros l' [c' Hl']. assert (b <> l') by congruence.
    rewrite lookup_insert_ne by done.
    rewrite Hag3, Hag2; [done | |].
    + unfold h1. rewrite lookup_insert_ne by done. by exists c'.
    + exists c'. by eapply lookup_weaken.
  - rewrite makeBundle_eq, !extend_nil_slice. econstructor.
    + apply lookup_insert_eq.
    + apply is_slice_of_list, Forall2_points_to. exists (map portable_message (elems ms)).
      split; [by rewrite map_map|].
      eapply Forall2_impl; [exact Hnewm|]. intros ? ?. apply is_OscMessage_mono.
      etrans; [exact HG3|]. by apply insert_subseteq.
    + apply is_slice_of_list, Forall2_points_to. exists (map Codec.makeBundle (elems bs)).
      split; [by rewrite map_map|].
      eapply Forall2_impl; [exact Hnewb|]. intros ? ?. apply is_OscBundle_mono.
      by apply insert_subseteq.
Qed.

Lemma wire_depth_MakeOSCBundle x y :
  Codec.MakeOSCBundle x = Some y -> wire_depth y = depth x.
Proof.
  revert y. induction x as [t ms bs IH] using OscBundle_nested_ind. intros y.
  rewrite MakeOSCBundle_eq. intros Hy.
  apply bind_Some in Hy as (ms' & Hms & Hy). apply bind_Some in Hy as (bs' & Hbs & [= <-]).
  cbn [wire_depth depth]. rewrite !range_elems, elems_of_list. f_equal.
  apply mapM_Some in Hbs. generalize 0%nat. clear -Hbs IH.
  induction Hbs as [|[b|] y l l' Hb _ IHl]; intros d; [done | |done].
  apply Forall_cons in IH as [IHb IH]. cbn. rewrite (IHb y Hb). by apply IHl.
Qed.

Lemma depth_makeBundle x : depth (Codec.makeBundle x) = wire_depth x.
Proof.
  induction x as [t ms bs IH] using Bundle_nested_ind.
  rewrite makeBundle_eq. cbn [wire_depth depth]. rewrite !range_elems, elems_of_list. f_equal.
  generalize 0%nat. induction IH as [|b bs' Hb _ IHbs]; intros d; [done|].
  cbn. rewrite Hb. apply IHbs.
Qed.

End HeapProofs.
(** A nil pointer among the children (what [json.Unmarshal] makes of a
    [null] element) is dereferenced: both functions panic on it. *)
Example MakeOSCBundle_nil_message :
  Heap.MakeOSCBundle 1 (Some 0%nat)
    (<[0%nat := Heap.COscBundle Sample.t0 (Some [None]) None]> ∅) = Heap.Panics.
Proof. reflexivity. Qed.

Example makeBundle_nil_bundle :
  Heap.makeBundle 2 (Some 0%nat)
    (<[0%nat := Heap.CBundle (NewTimetag Sample.t0) None (Some [None])]> ∅) = Heap.Panics.
Proof. reflexivity. Qed.

(** The sample library keeps the time a tag was made from. *)
#[global] Instance ntp_osc_laws : GoOscLaws.
Proof. by constructor. Qed.

(** C1 as stated does not hold: a bundle whose slices of messages and of
    nested bundles are empty without being nil (what [[]] decodes to)
    comes back from the wire form with nil slices, which is another
    value (and [null] for [encoding/json]). *)
Lemma empty_slices_come_back_nil :
  Codec.makeBundle <$> Codec.MakeOSCBundle Sample.emptied =
    Some (mkOscBundle Sample.t0 None None) /\
  mkOscBundle Sample.t0 None None <> Sample.emptied.
Proof. split; [reflexivity | discriminate]. Qed.

(** C1, amended.  Converting a bundle without nil pointers to the wire
    form and back gives the bundle started from with nil for its empty
    slices of messages and of nested bundles: same time tag, same messages
    with the same addresses and arguments in the same order, same nested
    bundles in the same order, at every depth; it is the very bundle
    started from when it has no such empty slice.  Converting a wire bundle
    that the library built to the portable form and back gives the wire
    bundle started from.  This holds of the functions on values and of
    the functions on the heap, where, given fuel for the depth of the
    bundle, both calls return; the heap only grows, so no cell of the
    argument is written. *)
Theorem bundle_codec_round_trip `{GoOsc} `{!GoOscLaws} :
  (forall x : OscBundle,
     CodecSpec.whole x ->
     exists y, Codec.MakeOSCBundle x = Some y /\
               Codec.makeBundle y = CodecSpec.nil_for_empty x) /\
  (forall x : OscBundle,
     OscBundle.Timetag (CodecSpec.nil_for_empty x) = OscBundle.Timetag x /\
     Slice.elems (OscBundle.Messages (CodecSpec.nil_for_empty x)) =
       Slice.elems (OscBundle.Messages x) /\
     Slice.elems (OscBundle.Bundles (CodecSpec.nil_for_empty x)) =
       map (option_map CodecSpec.nil_for_empty) (Slice.elems (OscBundle.Bundles x)) /\
     (CodecSpec.compact x -> CodecSpec.nil_for_empty x = x)) /\
  (forall b : osc.Bundle,
     library_built b -> Codec.MakeOSCBundle (Codec.makeBundle b) = Some b) /\
  (forall (x : OscBundle) (h : gmap Heap.loc Heap.cell) (p : Heap.ptr) (n : nat),
     Heap.is_OscBundle h p x -> (Heap.depth x <= n)%nat ->
     exists y h1 q h2 p',
       Codec.MakeOSCBundle x = Some y /\
       Heap.MakeOSCBundle n p h = Heap.Ok q h1 /\
       Heap.makeBundle n q h1 = Heap.Ok p' h2 /\
       h ⊆ h1 /\ h1 ⊆ h2 /\
       Heap.is_Bundle h1 q y /\
       Heap.is_OscBundle h2 p' (CodecSpec.nil_for_empty x) /\
       Heap.is_OscBundle h2 p x) /\
  (forall (b : osc.Bundle) (h : gmap Heap.loc Heap.cell) (q : Heap.ptr) (n : nat),
     Heap.is_Bundle h q b -> library_built b -> (Heap.wire_depth b <= n)%nat ->
     exists h1 p h2 q',
       Heap.makeBundle n q h = Heap.Ok p h1 /\
       Heap.MakeOSCBundle n p h1 = Heap.Ok q' h2 /\
       h ⊆ h1 /\ h1 ⊆ h2 /\
       Heap.is_OscBundle h1 p (Codec.makeBundle b) /\
       Heap.is_Bundle h2 q' b /\ Heap.is_Bundle h2 q b).
Proof.
  split_and!.
  - intros x Hx. apply MakeOSCBundle_whole in Hx as [y Hy].
    exists y. split; [done | by apply makeBundle_MakeOSCBundle].
  - intros [t ms bs]. rewrite nil_for_empty_eq. cbn [OscBundle.Timetag OscBundle.Messages
      OscBundle.Bundles]. rewrite !elems_of_list. split_and!; try done.
    rewrite <- nil_for_empty_eq. apply nil_for_empty_compact.
  - apply MakeOSCBundle_makeBundle.
  - intros x h p n Hp Hn.
    destruct (MakeOSCBundle_correct n x h h p Hn (reflexivity h) Hp)
      as (h1 & G1 & q & y & Hy & Hrun1 & Hh1 & _ & HG1 & _ & Hq).
    assert (Hn' : (Heap.wire_depth y <= n)%nat)
      by (by rewrite (wire_depth_MakeOSCBundle x y Hy)).
    destruct (makeBundle_correct n y G1 h1 q Hn' HG1 Hq)
      as (h2 & G2 & p' & Hrun2 & Hh2 & _ & HG2 & _ & Hp').
    rewrite (makeBundle_MakeOSCBundle x y Hy) in Hp'.
    exists y, h1, q, h2, p'. split_and!; try done.
    + by eapply is_Bundle_mono.
    + by eapply is_OscBundle_mono.
    + eapply is_OscBundle_mono; [|done]. by etrans.
  - intros b h q n Hq Hb Hn.
    destruct (makeBundle_correct n b h h q Hn (reflexivity h) Hq)
      as (h1 & G1 & p & Hrun1 & Hh1 & _ & HG1 & _ & Hp).
    assert (Hn' : (Heap.depth (Codec.makeBundle b) <= n)%nat)
      by (by rewrite depth_makeBundle).
    destruct (MakeOSCBundle_correct n (Codec.makeBundle b) G1 h1 p Hn' HG1 Hp)
      as (h2 & G2 & q' & y & Hy & Hrun2 & Hh2 & _ & HG2 & _ & Hq').
    rewrite MakeOSCBundle_makeBundle in Hy by done. injection Hy as <-.
    exists h1, p, h2, q'. split_and!; try done.
    + by eapply is_OscBundle_mono.
    + by eapply is_Bundle_mono.
    + eapply is_Bundle_mono; [|done]. by etrans.
Qed.

Lemma sample_heap_holds : Heap.is_OscBundle Sample.heap (Some 3%nat) Sample.held.
Proof.
  econstructor; [reflexivity | |].
  - do 2 constructor; [|constructor]. constructor.
    exists 1%nat, (Some 0%nat). by split_and!.
  - do 2 constructor; [|constructor]. constructor.
    econstructor; [reflexivity | constructor..].
Qed.

Lemma sample_nested_whole : CodecSpec.whole Sample.nested.
Proof. cbn. repeat split; repeat constructor; by eexists. Qed.

Lemma sample_nested_compact : CodecSpec.compact Sample.nested.
Proof. cbn. repeat split; discriminate. Qed.

Lemma bundle_codec_round_trip_witness :
  (exists y, Codec.MakeOSCBundle Sample.nested = Some y /\
             Codec.makeBundle y = Sample.nested) /\
  exists y h1 q h2 p',
    Codec.MakeOSCBundle Sample.held = Some y /\
    Heap.MakeOSCBundle 2 (Some 3%nat) Sample.heap = Heap.Ok q h1 /\
    Heap.makeBundle 2 q h1 = Heap.Ok p' h2 /\
    Sample.heap ⊆ h1 /\ h1 ⊆ h2 /\
    Heap.is_Bundle h1 q y /\
    Heap.is_OscBundle h2 p' (CodecSpec.nil_for_empty Sample.held) /\
    Heap.is_OscBundle h2 (Some 3%nat) Sample.held.
Proof.
  destruct (@bundle_codec_round_trip Sample.ntp_osc ntp_osc_laws) as (Hp & Hn & _ & Hh & _).
  split.
  - destruct (Hp Sample.nested sample_nested_whole) as (y & Hy & Hback).
    exists y. split; [done|].
    destruct (Hn Sample.nested) as (_ & _ & _ & Hc).
    by rewrite Hback, (Hc sample_nested_compact).
  - apply (Hh Sample.held Sample.heap (Some 3%nat) 2%nat sample_heap_holds).
    cbn. lia.
Defined.

(** ** Go strings *)

Section StringProofs.
Import GoStrings.

Lemma length_append (a b : string) :
  String.length (a +:+ b) = (String.length a + String.length b)%nat.
Proof. induction a as [|c a IH]; simpl; [done | by f_equal]. Qed.

Lemma substring_whole (a : string) : String.substring 0 (String.length a) a = a.
Proof. induction a as [|c a IH]; simpl; [done | by f_equal]. Qed.

Lemma substring_0_0 (a : string) : String.substring 0 0 a = EmptyString.
Proof. by destruct a. Qed.

Lemma substring_head (a b : string) :
  String.substring 0 (String.length a) (a +:+ b) = a.
Proof.
  induction a as [|c a IH]; simpl; [apply substring_0_0 | by f_equal].
Qed.

Lemma substring_tail (a b : string) :
  String.substring (String.length a) (String.length b) (a +:+ b) = b.
Proof. induction a as [|c a IH]; simpl; [apply substring_whole | done]. Qed.

Lemma HasPrefix_append (p rest : string) : HasPrefix (p +:+ rest) p = true.
Proof.
  unfold HasPrefix. rewrite length_append, substring_head.
  rewrite !bool_decide_eq_true_2; [done | done | lia].
Qed.

Lemma HasPrefix_inv (s p : string) :
  HasPrefix s p = true -> exists rest, s = p +:+ rest.
Proof.
  unfold HasPrefix. rewrite andb_true_iff, !bool_decide_eq_true. intros [_ Hsub].
  revert s Hsub. induction p as [|c p IH]; intros s Hsub; cbn in *.
  - by exists s.
  - destruct s as [|d s]; [done|]. cbn in Hsub. injection Hsub as -> Hsub.
    destruct (IH s Hsub) as [rest ->]. by exists rest.
Qed.

Lemma Index_prefix (s p : string) : HasPrefix s p = true -> Index s p = Some 0%nat.
Proof. intros Hp. destruct s; cbn; by rewrite Hp. Qed.

(** Replacing a non-empty prefix by the empty string, once, strips it. *)
Lemma Replace1_strip_prefix (p rest : string) :
  p <> EmptyString -> Replace1 (p +:+ rest) p EmptyString = rest.
Proof.
  intros Hp. unfold Replace1.
  rewrite bool_decide_eq_false_2 by done.
  rewrite Index_prefix by apply HasPrefix_append.
  rewrite substring_0_0, length_append. simpl.
  replace (String.length p + String.length rest - String.length p)%nat
    with (String.length rest) by lia.
  apply substring_tail.
Qed.

Lemma append_nonempty (a b : string) : b <> EmptyString -> a +:+ b <> EmptyString.
Proof. intros Hb. destruct a; [done | discriminate]. Qed.

End StringProofs.

(** ** The relay's methods *)

Section EngineProofs.
Context `{GoOsc}.
Import Engine Observe.

Lemma Log_ErrorLog (r : Relay.t) format :
  ErrorLog <= Relay.LogLevel r -> Log r ErrorLog format = [Println ErrorLog format].
Proof. intros Hl. unfold Log. by rewrite bool_decide_eq_true_2. Qed.

(** Below the level of errors nothing is printed at all. *)
Lemma Log_silent (r : Relay.t) level format :
  Relay.LogLevel r < level -> Log r level format = [].
Proof. intros Hl. unfold Log. rewrite bool_decide_eq_false_2; [done | lia]. Qed.

Lemma sent_app tr1 tr2 : sent (tr1 ++ tr2) = sent tr1 ++ sent tr2.
Proof. apply omap_app. Qed.

Lemma sent_Log (r : Relay.t) level format : sent (Log r level format) = [].
Proof. unfold Log. by case_bool_decide. Qed.

Lemma errors_app tr1 tr2 : errors (tr1 ++ tr2) = errors tr1 ++ errors tr2.
Proof. apply omap_app. Qed.

Lemma published_app tr1 tr2 : published (tr1 ++ tr2) = published tr1 ++ published tr2.
Proof. apply omap_app. Qed.

Lemma published_Log (r : Relay.t) level format : published (Log r level format) = [].
Proof. unfold Log. by case_bool_decide. Qed.

Lemma OscSend_trace w r p :
  exists rest, fst (OscSend w r (Some p)) = OscSendCall p :: rest /\ sent rest = [].
Proof.
  unfold OscSend.
  match goal with |- context [OscSendCall p :: ?l] =>
    set (lg := l); assert (Hlg : sent lg = [])
      by (subst lg; destruct p; by rewrite ?sent_Log) end.
  match goal with |- context [if bool_decide ?P then ?a else ?b] =>
    set (dbg := if bool_decide P then a else b); assert (Hdbg : sent dbg = [])
      by (subst dbg; case_bool_decide; by rewrite ?sent_Log) end.
  clearbody lg dbg.
  destruct (net_ResolveUDPAddr _ _ _) as [addr|]; cbn [fst]; [|by exists lg].
  destruct (osc_MarshalBinary _ _) as [data|]; cbn [fst]; [|by exists lg].
  destruct (OscServer r); [destruct (OscServerConn r)|destruct (net_DialUDP_ok _ _)];
    cbn [fst]; rewrite <- app_comm_cons; eexists; (split; [reflexivity|]);
    by rewrite ?sent_app, Hlg, Hdbg.
Qed.

Lemma sent_OscSend w r p : sent (fst (OscSend w r (Some p))) = [p].
Proof. destruct (OscSend_trace w r p) as (rest & -> & Hrest). cbn. fold (sent rest). by rewrite Hrest. Qed.

Lemma sent_send_and_log w r p : sent (fst (send_and_log w r p)) = [p].
Proof.
  unfold send_and_log. pose proof (sent_OscSend w r p) as Hs.
  destruct (OscSend w r (Some p)) as [tr []]; cbn [fst] in *;
    by rewrite ?sent_app, ?sent_Log, ?app_nil_r.
Qed.

Lemma send_and_log_flow w r p : snd (send_and_log w r p) <> Return.
Proof.
  unfold send_and_log. by destruct (OscSend w r (Some p)) as [tr []].
Qed.

Lemma commands_loop_app w r pre post message :
  commands_loop w r (pre ++ post) message =
  match commands_loop w r pre message with
  | (tr, Next) =>
      let '(tr', f) := commands_loop w r post message in (tr ++ tr', f)
  | (tr, f) => (tr, f)
  end.
Proof.
  induction pre as [|cmd pre IH]; cbn [commands_loop app].
  - by destruct (commands_loop w r post message).
  - destruct (command_matches r cmd (mqtt.Topic message)); [|done].
    destruct (command_action w r cmd message) as [tr []]; [|done..].
    rewrite IH. destruct (commands_loop w r pre message) as [tr1 []]; [|done..].
    destruct (commands_loop w r post message) as [tr2 f2]. by rewrite app_assoc.
Qed.


(** The arguments of a command, once the payload is decoded. *)
Lemma command_action_decoded w r cmd message decoded :
  decoded_payload w (mqtt.Payload message) = Some decoded ->
  command_action w r cmd message =
  send_and_log w r
    (osc.PMessage (osc.mkMessage (RelayCommand.Command cmd)
                     (mapping_arguments cmd (mqtt.Payload message) decoded))).
Proof.
  unfold decoded_payload, mapping_arguments, command_action.
  unfold osc.set_Arguments, osc.NewMessage. cbn [osc.Address].
  destruct (RelayCommand.DisallowPayload cmd); cbn [negb andb].
  - intros _. case_bool_decide as Hlen; cbn [negb]; [|done].
    apply length_zero_iff_nil in Hlen. by rewrite Hlen.
  - destruct (bool_decide (String.length (mqtt.Payload message) = 0%nat)); cbn [negb].
    + intros _. case_bool_decide as Hlen; cbn [negb]; [|done].
      apply length_zero_iff_nil in Hlen. by rewrite Hlen.
    + by intros ->.
Qed.

Lemma send_and_log_ready w r p :
  socket_ready r -> snd (send_and_log w r p) = Next.
Proof.
  intros Hready. unfold send_and_log, OscSend.
  destruct (net_ResolveUDPAddr _ _ _); [|done].
  destruct (osc_MarshalBinary _ _); [|done].
  destruct Hready as [->|[c ->]].
  - by destruct (net_DialUDP_ok _ _).
  - destruct (OscServer r); [by destruct (conn_WriteTo_ok _ _ _ _)|].
    by destruct (net_DialUDP_ok _ _).
Qed.

(** With the payload decoded and no panic, the loop sends one packet per
    matching command, in the order of the table, and falls through. *)
Lemma commands_loop_decoded w r cmds message decoded :
  socket_ready r ->
  decoded_payload w (mqtt.Payload message) = Some decoded ->
  snd (commands_loop w r cmds message) = Next /\
  sent (fst (commands_loop w r cmds message)) =
    map (fun cmd => osc.PMessage
                      (osc.mkMessage (RelayCommand.Command cmd)
                         (mapping_arguments cmd (mqtt.Payload message) decoded)))
        (filter (fun cmd => command_matches r cmd (mqtt.Topic message) = true) cmds).
Proof.
  intros Hready Hdec. induction cmds as [|cmd cmds [IHf IHs]]; [done|].
  cbn [commands_loop]. rewrite filter_cons.
  destruct (command_matches r cmd (mqtt.Topic message)) eqn:Hm.
  - rewrite decide_True by done.
    rewrite (command_action_decoded _ _ _ _ _ Hdec).
    pose proof (send_and_log_ready w r
      (osc.PMessage (osc.mkMessage (RelayCommand.Command cmd)
         (mapping_arguments cmd (mqtt.Payload message) decoded))) Hready) as Hn.
    pose proof (sent_send_and_log w r
      (osc.PMessage (osc.mkMessage (RelayCommand.Command cmd)
         (mapping_arguments cmd (mqtt.Payload message) decoded)))) as Hs.
    destruct (send_and_log w r _) as [tr f]. cbn [fst snd] in Hn, Hs. subst f.
    destruct (commands_loop w r cmds message) as [tr' f']. cbn [fst snd] in *.
    split; [done|]. by rewrite sent_app, Hs, IHs.
  - by rewrite decide_False by done.
Qed.

(** The branch of the generic send, on a topic that starts with the
    prefix. *)
Lemma standard_send_prefix w (r : Runtime) rest payload :
  standard_send w r (mqtt.mkMessage ((Relay.MqttTopic r +:+ "/send") +:+ rest) payload) =
  if Relay.OscDisallowArbritaryCommand r
  then (Log r ErrorLog "Arbritary commands are disabled on this relay.", Return)
  else match decoded_payload w payload with
       | None => (Log r ErrorLog "Json Error: %s", Return)
       | Some arguments =>
           send_and_log w r
             (osc.PMessage
                (osc.mkMessage (if bool_decide (rest = EmptyString) then "/" else rest)
                               arguments))
       end.
Proof.
  unfold standard_send, decoded_payload. cbn [mqtt.Topic mqtt.Payload].
  rewrite Replace1_strip_prefix by (by apply append_nonempty).
  done.
Qed.

Lemma generic_routing_prefix w (r : Runtime) rest payload :
  generic_routing w r (mqtt.mkMessage ((Relay.MqttTopic r +:+ "/send") +:+ rest) payload) =
  standard_send w r (mqtt.mkMessage ((Relay.MqttTopic r +:+ "/send") +:+ rest) payload).
Proof.
  unfold generic_routing. cbn [mqtt.Topic]. by rewrite HasPrefix_append.
Qed.

Lemma errors_Log_other (r : Relay.t) level format :
  level <> ErrorLog -> errors (Log r level format) = [].
Proof.
  intros Hl. unfold Log. case_bool_decide; [|done]. cbn. by rewrite bool_decide_eq_false_2.
Qed.

Lemma errors_Log_ReceiveLog (r : Relay.t) format : errors (Log r ReceiveLog format) = [].
Proof. by apply errors_Log_other. Qed.

(** An error is printed at the levels from [ErrorLog] up, and at no
    level below. *)
Lemma errors_Log_ErrorLog (r : Relay.t) format :
  errors (Log r ErrorLog format) =
  if bool_decide (ErrorLog <= Relay.LogLevel r) then [format] else [].
Proof. unfold Log. by case_bool_decide. Qed.

Lemma commands_loop_no_match w (r : Runtime) cmds message :
  Forall (fun cmd => command_matches r cmd (mqtt.Topic message) = false) cmds ->
  commands_loop w r cmds message = ([], Next).
Proof.
  induction 1 as [|cmd cmds Hm _ IH]; [done|].
  cbn [commands_loop]. by rewrite Hm.
Qed.

(** A decode failure in a matching command ends the handler: the commands
    after it and the generic branches are not reached. *)
Lemma decode_failure_returns w (r : Runtime) pre cmd post message tr :
  Relay.Commands r = pre ++ cmd :: post ->
  commands_loop w r pre message = (tr, Next) ->
  command_matches r cmd (mqtt.Topic message) = true ->
  RelayCommand.DisallowPayload cmd = false ->
  mqtt.Payload message <> EmptyString ->
  json_Unmarshal_arguments w (mqtt.Payload message) = None ->
  MqttOnEvent w r message =
    (Log r ReceiveLog "<- [MQTT] %s: %s\n" ++ tr ++ Log r ErrorLog "Json Error: %s",
     Return).
Proof.
  intros Hcmds Hpre Hm Hd Hp Hj. unfold MqttOnEvent.
  rewrite Hcmds, commands_loop_app, Hpre. cbn [commands_loop]. rewrite Hm.
  unfold command_action. rewrite Hd, Hj. cbn [negb andb].
  rewrite bool_decide_eq_false_2; [|by destruct (mqtt.Payload message)].
  by cbn [negb].
Qed.

(** *** Sockets *)

Lemma socket_ops_app tr1 tr2 : socket_ops (tr1 ++ tr2) = socket_ops tr1 ++ socket_ops tr2.
Proof. apply filter_app. Qed.

Lemma socket_ops_Log (r : Relay.t) level format : socket_ops (Log r level format) = [].
Proof. unfold Log. by case_bool_decide. Qed.

Lemma Dispatch_socket_ops w r packet : socket_ops (Dispatch w r packet) = [].
Proof.
  destruct packet as [[m|b|k]|]; cbn [Dispatch]; [| |apply socket_ops_Log|done].
  - destruct (json_Marshal_arguments _ _);
      by rewrite !socket_ops_app, !socket_ops_Log.
  - destruct (json_Marshal_OscBundle _ _);
      by rewrite !socket_ops_app, !socket_ops_Log.
Qed.

(** The invariant of the runs of a relay started without a server: its
    state never changes, so no socket is bound and nothing is read. *)
End EngineProofs.



(** C9.  A topic that starts with the characters of [<namespace>/send],
    with or without a slash after them, takes the generic send branch;
    the target address is what follows the prefix, and [/] exactly when
    nothing follows. *)
Theorem generic_send_prefix `{GoOsc} (w : World) (r : Runtime) (rest payload : string) :
  (forall topic,
     GoStrings.HasPrefix topic (Relay.MqttTopic r +:+ "/send") = true <->
     exists rest', topic = (Relay.MqttTopic r +:+ "/send") +:+ rest') /\
  Engine.generic_routing w r
      (mqtt.mkMessage ((Relay.MqttTopic r +:+ "/send") +:+ rest) payload) =
    (if Relay.OscDisallowArbritaryCommand r
     then (Engine.Log r ErrorLog "Arbritary commands are disabled on this relay.", Return)
     else match Observe.decoded_payload w payload with
          | None => (Engine.Log r ErrorLog "Json Error: %s", Return)
          | Some arguments =>
              Engine.send_and_log w r
                (osc.PMessage
                   (osc.mkMessage (if bool_decide (rest = EmptyString) then "/" else rest)
                                  arguments))
          end) /\
  forall tr arguments,
    Engine.commands_loop w r (Relay.Commands r)
      (mqtt.mkMessage ((Relay.MqttTopic r +:+ "/send") +:+ rest) payload) = (tr, Next) ->
    Relay.OscDisallowArbritaryCommand r = false ->
    Observe.decoded_payload w payload = Some arguments ->
    Observe.sent (fst (Engine.MqttOnEvent w r
      (mqtt.mkMessage ((Relay.MqttTopic r +:+ "/send") +:+ rest) payload))) =
    Observe.sent tr ++
    [osc.PMessage
       (osc.mkMessage (if bool_decide (rest = EmptyString) then "/" else rest) arguments)].
Proof.
  split.
  { intros topic. split; [apply HasPrefix_inv|]. intros [rest' ->].
    apply HasPrefix_append. }
  pose proof (generic_routing_prefix w r rest payload) as Hg.
  rewrite standard_send_prefix in Hg. split; [done|].
  intros tr arguments Hloop Hallow Hdec. unfold Engine.MqttOnEvent.
  rewrite Hloop, Hg, Hallow, Hdec.
  pose proof (sent_send_and_log w r
    (osc.PMessage (osc.mkMessage (if bool_decide (rest = EmptyString) then "/" else rest)
                                 arguments))) as Hs.
  destruct (Engine.send_and_log w r _) as [tr2 f2]. cbn [fst] in *.
  by rewrite !sent_app, sent_Log, Hs.
Qed.

Lemma generic_send_prefix_witness :
  Observe.sent (fst (Engine.MqttOnEvent Sample.world (Sample.test_relay [] false)
                       (mqtt.mkMessage "osc/test/sendX" "[1]"))) =
  [osc.PMessage (osc.mkMessage "X" [VFloat 4607182418800017408])].
Proof.
  exact (proj2 (proj2 (generic_send_prefix Sample.world (Sample.test_relay [] false)
                         "X" "[1]")) [] _ eq_refl eq_refl eq_refl).
Defined.




(** C2 as stated does not hold: a message whose topic matches a command
    and starts with [<namespace>/send] makes the command fire and is then
    also handled by the generic send, which sends a second packet. *)
Lemma mapping_and_generic_send_both_fire :
  Engine.command_matches (Sample.test_relay [Sample.mute_on_send] false)
    Sample.mute_on_send "osc/test/send/x" = true /\
  GoStrings.HasPrefix "osc/test/send/x" "osc/test/send" = true /\
  Observe.sent (fst (Engine.MqttOnEvent Sample.world
                       (Sample.test_relay [Sample.mute_on_send] false)
                       (mqtt.mkMessage "osc/test/send/x" EmptyString))) =
  [osc.PMessage (osc.mkMessage "/ch/1/mute" [VInt 1]);
   osc.PMessage (osc.mkMessage "/x" [])].
Proof. repeat split; reflexivity. Qed.

(** C2, amended.  A message whose topic starts with [<namespace>/send]
    is handled by every command that matches its topic and then by the
    generic send as well: when the payload, if any, decodes and no send
    panics, the packets sent are one per matching command, in the order
    of the table, followed, unless arbitrary commands are disallowed, by
    one to the address that follows the prefix. *)
Theorem mapping_then_generic_send `{GoOsc} (w : World) (r : Runtime)
    (rest payload : string) (decoded : list Value) :
  Observe.socket_ready r ->
  Observe.decoded_payload w payload = Some decoded ->
  Observe.sent (fst (Engine.MqttOnEvent w r
    (mqtt.mkMessage ((Relay.MqttTopic r +:+ "/send") +:+ rest) payload))) =
  map (fun cmd => osc.PMessage
                    (osc.mkMessage (RelayCommand.Command cmd)
                       (Observe.mapping_arguments cmd payload decoded)))
      (filter (fun cmd => Engine.command_matches r cmd
                            ((Relay.MqttTopic r +:+ "/send") +:+ rest) = true)
              (Relay.Commands r)) ++
  (if Relay.OscDisallowArbritaryCommand r then []
   else [osc.PMessage
           (osc.mkMessage (if bool_decide (rest = EmptyString) then "/" else rest)
                          decoded)]).
Proof.
  intros Hready Hdec.
  destruct (commands_loop_decoded w r (Relay.Commands r)
              (mqtt.mkMessage ((Relay.MqttTopic r +:+ "/send") +:+ rest) payload)
              decoded Hready Hdec) as [Hf Hs].
  unfold Engine.MqttOnEvent.
  destruct (Engine.commands_loop w r _ _) as [tr1 f1]. cbn [fst snd] in Hf, Hs.
  subst f1. rewrite generic_routing_prefix, standard_send_prefix, Hdec.
  cbn [mqtt.Topic mqtt.Payload] in Hs.
  destruct (Relay.OscDisallowArbritaryCommand r).
  - cbn [fst]. by rewrite !sent_app, !sent_Log, Hs.
  - pose proof (sent_send_and_log w r
      (osc.PMessage (osc.mkMessage (if bool_decide (rest = EmptyString) then "/" else rest)
                                   decoded))) as Hs2.
    destruct (Engine.send_and_log w r _) as [tr2 f2]. cbn [fst] in *.
    by rewrite !sent_app, sent_Log, Hs, Hs2.
Qed.

Lemma mapping_then_generic_send_witness :
  Observe.sent (fst (Engine.MqttOnEvent Sample.world
                       (Sample.test_relay [Sample.mute_on_send] false)
                       (mqtt.mkMessage "osc/test/send/x" "[1]"))) =
  [osc.PMessage (osc.mkMessage "/ch/1/mute" [VFloat 4607182418800017408]);
   osc.PMessage (osc.mkMessage "/x" [VFloat 4607182418800017408])].
Proof.
  exact (mapping_then_generic_send Sample.world
           (Sample.test_relay [Sample.mute_on_send] false) "/x" "[1]"
           [VFloat 4607182418800017408] (or_introl eq_refl) eq_refl).
Defined.

(** C5 as stated does not hold: with arbitrary commands disallowed, a
    message on a topic under [<namespace>/send] that a command is mapped
    to still sends that command's packet, and the datagram leaves; and at
    a log level below 0 the error of the gate is not printed. *)
Lemma gate_lets_mapped_command_through :
  (Relay.OscDisallowArbritaryCommand (Sample.test_relay [Sample.say_on] true) = true /\
   GoStrings.HasPrefix "osc/test/send/x" "osc/test/send" = true /\
   Observe.sent (fst (Engine.MqttOnEvent Sample.studio
                        (Sample.test_relay [Sample.say_on] true)
                        (mqtt.mkMessage "osc/test/send/x" EmptyString))) =
     [osc.PMessage (osc.mkMessage "/ch/1/mute" [VString "on"])] /\
   Observe.socket_ops (fst (Engine.MqttOnEvent Sample.studio
                              (Sample.test_relay [Sample.say_on] true)
                              (mqtt.mkMessage "osc/test/send/x" EmptyString))) =
     [DialUDP (mkUDPAddr "10.0.0.3" 2223);
      Write (Dialed (mkUDPAddr "10.0.0.3" 2223)) "osc:/ch/1/mute";
      Close (Dialed (mkUDPAddr "10.0.0.3" 2223))]) /\
  (Relay.OscDisallowArbritaryCommand (Sample.silent_relay [] true) = true /\
   Engine.MqttOnEvent Sample.studio (Sample.silent_relay [] true)
     (mqtt.mkMessage "osc/test/send/x" EmptyString) = ([], Return)).
Proof. repeat split; reflexivity. Qed.

(** C5, amended.  With arbitrary commands disallowed, a message on a
    topic that starts with [<namespace>/send] or on
    [<namespace>/bundle/send] gets no packet from the generic branches:
    the packets sent are those of the commands mapped to its topic, and
    when the loop over the commands completes the error of the gate goes
    to the log, which prints it when the level of the relay is 0 or more.
    When no command is mapped to the topic nothing is sent and that error
    is the only one. *)
Theorem arbitrary_command_gate `{GoOsc} (w : World) (r : Runtime) (message : mqtt.Message) :
  Relay.OscDisallowArbritaryCommand r = true ->
  GoStrings.HasPrefix (mqtt.Topic message) (Relay.MqttTopic r +:+ "/send") = true \/
    mqtt.Topic message = Relay.MqttTopic r +:+ "/bundle/send" ->
  Observe.sent (fst (Engine.MqttOnEvent w r message)) =
    Observe.sent (fst (Engine.commands_loop w r (Relay.Commands r) message)) /\
  (snd (Engine.commands_loop w r (Relay.Commands r) message) = Next ->
   Observe.errors (fst (Engine.MqttOnEvent w r message)) =
     Observe.errors (fst (Engine.commands_loop w r (Relay.Commands r) message)) ++
     if bool_decide (ErrorLog <= Relay.LogLevel r)
     then ["Arbritary commands are disabled on this relay."] else []) /\
  (Forall (fun cmd => Engine.command_matches r cmd (mqtt.Topic message) = false)
          (Relay.Commands r) ->
   Observe.sent (fst (Engine.MqttOnEvent w r message)) = [] /\
   Observe.errors (fst (Engine.MqttOnEvent w r message)) =
     if bool_decide (ErrorLog <= Relay.LogLevel r)
     then ["Arbritary commands are disabled on this relay."] else []).
Proof.
  intros Hgate Htopic.
  assert (Hgen : Engine.generic_routing w r message =
                 (Engine.Log r ErrorLog "Arbritary commands are disabled on this relay.",
                  Return)).
  { unfold Engine.generic_routing, Engine.standard_send, Engine.bundle_send.
    rewrite Hgate.
    destruct Htopic as [->| ->]; [done|].
    destruct (GoStrings.HasPrefix _ _); [done|].
    by rewrite bool_decide_eq_true_2. }
  assert (Hall : Observe.sent (fst (Engine.MqttOnEvent w r message)) =
      Observe.sent (fst (Engine.commands_loop w r (Relay.Commands r) message)) /\
    (snd (Engine.commands_loop w r (Relay.Commands r) message) = Next ->
     Observe.errors (fst (Engine.MqttOnEvent w r message)) =
       Observe.errors (fst (Engine.commands_loop w r (Relay.Commands r) message)) ++
       if bool_decide (ErrorLog <= Relay.LogLevel r)
       then ["Arbritary commands are disabled on this relay."] else [])).
  { unfold Engine.MqttOnEvent. rewrite Hgen.
    destruct (Engine.commands_loop w r _ _) as [tr1 []]; cbn [fst snd];
      rewrite !sent_app, ?sent_Log, ?app_nil_r; (split; [done|]); [|done..].
    intros _. by rewrite !errors_app, errors_Log_ReceiveLog, errors_Log_ErrorLog. }
  destruct Hall as [Hs He]. split; [done|]. split; [done|].
  intros Hnone. apply (commands_loop_no_match w) in Hnone.
  rewrite Hs, He; by rewrite Hnone.
Qed.

Lemma arbitrary_command_gate_witness :
  Observe.sent (fst (Engine.MqttOnEvent Sample.world (Sample.test_relay [Sample.mute] true)
                       (mqtt.mkMessage "osc/test/send/ch/1/mute" "[1]"))) = [] /\
  Observe.errors (fst (Engine.MqttOnEvent Sample.world (Sample.test_relay [Sample.mute] true)
                         (mqtt.mkMessage "osc/test/send/ch/1/mute" "[1]"))) =
    ["Arbritary commands are disabled on this relay."].
Proof.
  refine (proj2 (proj2 (arbitrary_command_gate Sample.world
            (Sample.test_relay [Sample.mute] true)
            (mqtt.mkMessage "osc/test/send/ch/1/mute" "[1]") eq_refl (or_introl eq_refl))) _).
  repeat constructor.
Defined.

(** C3: the code at the failing input.  Two commands are mapped to the
    same topic; the first accepts payloads, the second does not and has
    default arguments.  On a payload that is not JSON the handler logs the
    decode error and returns: the second command sends nothing. *)
Theorem decode_failure_aborts_handler :
  Engine.command_matches (Sample.test_relay [Sample.mute; Sample.mute_fixed] false)
    Sample.mute_fixed "osc/test/mute" = true /\
  Engine.MqttOnEvent Sample.world
    (Sample.test_relay [Sample.mute; Sample.mute_fixed] false)
    (mqtt.mkMessage "osc/test/mute" "x") =
  ([Println ReceiveLog "<- [MQTT] %s: %s\n"; Println ErrorLog "Json Error: %s"], Return) /\
  Observe.sent (fst (Engine.MqttOnEvent Sample.world
    (Sample.test_relay [Sample.mute; Sample.mute_fixed] false)
    (mqtt.mkMessage "osc/test/mute" "x"))) = [].
Proof. repeat split; reflexivity. Qed.

(** Runs, built from their first step. *)
Lemma run_first `{GoOsc} (w : World) (p0 p1 : Engine.process) tr1 tr st :
  Engine.step w p0 tr1 (Engine.Running p1) -> Engine.run w p1 tr st ->
  Engine.run w p0 (tr1 ++ tr) st.
Proof.
  intros Hstep Hrun. induction Hrun as [|tr p tr' st Hrun IH Hs].
  - rewrite app_nil_r. rewrite <- (app_nil_l tr1). eapply Engine.run_step; [constructor | done].
  - rewrite app_assoc. by eapply Engine.run_step.
Qed.

Lemma run_last `{GoOsc} (w : World) (p0 : Engine.process) tr st :
  Engine.step w p0 tr st -> Engine.run w p0 tr st.
Proof.
  intros Hstep. rewrite <- (app_nil_l tr). eapply Engine.run_step; [constructor | done].
Qed.

Lemma step_mqtt_on `{GoOsc} (w : World) (p : Engine.process) message :
  Engine.subscribed (Engine.pc p) = true ->
  snd (Engine.MqttOnEvent w (Engine.rt p) message) <> Panic ->
  Engine.step w p (fst (Engine.MqttOnEvent w (Engine.rt p) message)) (Engine.Running p).
Proof.
  intros Hs Hf. pose proof (Engine.step_mqtt w p message Hs) as Hstep.
  by destruct (snd (Engine.MqttOnEvent w (Engine.rt p) message)).
Qed.

(** C7: the code at the failing input.  A relay with a bind address,
    hence a server, and a message on [<namespace>/send/x] that the broker
    delivers while [Start] is still running.  Delivered after the first
    subscription and before [Start] sets [r.OscServer], the message is sent
    through a dialed connection, not through the socket that the server
    then binds; delivered after [Start] has set [r.OscServer] and before
    the server goroutine has bound the socket, it makes [OscSend] call
    [WriteTo] on a nil connection and the relay ends in a panic. *)
Theorem send_during_Start_misses_the_bound_socket :
  (exists tr p,
     Engine.run Sample.studio (Engine.boot Sample.two_way) tr (Engine.Running p) /\
     Engine.pc p = Engine.Returned /\
     OscServer (Engine.rt p) = Some (osc.mkServer "10.0.0.9:2223") /\
     OscServerConn (Engine.rt p) = Some (Bound "10.0.0.9:2223") /\
     Observe.sent tr = [osc.PMessage (osc.mkMessage "/x" [])] /\
     Observe.socket_ops tr =
       [DialUDP (mkUDPAddr "10.0.0.3" 2223);
        Write (Dialed (mkUDPAddr "10.0.0.3" 2223)) "osc:/x";
        Close (Dialed (mkUDPAddr "10.0.0.3" 2223));
        ListenPacket "10.0.0.9:2223"]) /\
  (exists tr,
     Engine.run Sample.studio (Engine.boot Sample.two_way) tr Engine.Crashed /\
     Observe.sent tr = [osc.PMessage (osc.mkMessage "/x" [])] /\
     Observe.socket_ops tr = []).
Proof.
  split.
  - eexists _, _. split.
    { eapply run_first; [by apply Engine.step_connect|].
      eapply run_first; [by eapply (Engine.step_subscribe _ _ 0 _ true)|].
      eapply run_first;
        [by apply (step_mqtt_on _ _ (mqtt.mkMessage "osc/test/send/x" EmptyString))|].
      eapply run_first; [by eapply (Engine.step_subscribe _ _ 1 _ true)|].
      eapply run_first; [by eapply (Engine.step_subscribe _ _ 2 _ true)|].
      eapply run_first; [by apply Engine.step_subscribed|].
      eapply run_first; [by apply Engine.step_client|].
      eapply run_first; [by apply Engine.step_server|].
      eapply run_first; [by eapply Engine.step_listen|].
      eapply run_first; [by apply Engine.step_tickers|].
      apply run_last. by apply Engine.step_status. }
    split_and!; reflexivity.
  - eexists. split.
    { eapply run_first; [by apply Engine.step_connect|].
      eapply run_first; [by eapply (Engine.step_subscribe _ _ 0 _ true)|].
      eapply run_first; [by eapply (Engine.step_subscribe _ _ 1 _ true)|].
      eapply run_first; [by eapply (Engine.step_subscribe _ _ 2 _ true)|].
      eapply run_first; [by apply Engine.step_subscribed|].
      eapply run_first; [by apply Engine.step_client|].
      eapply run_first; [by apply Engine.step_server|].
      apply run_last.
      exact (Engine.step_mqtt _ (Engine.mkProcess _ Engine.AtTickers)
               (mqtt.mkMessage "osc/test/send/x" EmptyString) eq_refl). }
    split; reflexivity.
Qed.

(** ** Configuration validation *)

Section ConfigProofs.
Import Config ConfigSpec.

Lemma default_bind_port_fields r :
  let r' := default_bind_port r in
  Relay.MqttHost r' = Relay.MqttHost r /\ Relay.MqttPort r' = Relay.MqttPort r /\
  Relay.MqttTopic r' = Relay.MqttTopic r /\ Relay.OscHost r' = Relay.OscHost r /\
  Relay.OscBindAddr r' = Relay.OscBindAddr r /\ Relay.OscPort r' = Relay.OscPort r /\
  Relay.OscBindPort r' = bind_port r.
Proof.
  unfold default_bind_port, bind_port.
  destruct (bool_decide _ && bool_decide _); cbn; tauto.
Qed.

Lemma check_against_None i relay b rs :
  check_against i relay b rs = None <->
  forall k r2, rs !! k = Some r2 -> (b + k)%nat <> i ->
    Relay.MqttTopic relay <> Relay.MqttTopic r2 /\
    Relay.OscBindPort relay <> Relay.OscBindPort r2.
Proof.
  revert b. induction rs as [|r2 rs IH]; intros b; cbn.
  - split; [intros _ k r2 Hk; by rewrite lookup_nil in Hk | done].
  - assert (Hhd : forall P : nat -> Relay.t -> Prop,
              (forall k r3, (r2 :: rs) !! k = Some r3 -> P k r3) <->
              P 0%nat r2 /\ forall k r3, rs !! k = Some r3 -> P (S k) r3).
    { intros P. split.
      - intros HP. split; [by apply HP | intros k r3 Hk; by apply HP].
      - intros [H0 HS] [|k] r3 Hk; cbn in Hk; [by simplify_eq | by apply HS]. }
    rewrite (Hhd (fun k r3 => (b + k)%nat <> i -> _ /\ _)).
    rewrite Nat.add_0_r.
    setoid_rewrite <- Nat.add_succ_comm.
    clear Hhd. repeat case_bool_decide; rewrite ?IH; intuition congruence.
Qed.

Lemma check_against_Some i relay b rs e :
  check_against i relay b rs = Some e ->
  exists k r2, rs !! k = Some r2 /\ (b + k)%nat <> i /\
    ((e = DuplicateMqttTopic i /\ Relay.MqttTopic relay = Relay.MqttTopic r2) \/
     (e = DuplicateOscBindPort i /\ Relay.OscBindPort relay = Relay.OscBindPort r2)).
Proof.
  revert b. induction rs as [|r2 rs IH]; intros b; cbn; [done|].
  repeat case_bool_decide; intros He.
  - simplify_eq. exists 0%nat, r2. rewrite Nat.add_0_r. naive_solver.
  - simplify_eq. exists 0%nat, r2. rewrite Nat.add_0_r. naive_solver.
  - destruct (IH _ He) as (k & r3 & ? & ? & ?).
    exists (S k), r3. split_and!; [done | lia | done].
  - destruct (IH _ He) as (k & r3 & ? & ? & ?).
    exists (S k), r3. split_and!; [done | lia | done].
Qed.

Lemma check_relays_None all i rs :
  check_relays all i rs = None <->
  forall k r, rs !! k = Some r ->
    relay_ok r /\ check_against (i + k) r 0 all = None.
Proof.
  revert i. induction rs as [|r rs IH]; intros i; cbn.
  - split; [intros _ k r Hk; by rewrite lookup_nil in Hk | done].
  - assert (Hhd : forall P : nat -> Relay.t -> Prop,
              (forall k r3, (r :: rs) !! k = Some r3 -> P k r3) <->
              P 0%nat r /\ forall k r3, rs !! k = Some r3 -> P (S k) r3).
    { intros P. split.
      - intros HP. split; [by apply HP | intros k r3 Hk; by apply HP].
      - intros [H0 HS] [|k] r3 Hk; cbn in Hk; [by simplify_eq | by apply HS]. }
    rewrite (Hhd (fun k r3 => relay_ok r3 /\ check_against (i + k) r3 0 all = None)).
    rewrite Nat.add_0_r. setoid_rewrite <- Nat.add_succ_comm. clear Hhd.
    unfold relay_ok at 1.
    destruct (bool_decide_reflect (Relay.MqttHost r = EmptyString)) as [E1|E1];
      [cbn; intuition congruence|].
    destruct (bool_decide_reflect (Relay.MqttPort r = 0)) as [E2|E2];
      [cbn; intuition congruence|].
    destruct (bool_decide_reflect (Relay.MqttTopic r = EmptyString)) as [E3|E3];
      [cbn; intuition congruence|].
    destruct (bool_decide_reflect (Relay.OscBindAddr r = EmptyString)) as [E4|E4];
      destruct (bool_decide_reflect (Relay.OscHost r = EmptyString)) as [E5|E5];
      cbn; try (intuition congruence);
      destruct (check_against i r 0 all) eqn:E6; rewrite ?IH; intuition congruence.
Qed.

Lemma check_relays_Some all i rs e :
  check_relays all i rs = Some e ->
  exists k r, rs !! k = Some r /\
    ((e = MqttHostPortRequired (i + k) /\
      (Relay.MqttHost r = EmptyString \/ Relay.MqttPort r = 0)) \/
     (e = MqttTopicRequired (i + k) /\ Relay.MqttTopic r = EmptyString) \/
     (e = BindAddrOrHostRequired (i + k) /\
      Relay.OscBindAddr r = EmptyString /\ Relay.OscHost r = EmptyString) \/
     check_against (i + k) r 0 all = Some e).
Proof.
  revert i. induction rs as [|r rs IH]; intros i; cbn; [done|].
  destruct (bool_decide (Relay.MqttHost r = EmptyString) ||
            bool_decide (Relay.MqttPort r = 0)) eqn:E1.
  { intros [= <-]. exists 0%nat, r. rewrite Nat.add_0_r. split; [done|]. left.
    apply orb_true_iff in E1 as [E1|E1]; apply bool_decide_eq_true in E1; auto. }
  destruct (bool_decide (Relay.MqttTopic r = EmptyString)) eqn:E2.
  { intros [= <-]. exists 0%nat, r. rewrite Nat.add_0_r. split; [done|].
    apply bool_decide_eq_true in E2. auto. }
  destruct (bool_decide (Relay.OscBindAddr r = EmptyString) &&
            bool_decide (Relay.OscHost r = EmptyString)) eqn:E3.
  { intros [= <-]. exists 0%nat, r. rewrite Nat.add_0_r. split; [done|].
    apply andb_true_iff in E3 as [E3 E4].
    apply bool_decide_eq_true in E3, E4. auto 6. }
  destruct (check_against i r 0 all) eqn:E4.
  { intros [= <-]. exists 0%nat, r. rewrite Nat.add_0_r. auto 6. }
  intros He. destruct (IH _ He) as (k & r3 & Hk & Hcase).
  exists (S k), r3. rewrite <- Nat.add_succ_comm. auto.
Qed.

Lemma ReadConfig_inl rs e : ReadConfig rs = inl e -> blames rs e.
Proof.
  unfold ReadConfig. case_bool_decide as Hlen.
  { intros [= <-]. cbn. by destruct rs. }
  destruct (check_relays _ 0 _) as [e'|] eqn:Hc; [|done].
  intros [= ->]. apply check_relays_Some in Hc as (k & r' & Hk & Hcase).
  cbn in Hcase. rewrite list_lookup_fmap in Hk.
  destruct (rs !! k) as [r|] eqn:Hr; [|done]. cbn in Hk. simplify_eq.
  destruct (default_bind_port_fields r) as (Hh & Hp & Ht & Ho & Hb & _ & Hbp).
  cbn in *. rewrite Hh, Hp, Ht, Ho, Hb in Hcase.
  destruct Hcase as [[-> ?]|[[-> ?]|[[-> ?]|Hca]]]; cbn; eauto.
  apply check_against_Some in Hca as (j & rj' & Hj & Hne & Hcase).
  rewrite list_lookup_fmap in Hj.
  destruct (rs !! j) as [rj|] eqn:Hrj; [|done]. cbn in Hj. simplify_eq.
  destruct (default_bind_port_fields rj) as (_ & _ & Htj & _ & _ & _ & Hbpj).
  cbn in *. rewrite Ht, Htj, Hbp, Hbpj in Hcase.
  destruct Hcase as [[-> ?]|[-> ?]]; cbn; exists j, r, rj; auto.
Qed.

Lemma blames_invalid rs e : blames rs e -> invalid rs.
Proof.
  unfold invalid. destruct e; cbn.
  - auto.
  - intros (r & Hr & H). right; left. exists r.
    split; [by eapply list_elem_of_lookup_2 | done].
  - intros (r & Hr & H). right; right; left. exists r.
    split; [by eapply list_elem_of_lookup_2 | done].
  - intros (r & Hr & H). right; right; right; left. exists r.
    split; [by eapply list_elem_of_lookup_2 | done].
  - intros (j & ri & rj & ? & ? & ? & ?). right; right; right; right.
    exists i, j. split; [done|]. exists ri, rj. auto.
  - intros (j & ri & rj & ? & ? & ? & ?). right; right; right; right.
    exists i, j. split; [done|]. exists ri, rj. auto.
Qed.

Lemma ReadConfig_inr rs rs' :
  ReadConfig rs = inr rs' -> rs' = default_bind_port <$> rs /\ ~ invalid rs.
Proof.
  unfold ReadConfig. case_bool_decide as Hlen; [done|].
  destruct (check_relays _ 0 _) as [e'|] eqn:Hc; [done|].
  intros [= <-]. split; [done|].
  rewrite check_relays_None in Hc.
  assert (Hat : forall k r, rs !! k = Some r ->
            relay_ok r /\
            forall j rj, rs !! j = Some rj -> j <> k ->
              Relay.MqttTopic r <> Relay.MqttTopic rj /\ bind_port r <> bind_port rj).
  { intros k r Hr. destruct (Hc k (default_bind_port r)) as [Hok Hca].
    { by rewrite list_lookup_fmap, Hr. }
    destruct (default_bind_port_fields r) as (Hh & Hp & Ht & Ho & Hb & _ & Hbp).
    cbn in *. split.
    { unfold relay_ok in *. by rewrite Hh, Hp, Ht, Ho, Hb in Hok. }
    intros j rj Hrj Hne. rewrite check_against_None in Hca.
    destruct (Hca j (default_bind_port rj)) as [H1 H2].
    { by rewrite list_lookup_fmap, Hrj. }
    { done. }
    destruct (default_bind_port_fields rj) as (_ & _ & Htj & _ & _ & _ & Hbpj).
    cbn in *. rewrite Ht, Htj in H1. by rewrite Hbp, Hbpj in H2. }
  intros [->|[(r & [k Hk]%list_elem_of_lookup_1 & Hbad)|[(r & [k Hk]%list_elem_of_lookup_1 & Hbad)|
          [(r & [k Hk]%list_elem_of_lookup_1 & Hbad)|(i & j & Hne & ri & rj & Hi & Hj & Hbad)]]]].
  - done.
  - destruct (Hat k r Hk) as [(? & ? & ? & ?) _]. tauto.
  - destruct (Hat k r Hk) as [(? & ? & ? & ?) _]. tauto.
  - destruct (Hat k r Hk) as [(? & ? & ? & ?) _]. tauto.
  - destruct (Hat i ri Hi) as [_ Hoth].
    destruct (Hoth j rj Hj) as [? ?]; [done|]. tauto.
Qed.



Lemma ReadConfig_valid rs :
  ~ invalid rs -> ReadConfig rs = inr (default_bind_port <$> rs).
Proof.
  intros Hv. destruct (ReadConfig rs) as [e|rs'] eqn:HR.
  - destruct Hv. eapply blames_invalid, ReadConfig_inl, HR.
  - by apply ReadConfig_inr in HR as [-> _].
Qed.



End ConfigProofs.






(** * Further properties of the code *)

(** ** Sending *)

(** The socket operations and the result of [OscSend], case by case. *)
Lemma OscSend_outcome `{GoOsc} (w : World) (r : Runtime) (p : osc.Packet) :
  match net_ResolveUDPAddr w (Relay.OscHost r) (Relay.OscPort r),
        osc_MarshalBinary w p with
  | Some addr, Some data =>
      match OscServer r, OscServerConn r with
      | Some _, Some c =>
          Observe.socket_ops (fst (Engine.OscSend w r (Some p))) = [WriteTo c data addr] /\
          snd (Engine.OscSend w r (Some p)) =
            (if conn_WriteTo_ok w c data addr then SendNil else SendError)
      | Some _, None =>
          Observe.socket_ops (fst (Engine.OscSend w r (Some p))) = [] /\
          snd (Engine.OscSend w r (Some p)) = SendPanic
      | None, _ =>
          if net_DialUDP_ok w addr
          then Observe.socket_ops (fst (Engine.OscSend w r (Some p))) =
                 [DialUDP addr; Write (Dialed addr) data; Close (Dialed addr)] /\
               snd (Engine.OscSend w r (Some p)) = SendNil
          else Observe.socket_ops (fst (Engine.OscSend w r (Some p))) = [] /\
               snd (Engine.OscSend w r (Some p)) = SendError
      end
  | _, _ =>
      Observe.socket_ops (fst (Engine.OscSend w r (Some p))) = [] /\
      snd (Engine.OscSend w r (Some p)) = SendError
  end.
Proof.
  unfold Engine.OscSend.
  match goal with |- context [OscSendCall p :: ?l] =>
    set (lg := l); assert (Hlg : Observe.socket_ops lg = [])
      by (subst lg; destruct p; by rewrite ?socket_ops_Log) end.
  match goal with |- context [if bool_decide ?P then ?a else ?b] =>
    set (dbg := if bool_decide P then a else b);
    assert (Hdbg : Observe.socket_ops dbg = [])
      by (subst dbg; case_bool_decide; by rewrite ?socket_ops_Log) end.
  clearbody lg dbg.
  assert (Hentry : forall l,
    Observe.socket_ops ((OscSendCall p :: lg) ++ dbg ++ l) = Observe.socket_ops l).
  { intros l. rewrite <- app_comm_cons.
    change (Observe.socket_ops (lg ++ dbg ++ l) = Observe.socket_ops l).
    by rewrite !socket_ops_app, Hlg, Hdbg. }
  assert (Hentry0 : Observe.socket_ops ((OscSendCall p :: lg) ++ dbg) = []).
  { rewrite <- (app_nil_r dbg). by rewrite Hentry. }
  assert (Hentry1 : Observe.socket_ops (OscSendCall p :: lg) = []) by exact Hlg.
  destruct (net_ResolveUDPAddr _ _ _) as [addr|]; [|done].
  destruct (osc_MarshalBinary _ _) as [data|]; [|done].
  destruct (OscServer r) as [srv|].
  - destruct (OscServerConn r) as [c|]; cbn [fst snd]; [|done].
    by rewrite Hentry.
  - destruct (net_DialUDP_ok _ _); cbn [fst snd]; [|done]. by rewrite Hentry.
Qed.

(** X1.  Without a server [OscSend] never panics; it returns an error
    exactly when the peer does not resolve, the packet does not encode or
    the dial fails, and otherwise returns nil after a dial to the resolved
    address, one write of the encoded packet and the close. *)
Theorem OscSend_without_server `{GoOsc} (w : World) (r : Runtime) (p : osc.Packet) :
  OscServer r = None ->
  snd (Engine.OscSend w r (Some p)) <> SendPanic /\
  (snd (Engine.OscSend w r (Some p)) = SendError <->
   net_ResolveUDPAddr w (Relay.OscHost r) (Relay.OscPort r) = None \/
   osc_MarshalBinary w p = None \/
   exists addr, net_ResolveUDPAddr w (Relay.OscHost r) (Relay.OscPort r) = Some addr /\
                net_DialUDP_ok w addr = false) /\
  (snd (Engine.OscSend w r (Some p)) = SendNil ->
   exists addr data,
     net_ResolveUDPAddr w (Relay.OscHost r) (Relay.OscPort r) = Some addr /\
     osc_MarshalBinary w p = Some data /\
     Observe.socket_ops (fst (Engine.OscSend w r (Some p))) =
       [DialUDP addr; Write (Dialed addr) data; Close (Dialed addr)]).
Proof.
  intros Hnone. pose proof (OscSend_outcome w r p) as Ho. rewrite Hnone in Ho.
  destruct (net_ResolveUDPAddr _ _ _) as [addr|] eqn:Hr;
    [destruct (osc_MarshalBinary _ _) as [data|] eqn:Hm;
     [destruct (net_DialUDP_ok w addr) eqn:Hd|]|];
    destruct Ho as [Hops Hres]; rewrite Hres.
  - split; [done|]. split.
    + split; [done|]. intros [?|[?|(addr' & [= <-] & ?)]]; congruence.
    + intros _. by exists addr, data.
  - split; [done|]. split; [|done]. split; [|done]. intros _. right; right. by exists addr.
  - split; [done|]. split; [|done]. split; [|done]. auto.
  - split; [done|]. split; [|done]. split; [|done]. auto.
Qed.

Lemma OscSend_without_server_witness :
  snd (Engine.OscSend Sample.world (Engine.Start Sample.one_way)
         (Some (osc.PMessage (osc.mkMessage "/x" [])))) <> SendPanic.
Proof.
  exact (proj1 (OscSend_without_server Sample.world (Engine.Start Sample.one_way)
                  (osc.PMessage (osc.mkMessage "/x" [])) eq_refl)).
Defined.

(** X2.  With a server whose socket is bound [OscSend] never dials: it
    returns nil exactly when the peer resolves, the packet encodes and the
    write on the bound socket succeeds, and its only socket operation, when
    the peer resolves and the packet encodes, is that write, of the encoded
    packet to the resolved address. *)
Theorem OscSend_with_server `{GoOsc} (w : World) (r : Runtime) (srv : osc.Server)
    (c : conn) (p : osc.Packet) :
  OscServer r = Some srv -> OscServerConn r = Some c ->
  snd (Engine.OscSend w r (Some p)) <> SendPanic /\
  (snd (Engine.OscSend w r (Some p)) = SendNil <->
   exists addr data,
     net_ResolveUDPAddr w (Relay.OscHost r) (Relay.OscPort r) = Some addr /\
     osc_MarshalBinary w p = Some data /\
     conn_WriteTo_ok w c data addr = true) /\
  (forall addr data,
     net_ResolveUDPAddr w (Relay.OscHost r) (Relay.OscPort r) = Some addr ->
     osc_MarshalBinary w p = Some data ->
     Observe.socket_ops (fst (Engine.OscSend w r (Some p))) = [WriteTo c data addr]).
Proof.
  intros Hsrv Hc. pose proof (OscSend_outcome w r p) as Ho. rewrite Hsrv, Hc in Ho.
  destruct (net_ResolveUDPAddr _ _ _) as [addr|] eqn:Hr;
    [destruct (osc_MarshalBinary _ _) as [data|] eqn:Hm|];
    destruct Ho as [Hops Hres]; rewrite Hres.
  - split; [by destruct (conn_WriteTo_ok _ _ _ _)|]. split.
    + split.
      * intros Hok. exists addr, data. split_and!; [done..|].
        by destruct (conn_WriteTo_ok _ _ _ _).
      * intros (addr' & data' & [= <-] & [= <-] & ->). done.
    + by intros ? ? [= <-] [= <-].
  - split; [done|]. split; [|done]. split; [done|].
    intros (? & ? & ? & ? & ?). congruence.
  - split; [done|]. split; [|done]. split; [done|].
    intros (? & ? & ? & ? & ?). congruence.
Qed.

Lemma OscSend_with_server_witness :
  snd (Engine.OscSend Sample.world
         (Engine.set_OscServerConn (Bound "10.0.0.9:2223") (Engine.Start Sample.two_way))
         (Some (osc.PMessage (osc.mkMessage "/x" [])))) <> SendPanic.
Proof.
  exact (proj1 (OscSend_with_server Sample.world
                  (Engine.set_OscServerConn (Bound "10.0.0.9:2223") (Engine.Start Sample.two_way))
                  (osc.mkServer "10.0.0.9:2223") (Bound "10.0.0.9:2223")
                  (osc.PMessage (osc.mkMessage "/x" [])) eq_refl eq_refl)).
Defined.

(** X3.  A packet whose peer does not resolve or that does not encode
    touches no socket and is reported as an error, with or without a
    server; and a send between [Start] and the binding of the server's
    socket panics exactly when the peer resolves and the packet encodes. *)
Theorem OscSend_early_exits `{GoOsc} (w : World) (r : Runtime) (p : osc.Packet) :
  (net_ResolveUDPAddr w (Relay.OscHost r) (Relay.OscPort r) = None \/
   osc_MarshalBinary w p = None ->
   Observe.socket_ops (fst (Engine.OscSend w r (Some p))) = [] /\
   snd (Engine.OscSend w r (Some p)) = SendError) /\
  (is_Some (OscServer r) -> OscServerConn r = None ->
   Observe.socket_ops (fst (Engine.OscSend w r (Some p))) = [] /\
   (snd (Engine.OscSend w r (Some p)) = SendPanic <->
    is_Some (net_ResolveUDPAddr w (Relay.OscHost r) (Relay.OscPort r)) /\
    is_Some (osc_MarshalBinary w p))).
Proof.
  pose proof (OscSend_outcome w r p) as Ho. split.
  - intros Hfail.
    destruct (net_ResolveUDPAddr _ _ _) as [addr|]; [|done].
    destruct (osc_MarshalBinary _ _) as [data|]; [|done].
    by destruct Hfail.
  - intros [srv Hsrv] Hc. rewrite Hsrv, Hc in Ho.
    destruct (net_ResolveUDPAddr _ _ _) as [addr|];
      [destruct (osc_MarshalBinary _ _) as [data|]|];
      destruct Ho as [Hops Hres]; rewrite Hres; (split; [done|]).
    + split; [by split|done].
    + split; [done|]. by intros [_ [? ?]].
    + split; [done|]. by intros [[? ?] _].
Qed.

Lemma OscSend_early_exits_witness :
  Observe.socket_ops
    (fst (Engine.OscSend Sample.world (Engine.Start Sample.two_way)
            (Some (osc.PMessage (osc.mkMessage "/x" []))))) = [] /\
  snd (Engine.OscSend Sample.world (Engine.Start Sample.two_way)
         (Some (osc.PMessage (osc.mkMessage "/x" [])))) = SendPanic.
Proof.
  destruct (proj2 (OscSend_early_exits Sample.world (Engine.Start Sample.two_way)
                     (osc.PMessage (osc.mkMessage "/x" [])))
              (ex_intro _ _ eq_refl) eq_refl) as [Hops Hp].
  split; [exact Hops|]. apply Hp. split; eexists; reflexivity.
Defined.

(** ** Routing *)

Section RoutingProofs.
Context `{GoOsc}.
Import Engine Observe.

Lemma HasPrefix_common (a b c : string) :
  GoStrings.HasPrefix (a +:+ b) (a +:+ c) = GoStrings.HasPrefix b c.
Proof.
  unfold GoStrings.HasPrefix. induction a as [|ch a IH]; [done|].
  simpl. rewrite <- IH. f_equal.
  - apply bool_decide_ext. lia.
  - apply bool_decide_ext. split; [by intros [= ->] | by intros ->].
Qed.

Lemma published_OscSend w r p : published (fst (OscSend w r p)) = [].
Proof.
  destruct p as [p|]; [|done]. unfold OscSend.
  match goal with |- context [OscSendCall p :: ?l] =>
    set (lg := l); assert (Hlg : published lg = [])
      by (subst lg; destruct p; by rewrite ?published_Log) end.
  match goal with |- context [if bool_decide ?P then ?a else ?b] =>
    set (dbg := if bool_decide P then a else b); assert (Hdbg : published dbg = [])
      by (subst dbg; case_bool_decide; by rewrite ?published_Log) end.
  clearbody lg dbg.
  assert (Hentry : published (OscSendCall p :: lg) = []) by exact Hlg.
  destruct (net_ResolveUDPAddr _ _ _) as [addr|]; [|done].
  destruct (osc_MarshalBinary _ _) as [data|]; [|done].
  destruct (OscServer r); [destruct (OscServerConn r)|destruct (net_DialUDP_ok _ _)];
    cbn [fst]; by rewrite ?published_app, Hentry, Hdbg.
Qed.

Lemma published_send_and_log w r p : published (fst (send_and_log w r p)) = [].
Proof.
  unfold send_and_log. pose proof (published_OscSend w r (Some p)) as Hs.
  destruct (OscSend w r (Some p)) as [tr []]; cbn [fst] in *;
    by rewrite ?published_app, ?published_Log, ?Hs.
Qed.

Lemma published_command_action w r cmd message :
  published (fst (command_action w r cmd message)) = [].
Proof.
  unfold command_action.
  destruct (negb _ && negb _); [|apply published_send_and_log].
  destruct (json_Unmarshal_arguments _ _); [apply published_send_and_log|].
  apply published_Log.
Qed.

Lemma published_commands_loop w r cmds message :
  published (fst (commands_loop w r cmds message)) = [].
Proof.
  induction cmds as [|cmd cmds IH]; [done|].
  cbn [commands_loop]. destruct (command_matches _ _ _); [|done].
  pose proof (published_command_action w r cmd message) as Ha.
  destruct (command_action w r cmd message) as [tr []]; [|done..].
  destruct (commands_loop w r cmds message) as [tr' f']. cbn [fst] in *.
  by rewrite published_app, Ha, IH.
Qed.

Lemma published_standard_send w r message :
  published (fst (standard_send w r message)) = [].
Proof.
  unfold standard_send. destruct (Relay.OscDisallowArbritaryCommand r);
    [apply published_Log|].
  destruct (if negb _ then _ else _); [apply published_send_and_log | apply published_Log].
Qed.

Lemma published_bundle_send w r message :
  published (fst (bundle_send w r message)) = [].
Proof.
  unfold bundle_send. destruct (Relay.OscDisallowArbritaryCommand r);
    [apply published_Log|].
  destruct (json_Unmarshal_OscBundle _ _); [|apply published_Log].
  destruct (Codec.MakeOSCBundle _); [apply published_send_and_log | done].
Qed.

Lemma sent_SendStatus w r : sent (SendStatus w r) = [].
Proof.
  unfold SendStatus. destruct (Relay.MqttDisableConfigSend r); [done|].
  destruct (json_Marshal_Relay _ _); [done|]. by rewrite sent_app, sent_Log.
Qed.

Lemma sent_commands_loop_no_match w (r : Runtime) cmds message :
  Forall (fun cmd => command_matches r cmd (mqtt.Topic message) = false) cmds ->
  sent (fst (commands_loop w r cmds message)) = [].
Proof. intros Hn. by rewrite (commands_loop_no_match w r cmds message Hn). Qed.

(** The three topics of the generic branches exclude each other. *)
Lemma status_check_not_send (ns : string) :
  GoStrings.HasPrefix (ns +:+ "/status/check") (ns +:+ "/send") = false /\
  ns +:+ "/status/check" <> ns +:+ "/bundle/send".
Proof.
  split; [by rewrite HasPrefix_common|]. by intros ?%String.app_inj.
Qed.

Lemma bundle_send_not_send (ns : string) :
  GoStrings.HasPrefix (ns +:+ "/bundle/send") (ns +:+ "/send") = false.
Proof. by rewrite HasPrefix_common. Qed.

End RoutingProofs.

(** X4.  A message on [<namespace>/status/check] republishes the status:
    when the loop over the commands completes, the handler publishes what
    [SendStatus] publishes (the same function [Start] calls), whatever the
    payload, and the generic branches send no packet. *)
Theorem status_check_republishes `{GoOsc} (w : World) (r : Runtime) (payload : string) :
  snd (Engine.commands_loop w r (Relay.Commands r)
         (mqtt.mkMessage (Relay.MqttTopic r +:+ "/status/check") payload)) = Next ->
  Observe.published (fst (Engine.MqttOnEvent w r
    (mqtt.mkMessage (Relay.MqttTopic r +:+ "/status/check") payload))) =
    Observe.published (Engine.SendStatus w r) /\
  Observe.sent (fst (Engine.MqttOnEvent w r
    (mqtt.mkMessage (Relay.MqttTopic r +:+ "/status/check") payload))) =
    Observe.sent (fst (Engine.commands_loop w r (Relay.Commands r)
      (mqtt.mkMessage (Relay.MqttTopic r +:+ "/status/check") payload))) /\
  snd (Engine.MqttOnEvent w r
    (mqtt.mkMessage (Relay.MqttTopic r +:+ "/status/check") payload)) = Next.
Proof.
  intros Hnext. unfold Engine.MqttOnEvent.
  pose proof (published_commands_loop w r (Relay.Commands r)
    (mqtt.mkMessage (Relay.MqttTopic r +:+ "/status/check") payload)) as Hp.
  destruct (Engine.commands_loop w r _ _) as [tr1 f1]. cbn [fst snd] in *. subst f1.
  unfold Engine.generic_routing. cbn [mqtt.Topic].
  destruct (status_check_not_send (Relay.MqttTopic r)) as [-> Hne].
  rewrite bool_decide_eq_false_2 by done. rewrite bool_decide_eq_true_2 by done.
  cbn [fst snd].
  rewrite !published_app, !sent_app, published_Log, sent_Log, Hp, sent_SendStatus.
  by rewrite app_nil_r.
Qed.

Lemma status_check_republishes_witness :
  Observe.published (fst (Engine.MqttOnEvent Sample.world (Sample.test_relay [Sample.mute] false)
    (mqtt.mkMessage "osc/test/status/check" "anything"))) =
  [("osc/test/status", true, Some "{}")].
Proof.
  exact (proj1 (status_check_republishes Sample.world
                  (Sample.test_relay [Sample.mute] false) "anything" eq_refl)).
Defined.

(** X5.  A message on [<namespace>/bundle/send] is not taken for a
    generic send: once the loop over the commands completes and arbitrary
    commands are allowed, the payload (also an empty one) goes to the JSON
    decoder of bundles.  A decoded bundle is converted by [MakeOSCBundle]
    and handed to [OscSend] as one bundle packet; when the decoded bundle
    holds a nil pointer the conversion panics and nothing more is sent or
    logged; a payload that does not decode sends nothing more, passes the
    error to the log and returns. *)
Theorem bundle_send_routing `{GoOsc} (w : World) (r : Runtime) (payload : string)
    (tr : list event) :
  Engine.commands_loop w r (Relay.Commands r)
    (mqtt.mkMessage (Relay.MqttTopic r +:+ "/bundle/send") payload) = (tr, Next) ->
  Relay.OscDisallowArbritaryCommand r = false ->
  match json_Unmarshal_OscBundle w payload with
  | Some bundle =>
      (is_Some (Codec.MakeOSCBundle bundle) <-> CodecSpec.whole bundle) /\
      match Codec.MakeOSCBundle bundle with
      | Some b =>
          Observe.sent (fst (Engine.MqttOnEvent w r
            (mqtt.mkMessage (Relay.MqttTopic r +:+ "/bundle/send") payload))) =
          Observe.sent tr ++ [osc.PBundle b]
      | None =>
          Engine.MqttOnEvent w r
            (mqtt.mkMessage (Relay.MqttTopic r +:+ "/bundle/send") payload) =
          (Engine.Log r ReceiveLog "<- [MQTT] %s: %s\n" ++ tr ++ [], Panic)
      end
  | None =>
      Engine.MqttOnEvent w r
        (mqtt.mkMessage (Relay.MqttTopic r +:+ "/bundle/send") payload) =
      (Engine.Log r ReceiveLog "<- [MQTT] %s: %s\n" ++ tr ++
         Engine.Log r ErrorLog "Json Error: %s", Return)
  end.
Proof.
  intros Hloop Hallow. unfold Engine.MqttOnEvent. rewrite Hloop.
  unfold Engine.generic_routing. cbn [mqtt.Topic].
  rewrite bundle_send_not_send, bool_decide_eq_true_2 by done.
  unfold Engine.bundle_send. rewrite Hallow. cbn [mqtt.Payload].
  destruct (json_Unmarshal_OscBundle w payload) as [bundle|]; [|done].
  split; [apply MakeOSCBundle_whole|].
  destruct (Codec.MakeOSCBundle bundle) as [b|]; [|done].
  pose proof (sent_send_and_log w r (osc.PBundle b)) as Hs.
  destruct (Engine.send_and_log w r _) as [tr2 f2]. cbn [fst] in *.
  by rewrite !sent_app, sent_Log, Hs.
Qed.

Lemma bundle_send_routing_witness :
  Observe.sent (fst (Engine.MqttOnEvent Sample.studio (Sample.test_relay [] false)
                       (mqtt.mkMessage "osc/test/bundle/send" Sample.json_one_message))) =
    [osc.PBundle (osc.mkBundle (NewTimetag (mkTime 0 0 EmptyString))
                               (Some [osc.mkMessage "/a" [VBool true]]) None)] /\
  Engine.MqttOnEvent Sample.studio (Sample.test_relay [] false)
    (mqtt.mkMessage "osc/test/bundle/send" Sample.json_null_message) =
    ([Println ReceiveLog "<- [MQTT] %s: %s\n"], Panic) /\
  Engine.MqttOnEvent Sample.studio (Sample.test_relay [] false)
    (mqtt.mkMessage "osc/test/bundle/send" EmptyString) =
    ([Println ReceiveLog "<- [MQTT] %s: %s\n"; Println ErrorLog "Json Error: %s"], Return).
Proof.
  split_and!.
  - exact (proj2 (bundle_send_routing Sample.studio (Sample.test_relay [] false)
                    Sample.json_one_message [] eq_refl eq_refl)).
  - exact (proj2 (bundle_send_routing Sample.studio (Sample.test_relay [] false)
                    Sample.json_null_message [] eq_refl eq_refl)).
  - exact (bundle_send_routing Sample.studio (Sample.test_relay [] false)
             EmptyString [] eq_refl eq_refl).
Defined.

(** X6.  The handler of broker messages publishes nothing on the broker
    except the status: its only publication, if any, is the retained one
    on [<namespace>/status], and only for a message on
    [<namespace>/status/check] of a relay that has not disabled it. *)
Theorem MqttOnEvent_publishes_only_status `{GoOsc} (w : World) (r : Runtime)
    (message : mqtt.Message) :
  Observe.published (fst (Engine.MqttOnEvent w r message)) = [] \/
  (mqtt.Topic message = Relay.MqttTopic r +:+ "/status/check" /\
   Relay.MqttDisableConfigSend r = false /\
   Observe.published (fst (Engine.MqttOnEvent w r message)) =
     [(Relay.MqttTopic r +:+ "/status", true, json_Marshal_Relay w r)]).
Proof.
  unfold Engine.MqttOnEvent.
  pose proof (published_commands_loop w r (Relay.Commands r) message) as Hl.
  destruct (Engine.commands_loop w r _ _) as [tr1 f1]. cbn [fst] in Hl.
  destruct f1; cbn [fst]; rewrite ?published_app, ?published_Log, ?Hl; auto.
  unfold Engine.generic_routing.
  destruct (GoStrings.HasPrefix _ _).
  { pose proof (published_standard_send w r message) as Hs.
    destruct (Engine.standard_send w r message) as [tr2 f2]. cbn [fst] in *.
    left. by rewrite !published_app, published_Log, Hl, Hs. }
  case_bool_decide as Hb.
  { pose proof (published_bundle_send w r message) as Hs.
    destruct (Engine.bundle_send w r message) as [tr2 f2]. cbn [fst] in *.
    left. by rewrite !published_app, published_Log, Hl, Hs. }
  case_bool_decide as Hs; cbn [fst];
    rewrite !published_app, published_Log, Hl; [|by left].
  unfold Engine.SendStatus. destruct (Relay.MqttDisableConfigSend r); [by left|].
  right. split; [done|]. split; [done|].
  destruct (json_Marshal_Relay w r); [done|].
  by rewrite published_app, published_Log.
Qed.

(** X7.  [Dispatch] never sends a packet and never touches a socket, so
    what arrives from the peer is not sent back to it; it publishes at most
    once, retained and on a topic under the relay's root. *)
Theorem Dispatch_only_publishes `{GoOsc} (w : World) (r : Runtime)
    (packet : option osc.Packet) :
  Observe.sent (Engine.Dispatch w r packet) = [] /\
  Observe.socket_ops (Engine.Dispatch w r packet) = [] /\
  (Observe.published (Engine.Dispatch w r packet) = [] \/
   exists suffix data,
     Observe.published (Engine.Dispatch w r packet) =
       [(Relay.MqttTopic r +:+ suffix, true, Some data)]).
Proof.
  split; [|split; [apply Dispatch_socket_ops|]].
  - destruct packet as [[m|b|k]|]; cbn [Engine.Dispatch];
      [| |apply sent_Log|done].
    + destruct (json_Marshal_arguments _ _); by rewrite !sent_app, !sent_Log.
    + destruct (json_Marshal_OscBundle _ _); by rewrite !sent_app, !sent_Log.
  - destruct packet as [[m|b|k]|]; cbn [Engine.Dispatch];
      [| |left; apply published_Log|by left].
    + destruct (json_Marshal_arguments _ _) as [data|];
        rewrite !published_app, !published_Log; [|by left].
      right. by exists ("/cmd" +:+ osc.Address m), data.
    + destruct (json_Marshal_OscBundle _ _) as [data|];
        rewrite !published_app, !published_Log; [|by left].
      right. by exists "/bundle", data.
Qed.

(** X9.  A bundle that has been to the wire form is published with nil
    for its empty slices: for the wire bundle that [MakeOSCBundle] makes of
    a bundle, [Dispatch] publishes on [<namespace>/bundle] the JSON
    encoding of that bundle with every empty slice of messages or of
    nested bundles replaced by nil ([null] where the bundle had [[]]). *)
Theorem bundle_echo `{GoOsc} `{!GoOscLaws} (w : World) (r : Runtime)
    (bundle : OscBundle) (b : osc.Bundle) :
  Codec.MakeOSCBundle bundle = Some b ->
  Observe.published (Engine.Dispatch w r (Some (osc.PBundle b))) =
  match json_Marshal_OscBundle w (CodecSpec.nil_for_empty bundle) with
  | Some data => [(Relay.MqttTopic r +:+ "/bundle", true, Some data)]
  | None => []
  end.
Proof.
  intros Hb. cbn [Engine.Dispatch]. rewrite (makeBundle_MakeOSCBundle bundle b Hb).
  destruct (json_Marshal_OscBundle w _);
    by rewrite !published_app, !published_Log.
Qed.

Lemma bundle_echo_witness :
  Observe.published
    (Engine.Dispatch Sample.studio (Sample.test_relay [] false)
       (Some (osc.PBundle (osc.mkBundle (NewTimetag (mkTime 0 0 EmptyString)) None None)))) =
  [("osc/test/bundle", true,
    Some (Sample.render_bundle (mkOscBundle (mkTime 0 0 EmptyString) None None)))] /\
  Sample.render_bundle (mkOscBundle (mkTime 0 0 EmptyString) None None) <>
  Sample.render_bundle Sample.empty_slices.
Proof.
  split; [|discriminate].
  exact (@bundle_echo Sample.ntp_osc ntp_osc_laws Sample.studio
           (Sample.test_relay [] false) Sample.empty_slices _ eq_refl).
Defined.

(** X10.  The handler sends packets only for its own topics: if it hands
    any packet to [OscSend], then some command is mapped to the topic, or
    the topic starts with [<namespace>/send], or it is
    [<namespace>/bundle/send]. *)
Theorem MqttOnEvent_sends_only_for_its_topics `{GoOsc} (w : World) (r : Runtime)
    (message : mqtt.Message) :
  Observe.sent (fst (Engine.MqttOnEvent w r message)) <> [] ->
  (exists cmd, cmd ∈ Relay.Commands r /\
               Engine.command_matches r cmd (mqtt.Topic message) = true) \/
  GoStrings.HasPrefix (mqtt.Topic message) (Relay.MqttTopic r +:+ "/send") = true \/
  mqtt.Topic message = Relay.MqttTopic r +:+ "/bundle/send".
Proof.
  intros Hsent.
  destruct (decide (Forall (fun cmd => Engine.command_matches r cmd (mqtt.Topic message) = false)
                           (Relay.Commands r))) as [Hnone|Hsome].
  - right. revert Hsent. unfold Engine.MqttOnEvent.
    rewrite (commands_loop_no_match w r _ message Hnone).
    unfold Engine.generic_routing.
    destruct (GoStrings.HasPrefix _ _); [auto|].
    case_bool_decide; [auto|].
    case_bool_decide; cbn [fst]; rewrite !sent_app, sent_Log, ?sent_SendStatus; done.
  - left. apply not_Forall_Exists in Hsome; [|intros ?; apply _].
    apply Exists_exists in Hsome as (cmd & Hin & Hm).
    exists cmd. split; [done|]. by apply not_false_iff_true.
Qed.

Lemma MqttOnEvent_sends_only_for_its_topics_witness :
  (exists cmd, cmd ∈ [Sample.mute] /\
     Engine.command_matches (Sample.test_relay [Sample.mute] false) cmd "osc/test/mute" = true) \/
  GoStrings.HasPrefix "osc/test/mute" "osc/test/send" = true \/
  "osc/test/mute" = "osc/test/bundle/send".
Proof.
  exact (MqttOnEvent_sends_only_for_its_topics Sample.world
           (Sample.test_relay [Sample.mute] false)
           (mqtt.mkMessage "osc/test/mute" EmptyString) ltac:(discriminate)).
Defined.

(** ** Subscriptions, failures and the log *)

Section MoreEngineProofs.
Context `{GoOsc}.
Import Engine Observe.

Lemma errors_OscSend w r p : errors (fst (OscSend w r p)) = [].
Proof.
  destruct p as [p|]; [|done]. unfold OscSend.
  match goal with |- context [OscSendCall p :: ?l] =>
    set (lg := l); assert (Hlg : errors lg = [])
      by (subst lg; destruct p; by rewrite ?errors_Log_other) end.
  match goal with |- context [if bool_decide ?P then ?a else ?b] =>
    set (dbg := if bool_decide P then a else b); assert (Hdbg : errors dbg = [])
      by (subst dbg; case_bool_decide; by rewrite ?errors_Log_other) end.
  clearbody lg dbg.
  assert (Hentry : errors (OscSendCall p :: lg) = []) by exact Hlg.
  destruct (net_ResolveUDPAddr _ _ _) as [addr|]; [|done].
  destruct (osc_MarshalBinary _ _) as [data|]; [|done].
  destruct (OscServer r); [destruct (OscServerConn r)|destruct (net_DialUDP_ok _ _)];
    cbn [fst]; by rewrite ?errors_app, Hentry, Hdbg.
Qed.

(** A send reports its failure in the log and lets the caller go on. *)
Lemma send_and_log_errors w r p :
  errors (fst (send_and_log w r p)) =
  match snd (OscSend w r (Some p)) with
  | SendError =>
      if bool_decide (ErrorLog <= Relay.LogLevel r) then ["Send Error: %s"] else []
  | _ => []
  end.
Proof.
  unfold send_and_log. pose proof (errors_OscSend w r (Some p)) as He.
  destruct (OscSend w r (Some p)) as [tr []]; cbn [fst snd] in *; [done | | done].
  by rewrite errors_app, He, errors_Log_ErrorLog.
Qed.

Lemma OscSend_unresolved w (r : Runtime) p :
  net_ResolveUDPAddr w (Relay.OscHost r) (Relay.OscPort r) = None ->
  snd (OscSend w r (Some p)) = SendError.
Proof. intros Hr. unfold OscSend. by rewrite Hr. Qed.

Lemma commands_loop_unresolved w (r : Runtime) cmds message decoded :
  net_ResolveUDPAddr w (Relay.OscHost r) (Relay.OscPort r) = None ->
  decoded_payload w (mqtt.Payload message) = Some decoded ->
  snd (commands_loop w r cmds message) = Next /\
  errors (fst (commands_loop w r cmds message)) =
    if bool_decide (ErrorLog <= Relay.LogLevel r)
    then replicate (length (filter (fun cmd => command_matches r cmd (mqtt.Topic message) = true)
                                   cmds))
                   "Send Error: %s"
    else [].
Proof.
  intros Hr Hdec. induction cmds as [|cmd cmds [IHf IHe]]; [by case_bool_decide|].
  cbn [commands_loop]. rewrite filter_cons.
  destruct (command_matches r cmd (mqtt.Topic message)) eqn:Hm.
  - rewrite decide_True by done.
    rewrite (command_action_decoded _ _ _ _ _ Hdec).
    match goal with |- context [send_and_log w r ?p] =>
      pose proof (send_and_log_errors w r p) as He;
      rewrite (OscSend_unresolved w r p Hr) in He;
      pose proof (send_and_log_flow w r p) as Hf;
      assert (Hf' : snd (send_and_log w r p) <> Panic)
        by (unfold send_and_log, OscSend; by rewrite Hr);
      destruct (send_and_log w r p) as [tr f] end.
    cbn [fst snd] in *. destruct f; [|done..].
    destruct (commands_loop w r cmds message) as [tr' f']. cbn [fst snd] in *.
    split; [done|]. rewrite errors_app, He, IHe. by case_bool_decide.
  - by rewrite decide_False by done.
Qed.

(** *** The log level *)

Lemma osc_side_app tr1 tr2 : More.osc_side (tr1 ++ tr2) = More.osc_side tr1 ++ More.osc_side tr2.
Proof. apply filter_app. Qed.

Lemma osc_side_Log (r : Relay.t) level format : More.osc_side (Log r level format) = [].
Proof. unfold Log. by case_bool_decide. Qed.

Lemma osc_side_SendStatus w r : More.osc_side (SendStatus w r) = [].
Proof.
  unfold SendStatus. destruct (Relay.MqttDisableConfigSend r); [done|].
  destruct (json_Marshal_Relay _ _); [done|]. by rewrite osc_side_app, osc_side_Log.
Qed.

Lemma OscSend_log_level w r l p :
  More.osc_side (fst (OscSend w (More.set_LogLevel l r) p)) = More.osc_side (fst (OscSend w r p)) /\
  snd (OscSend w (More.set_LogLevel l r) p) = snd (OscSend w r p).
Proof.
  destruct p as [p|]; [|done]. unfold OscSend.
  assert (Hlg : forall (r' : Relay.t) l', More.osc_side
            (OscSendCall p :: match p with
                              | osc.PMessage _ => Log r' SendLog "-> [OSC] %s: %s"
                              | osc.PBundle _ => Log r' SendLog "-> [OSC] Bundle %s"
                              | osc.POther _ => []
                              end ++ l') = OscSendCall p :: More.osc_side l').
  { intros r' l'.
    change (OscSendCall p :: More.osc_side
              (match p with
               | osc.PMessage _ => Log r' SendLog "-> [OSC] %s: %s"
               | osc.PBundle _ => Log r' SendLog "-> [OSC] Bundle %s"
               | osc.POther _ => []
               end ++ l') = OscSendCall p :: More.osc_side l').
    f_equal. rewrite osc_side_app. destruct p; by rewrite ?osc_side_Log. }
  assert (Hdbg : forall (r' : Relay.t) (b : bool) fmt l',
            More.osc_side ((if b then Log r' DebugLog fmt else []) ++ l') = More.osc_side l').
  { intros r' b fmt l'. rewrite osc_side_app. destruct b; by rewrite ?osc_side_Log. }
  assert (Hlg0 : forall (r' : Relay.t), More.osc_side
            (OscSendCall p :: match p with
                              | osc.PMessage _ => Log r' SendLog "-> [OSC] %s: %s"
                              | osc.PBundle _ => Log r' SendLog "-> [OSC] Bundle %s"
                              | osc.POther _ => []
                              end) = [OscSendCall p]).
  { intros r'. specialize (Hlg r' []). by rewrite app_nil_r in Hlg. }
  cbn [More.set_LogLevel config OscServer OscServerConn Relay.OscHost Relay.OscPort
       Relay.LogLevel].
  destruct (net_ResolveUDPAddr _ _ _) as [addr|]; cbn [fst snd]; [|by rewrite !Hlg0].
  destruct (osc_MarshalBinary _ _) as [data|]; cbn [fst snd]; [|by rewrite !Hlg0].
  destruct (OscServer r); [destruct (OscServerConn r)|destruct (net_DialUDP_ok _ _)];
    cbn [fst snd]; (split; [|done]); rewrite <- !app_comm_cons.
  - by rewrite !Hlg, !Hdbg.
  - rewrite <- (app_nil_r (if bool_decide _ then _ else _)).
    rewrite <- (app_nil_r (if bool_decide (_ <= Relay.LogLevel r) then _ else _)).
    by rewrite !Hlg, !Hdbg.
  - by rewrite !Hlg, !Hdbg.
  - rewrite <- (app_nil_r (if bool_decide _ then _ else _)).
    rewrite <- (app_nil_r (if bool_decide (_ <= Relay.LogLevel r) then _ else _)).
    by rewrite !Hlg, !Hdbg.
Qed.

Lemma send_and_log_log_level w r l p :
  More.osc_side (fst (send_and_log w (More.set_LogLevel l r) p)) =
    More.osc_side (fst (send_and_log w r p)) /\
  snd (send_and_log w (More.set_LogLevel l r) p) = snd (send_and_log w r p).
Proof.
  unfold send_and_log. destruct (OscSend_log_level w r l (Some p)) as [Ht Hr].
  destruct (OscSend w (More.set_LogLevel l r) (Some p)) as [tr1 r1].
  destruct (OscSend w r (Some p)) as [tr2 r2]. cbn [fst snd] in *. subst r2.
  destruct r1; cbn [fst snd]; by rewrite ?osc_side_app, ?osc_side_Log, ?app_nil_r.
Qed.

Lemma command_action_log_level w r l cmd message :
  More.osc_side (fst (command_action w (More.set_LogLevel l r) cmd message)) =
    More.osc_side (fst (command_action w r cmd message)) /\
  snd (command_action w (More.set_LogLevel l r) cmd message) =
    snd (command_action w r cmd message).
Proof.
  unfold command_action.
  destruct (negb _ && negb _); [|apply send_and_log_log_level].
  destruct (json_Unmarshal_arguments _ _); [apply send_and_log_log_level|].
  cbn [fst snd]. by rewrite !osc_side_Log.
Qed.

Lemma commands_loop_log_level w r l cmds message :
  More.osc_side (fst (commands_loop w (More.set_LogLevel l r) cmds message)) =
    More.osc_side (fst (commands_loop w r cmds message)) /\
  snd (commands_loop w (More.set_LogLevel l r) cmds message) =
    snd (commands_loop w r cmds message).
Proof.
  induction cmds as [|cmd cmds [IHt IHf]]; [done|].
  cbn [commands_loop].
  change (command_matches (More.set_LogLevel l r) cmd (mqtt.Topic message))
    with (command_matches r cmd (mqtt.Topic message)).
  destruct (command_matches r cmd (mqtt.Topic message)); [|done].
  destruct (command_action_log_level w r l cmd message) as [Ht Hf].
  destruct (command_action w (More.set_LogLevel l r) cmd message) as [tr1 f1].
  destruct (command_action w r cmd message) as [tr2 f2]. cbn [fst snd] in *. subst f2.
  destruct f1; [|done..].
  destruct (commands_loop w (More.set_LogLevel l r) cmds message) as [tr3 f3].
  destruct (commands_loop w r cmds message) as [tr4 f4]. cbn [fst snd] in *.
  by rewrite !osc_side_app, Ht, IHt.
Qed.

Lemma generic_routing_log_level w r l message :
  More.osc_side (fst (generic_routing w (More.set_LogLevel l r) message)) =
    More.osc_side (fst (generic_routing w r message)) /\
  snd (generic_routing w (More.set_LogLevel l r) message) =
    snd (generic_routing w r message).
Proof.
  unfold generic_routing, standard_send, bundle_send.
  cbn [More.set_LogLevel config Relay.MqttTopic Relay.OscDisallowArbritaryCommand].
  destruct (GoStrings.HasPrefix _ _).
  { destruct (Relay.OscDisallowArbritaryCommand r);
      [cbn [fst snd]; by rewrite !osc_side_Log|].
    destruct (if negb _ then _ else _); [apply send_and_log_log_level|].
    cbn [fst snd]. by rewrite !osc_side_Log. }
  case_bool_decide.
  { destruct (Relay.OscDisallowArbritaryCommand r);
      [cbn [fst snd]; by rewrite !osc_side_Log|].
    destruct (json_Unmarshal_OscBundle _ _);
      [destruct (Codec.MakeOSCBundle _); [apply send_and_log_log_level | done]|].
    cbn [fst snd]. by rewrite !osc_side_Log. }
  case_bool_decide; [|done]. cbn [fst snd]. by rewrite !osc_side_SendStatus.
Qed.

End MoreEngineProofs.

(** X11.  [Start] subscribes to the three topics of the generic branches
    and to exactly the non-empty topics that some command of the table is
    mapped to: every topic that the loop of the handler can match is
    subscribed, and nothing else is. *)
Theorem subscriptions_cover_commands (r : Relay.t) (topic : string) :
  topic ∈ Engine.Start_subscriptions r <->
  topic = Relay.MqttTopic r +:+ "/send/#" \/
  topic = Relay.MqttTopic r +:+ "/bundle/send" \/
  topic = Relay.MqttTopic r +:+ "/status/check" \/
  (topic <> EmptyString /\
   exists cmd, cmd ∈ Relay.Commands r /\ Engine.command_matches r cmd topic = true).
Proof.
  unfold Engine.Start_subscriptions. rewrite elem_of_app.
  rewrite !elem_of_cons, elem_of_nil.
  rewrite list_elem_of_In, in_flat_map.
  setoid_rewrite <- list_elem_of_In. setoid_rewrite elem_of_app.
  unfold Engine.command_matches. split.
  - intros [[?|[?|[?|[]]]]|(cmd & Hin & Hcmd)]; [tauto..|].
    do 3 right. destruct Hcmd as [Hcmd|Hcmd];
      (case_bool_decide as Hne; cbn in Hcmd; [by apply elem_of_nil in Hcmd|]);
      apply list_elem_of_singleton in Hcmd; subst topic.
    + split; [done|]. exists cmd. split; [done|]. by rewrite bool_decide_eq_true_2.
    + split; [by apply append_nonempty, append_nonempty|]. exists cmd. split; [done|].
      apply orb_true_iff. right. apply andb_true_iff.
      split; by apply bool_decide_eq_true_2.
  - intros [?|[?|[?|(Hne & cmd & Hin & Hcmd)]]]; [tauto..|].
    right. exists cmd. split; [done|].
    apply orb_true_iff in Hcmd as [Hcmd|Hcmd].
    + apply bool_decide_eq_true in Hcmd. subst topic. left.
      rewrite bool_decide_eq_false_2 by done. cbn. by apply list_elem_of_singleton.
    + apply andb_true_iff in Hcmd as [Hs Hcmd].
      apply bool_decide_eq_true in Hs, Hcmd. subst topic. right.
      rewrite bool_decide_eq_false_2 by done. cbn. by apply list_elem_of_singleton.
Qed.

(** X12.  A failing send does not stop the loop over the commands: when
    the peer does not resolve and the payload, if any, decodes, the loop
    completes, every command mapped to the topic is handed to [OscSend] in
    the order of the table, and one send error goes to the log for each;
    the log prints them when the level of the relay is 0 or more, and
    nothing below. *)
Theorem send_failure_is_isolated `{GoOsc} (w : World) (r : Runtime)
    (message : mqtt.Message) (decoded : list Value) :
  net_ResolveUDPAddr w (Relay.OscHost r) (Relay.OscPort r) = None ->
  Observe.decoded_payload w (mqtt.Payload message) = Some decoded ->
  snd (Engine.commands_loop w r (Relay.Commands r) message) = Next /\
  Observe.sent (fst (Engine.commands_loop w r (Relay.Commands r) message)) =
    map (fun cmd => osc.PMessage
                      (osc.mkMessage (RelayCommand.Command cmd)
                         (Observe.mapping_arguments cmd (mqtt.Payload message) decoded)))
        (filter (fun cmd => Engine.command_matches r cmd (mqtt.Topic message) = true)
                (Relay.Commands r)) /\
  Observe.errors (fst (Engine.commands_loop w r (Relay.Commands r) message)) =
    if bool_decide (ErrorLog <= Relay.LogLevel r)
    then replicate
           (length (filter (fun cmd => Engine.command_matches r cmd (mqtt.Topic message) = true)
                           (Relay.Commands r)))
           "Send Error: %s"
    else [].
Proof.
  intros Hr Hdec.
  destruct (commands_loop_unresolved w r (Relay.Commands r) message decoded Hr Hdec)
    as [Hf He].
  split; [done|]. split; [|done].
  clear He. induction (Relay.Commands r) as [|cmd cmds IH]; [done|].
  cbn [Engine.commands_loop] in *. rewrite filter_cons.
  destruct (Engine.command_matches r cmd (mqtt.Topic message)) eqn:Hm.
  - rewrite decide_True by done.
    rewrite (command_action_decoded _ _ _ _ _ Hdec) in *.
    match goal with |- context [Engine.send_and_log w r ?p] =>
      pose proof (sent_send_and_log w r p) as Hs;
      destruct (Engine.send_and_log w r p) as [tr f] end.
    cbn [fst snd] in *. destruct f; [|done..].
    destruct (Engine.commands_loop w r cmds message) as [tr' f']. cbn [fst snd] in *.
    by rewrite sent_app, Hs, IH.
  - rewrite decide_False by done. auto.
Qed.

Lemma send_failure_is_isolated_witness :
  Observe.errors
    (fst (Engine.commands_loop
            (mkWorld _ (json_Unmarshal_arguments Sample.world) (fun _ => None)
               (fun _ => None) (fun _ => None) (fun _ => None)
               (fun _ _ => None) (fun _ => None) (fun _ _ _ => true) (fun _ => true))
            (Sample.test_relay [Sample.mute; Sample.mute_fixed] false)
            [Sample.mute; Sample.mute_fixed]
            (mqtt.mkMessage "osc/test/mute" "[1]"))) =
  ["Send Error: %s"; "Send Error: %s"].
Proof.
  exact (proj2 (proj2 (send_failure_is_isolated
           (mkWorld _ (json_Unmarshal_arguments Sample.world) (fun _ => None)
               (fun _ => None) (fun _ => None) (fun _ => None)
               (fun _ _ => None) (fun _ => None) (fun _ _ _ => true) (fun _ => true))
           (Sample.test_relay [Sample.mute; Sample.mute_fixed] false)
           (mqtt.mkMessage "osc/test/mute" "[1]") [VFloat 4607182418800017408]
           eq_refl eq_refl))).
Defined.

(** X13.  A tick of a subscription hands exactly its configured message
    to [OscSend]; when no send can panic the tick ends normally whether the
    send fails or not, so the ticker goes on, and a failed send passes one
    error to the log, which prints it when the level of the relay is 0 or
    more. *)
Theorem subscription_tick_sends `{GoOsc} (w : World) (r : Runtime)
    (subcription : RelayOscSubscription.t) :
  Observe.sent (fst (Engine.subscription_tick w r subcription)) =
    [osc.PMessage (osc.mkMessage (RelayOscSubscription.Command subcription)
                                 (RelayOscSubscription.Payload subcription))] /\
  Observe.errors (fst (Engine.subscription_tick w r subcription)) =
    match snd (Engine.OscSend w r
                 (Some (osc.PMessage
                          (osc.mkMessage (RelayOscSubscription.Command subcription)
                                         (RelayOscSubscription.Payload subcription))))) with
    | SendError =>
        if bool_decide (ErrorLog <= Relay.LogLevel r) then ["Send Error: %s"] else []
    | _ => []
    end /\
  (Observe.socket_ready r -> snd (Engine.subscription_tick w r subcription) = Next).
Proof.
  unfold Engine.subscription_tick, osc.set_Arguments, osc.NewMessage. cbn [osc.Address].
  match goal with |- context [Engine.send_and_log w r ?p] =>
    pose proof (sent_send_and_log w r p) as Hs;
    pose proof (send_and_log_errors w r p) as He;
    pose proof (send_and_log_ready w r p) as Hf;
    destruct (Engine.send_and_log w r p) as [tr f] end.
  cbn [fst snd] in *. split_and!.
  - by rewrite sent_app, sent_Log.
  - rewrite errors_app, errors_Log_other by done. done.
  - done.
Qed.

Lemma subscription_tick_sends_witness :
  snd (Engine.subscription_tick Sample.world (Engine.Start Sample.one_way)
         (RelayOscSubscription.mk "/xremote" [] 9000000000)) = Next.
Proof.
  exact (proj2 (proj2 (subscription_tick_sends Sample.world (Engine.Start Sample.one_way)
                         (RelayOscSubscription.mk "/xremote" [] 9000000000)))
               (or_introl eq_refl)).
Defined.

(** X14.  The log level only changes what is printed: with any other log
    level the handler of broker messages makes the same calls of [OscSend]
    with the same socket operations, in the same order, and ends the same
    way. *)
Theorem log_level_only_prints `{GoOsc} (w : World) (r : Runtime) (l : LogLevel)
    (message : mqtt.Message) :
  More.osc_side (fst (Engine.MqttOnEvent w (More.set_LogLevel l r) message)) =
    More.osc_side (fst (Engine.MqttOnEvent w r message)) /\
  snd (Engine.MqttOnEvent w (More.set_LogLevel l r) message) =
    snd (Engine.MqttOnEvent w r message).
Proof.
  unfold Engine.MqttOnEvent.
  change (Relay.Commands (More.set_LogLevel l r)) with (Relay.Commands r).
  destruct (commands_loop_log_level w r l (Relay.Commands r) message) as [Ht Hf].
  destruct (Engine.commands_loop w (More.set_LogLevel l r) _ _) as [tr1 f1].
  destruct (Engine.commands_loop w r _ _) as [tr2 f2]. cbn [fst snd] in *. subst f2.
  destruct f1; cbn [fst snd]; rewrite ?osc_side_app, ?osc_side_Log, ?Ht; [|done..].
  destruct (generic_routing_log_level w r l message) as [Hg Hgf].
  destruct (Engine.generic_routing w (More.set_LogLevel l r) message) as [tr3 f3].
  destruct (Engine.generic_routing w r message) as [tr4 f4]. cbn [fst snd] in *.
  by rewrite !osc_side_app, !osc_side_Log, Ht, Hg.
Qed.

(** ** More on the validation of the configuration *)

Section MoreConfigProofs.
Import Config ConfigSpec.

Lemma default_bind_port_idem r :
  default_bind_port (default_bind_port r) = default_bind_port r.
Proof.
  destruct r. unfold default_bind_port, Relay.set_OscBindPort. cbn.
  repeat (case_bool_decide; cbn; try done); congruence.
Qed.

Lemma bind_port_default r : bind_port (default_bind_port r) = bind_port r.
Proof.
  destruct (default_bind_port_fields (default_bind_port r)) as (_ & _ & _ & _ & _ & _ & H1).
  destruct (default_bind_port_fields r) as (_ & _ & _ & _ & _ & _ & H2).
  cbn in H1, H2. rewrite <- H1, default_bind_port_idem. exact H2.
Qed.

Lemma invalid_default rs : invalid (default_bind_port <$> rs) -> invalid rs.
Proof.
  intros [Hnil|[(r' & Hin & Hbad)|[(r' & Hin & Hbad)|[(r' & Hin & Hbad)|
            (i & j & Hne & ri & rj & Hi & Hj & Hbad)]]]].
  - left. by apply fmap_nil_inv in Hnil.
  - apply list_elem_of_fmap in Hin as (r & -> & Hin).
    destruct (default_bind_port_fields r) as (Hh & Hp & _). cbn in *.
    right; left. exists r. split; [done|]. by rewrite <- Hh, <- Hp.
  - apply list_elem_of_fmap in Hin as (r & -> & Hin).
    destruct (default_bind_port_fields r) as (_ & _ & Ht & _). cbn in *.
    right; right; left. exists r. split; [done|]. by rewrite <- Ht.
  - apply list_elem_of_fmap in Hin as (r & -> & Hin).
    destruct (default_bind_port_fields r) as (_ & _ & _ & Ho & Hb & _). cbn in *.
    right; right; right; left. exists r. split; [done|]. by rewrite <- Hb, <- Ho.
  - rewrite list_lookup_fmap in Hi, Hj.
    destruct (rs !! i) as [ri0|] eqn:Ei; [|done].
    destruct (rs !! j) as [rj0|] eqn:Ej; [|done]. cbn in Hi, Hj. simplify_eq.
    destruct (default_bind_port_fields ri0) as (_ & _ & Hti & _).
    destruct (default_bind_port_fields rj0) as (_ & _ & Htj & _). cbn in *.
    rewrite Hti, Htj, !bind_port_default in Hbad.
    do 4 right. exists i, j. split; [done|]. by exists ri0, rj0.
Qed.

(** The loop stops at the first relay that fails a check. *)
Lemma check_relays_first all i rs e :
  check_relays all i rs = Some e ->
  exists k r,
    rs !! k = Some r /\
    (forall j rj, (j < k)%nat -> rs !! j = Some rj ->
       relay_ok rj /\ check_against (i + j) rj 0 all = None) /\
    check_relays all (i + k) [r] = Some e.
Proof.
  revert i. induction rs as [|r rs IH]; intros i; [done|].
  destruct (check_relays all i [r]) as [e'|] eqn:Hone.
  - intros He. exists 0%nat, r. rewrite Nat.add_0_r. split; [done|]. split; [intros; lia|].
    rewrite Hone. f_equal. revert He Hone. cbn.
    repeat (match goal with |- context [if ?b then _ else _] => destruct b end;
            [congruence|]).
    destruct (check_against i r 0 all); congruence.
  - intros He.
    assert (Hok : relay_ok r /\ check_against i r 0 all = None).
    { pose proof (proj1 (check_relays_None all i [r]) Hone 0%nat r eq_refl) as H0.
      by rewrite Nat.add_0_r in H0. }
    assert (Hrest : check_relays all (S i) rs = Some e).
    { revert He Hone. cbn.
      repeat (match goal with |- context [if ?b then _ else _] => destruct b end;
              [congruence|]).
      destruct (check_against i r 0 all); congruence. }
    destruct (IH _ Hrest) as (k & r' & Hk & Hbefore & Hat).
    exists (S k), r'. rewrite <- Nat.add_succ_comm. split; [done|]. split; [|done].
    intros [|j] rj Hj Hrj; cbn in Hrj.
    + simplify_eq. by rewrite Nat.add_0_r.
    + rewrite <- Nat.add_succ_comm. apply Hbefore; [lia | done].
Qed.

Lemma check_one all i r e :
  check_relays all i [r] = Some e ->
  More.fatal_index e = Some i /\
  match e with
  | MqttHostPortRequired _ => True
  | MqttTopicRequired _ => Relay.MqttHost r <> EmptyString /\ Relay.MqttPort r <> 0
  | BindAddrOrHostRequired _ =>
      Relay.MqttHost r <> EmptyString /\ Relay.MqttPort r <> 0 /\
      Relay.MqttTopic r <> EmptyString
  | DuplicateMqttTopic _ | DuplicateOscBindPort _ => relay_ok r
  | NoRelaysDefined => False
  end.
Proof.
  cbn. unfold relay_ok.
  destruct (bool_decide_reflect (Relay.MqttHost r = EmptyString)) as [E1|E1];
    [by intros [= <-]|].
  destruct (bool_decide_reflect (Relay.MqttPort r = 0)) as [E2|E2];
    [by intros [= <-]|]. cbn [orb].
  destruct (bool_decide_reflect (Relay.MqttTopic r = EmptyString)) as [E3|E3];
    [by intros [= <-]|].
  destruct (bool_decide_reflect (Relay.OscBindAddr r = EmptyString)) as [E4|E4];
    destruct (bool_decide_reflect (Relay.OscHost r = EmptyString)) as [E5|E5];
    cbn [andb]; try (by intros [= <-]);
    (destruct (check_against i r 0 all) as [e'|] eqn:Hca; [|done]);
    intros [= <-];
    apply check_against_Some in Hca as (k & r2 & _ & _ & [[-> _]|[-> _]]);
    cbn; intuition congruence.
Qed.

End MoreConfigProofs.

(** X15.  Validation is idempotent: a list that [ReadConfig] has accepted
    is accepted again, and comes out as it went in. *)
Theorem ReadConfig_idempotent (rs rs' : list Relay.t) :
  Config.ReadConfig rs = inr rs' -> Config.ReadConfig rs' = inr rs'.
Proof.
  intros HR. apply ReadConfig_inr in HR as [-> Hv].
  rewrite ReadConfig_valid.
  - f_equal. rewrite <- list_fmap_compose. apply list_fmap_ext.
    intros i r _. apply default_bind_port_idem.
  - intros Hinv. by apply Hv, invalid_default.
Qed.

Lemma ReadConfig_idempotent_witness :
  Config.ReadConfig [Sample.relay "osc/behringer_wing" 2223 "10.0.0.9" 2223;
                     Sample.relay "osc/x32" 10023 "10.0.0.9" 10023] =
  inr [Sample.relay "osc/behringer_wing" 2223 "10.0.0.9" 2223;
       Sample.relay "osc/x32" 10023 "10.0.0.9" 10023].
Proof.
  exact (ReadConfig_idempotent [Sample.wing; Sample.x32] _ eq_refl).
Defined.

(** X16.  The relay named by a fatal exit is the first one with a defect:
    every relay before it has its broker host, broker port, topic root and
    an endpoint, and shares neither its topic root nor its bind port with
    any other relay of the list.  For the named relay itself the checks run
    in the order host and port, topic root, endpoint, duplicates. *)
Theorem ReadConfig_reports_first_offender (rs : list Relay.t) (e : Config.fatal) (i : nat) :
  Config.ReadConfig rs = inl e -> More.fatal_index e = Some i ->
  (forall j rj, (j < i)%nat -> rs !! j = Some rj ->
     ConfigSpec.relay_ok rj /\
     forall k rk, k <> j -> rs !! k = Some rk ->
       Relay.MqttTopic rj <> Relay.MqttTopic rk /\
       ConfigSpec.bind_port rj <> ConfigSpec.bind_port rk) /\
  exists ri, rs !! i = Some ri /\
    match e with
    | Config.MqttHostPortRequired _ => True
    | Config.MqttTopicRequired _ =>
        Relay.MqttHost ri <> EmptyString /\ Relay.MqttPort ri <> 0
    | Config.BindAddrOrHostRequired _ =>
        Relay.MqttHost ri <> EmptyString /\ Relay.MqttPort ri <> 0 /\
        Relay.MqttTopic ri <> EmptyString
    | Config.DuplicateMqttTopic _ | Config.DuplicateOscBindPort _ => ConfigSpec.relay_ok ri
    | Config.NoRelaysDefined => False
    end.
Proof.
  unfold Config.ReadConfig. case_bool_decide as Hlen; [by intros [= <-]|].
  destruct (Config.check_relays _ 0 _) as [e'|] eqn:Hc; [|done].
  intros [= ->] Hidx.
  apply check_relays_first in Hc as (k & r' & Hk & Hbefore & Hat). cbn in Hat, Hbefore.
  destruct (check_one _ _ _ _ Hat) as [Hidx' Hprec].
  assert (k = i) as -> by congruence.
  rewrite list_lookup_fmap in Hk.
  destruct (rs !! i) as [ri|] eqn:Hi; [|done]. cbn in Hk. simplify_eq.
  destruct (default_bind_port_fields ri) as (Hh & Hp & Ht & Ho & Hb & _ & _). cbn in *.
  split.
  - intros j rj Hj Hrj.
    destruct (Hbefore j (Config.default_bind_port rj)) as [Hok Hca];
      [done | by rewrite list_lookup_fmap, Hrj|].
    destruct (default_bind_port_fields rj) as (Hhj & Hpj & Htj & Hoj & Hbj & _ & Hbpj).
    cbn in *. split.
    + unfold ConfigSpec.relay_ok in *. by rewrite Hhj, Hpj, Htj, Hoj, Hbj in Hok.
    + intros k rk Hne Hrk. rewrite check_against_None in Hca.
      destruct (Hca k (Config.default_bind_port rk)) as [H1 H2];
        [by rewrite list_lookup_fmap, Hrk | done|].
      destruct (default_bind_port_fields rk) as (_ & _ & Htk & _ & _ & _ & Hbpk).
      cbn in *. rewrite Htj, Htk in H1. by rewrite Hbpj, Hbpk in H2.
  - exists ri. split; [done|]. unfold ConfigSpec.relay_ok in *.
    rewrite Hh, Hp, Ht, Ho, Hb in Hprec. exact Hprec.
Qed.

Lemma ReadConfig_reports_first_offender_witness :
  exists ri, [Sample.wing; Sample.client_a; Sample.client_a'] !! 1%nat = Some ri /\
             ConfigSpec.relay_ok ri.
Proof.
  exact (proj2 (ReadConfig_reports_first_offender
                  [Sample.wing; Sample.client_a; Sample.client_a']
                  (Config.DuplicateMqttTopic 1) 1 eq_refl eq_refl)).
Defined.

(** X17.  Which relays of an accepted configuration get a server: [Start]
    sets one up for the relay at an index exactly when the configuration
    gives it a bind address and a bind port or, failing that, a peer port;
    the server then listens on the bind address and the bind port, which is
    the peer port when the bind port was omitted. *)
Theorem validated_relay_server (rs rs' : list Relay.t) (i : nat) (r : Relay.t) :
  Config.ReadConfig rs = inr rs' -> rs !! i = Some r ->
  exists r', rs' !! i = Some r' /\
    (is_Some (OscServer (Engine.Start r')) <->
     Relay.OscBindAddr r <> EmptyString /\
     (Relay.OscBindPort r <> 0 \/ Relay.OscPort r <> 0)) /\
    (forall srv, OscServer (Engine.Start r') = Some srv ->
       osc.Addr srv = Engine.host_port (Relay.OscBindAddr r) (ConfigSpec.bind_port r)).
Proof.
  intros HR Hi. apply ReadConfig_inr in HR as [-> _].
  exists (Config.default_bind_port r). split; [by rewrite list_lookup_fmap, Hi|].
  destruct (default_bind_port_fields r) as (_ & _ & _ & _ & Hb & _ & Hbp). cbn in Hb, Hbp.
  unfold Engine.Start. cbn [OscServer]. rewrite Hb, Hbp.
  unfold ConfigSpec.bind_port.
  destruct (bool_decide_reflect (Relay.OscBindAddr r = EmptyString)) as [Ha|Ha].
  - rewrite (bool_decide_eq_false_2 (_ <> _)) by tauto. cbn.
    split; [|done]. split; [by intros [? ?] | tauto].
  - rewrite (bool_decide_eq_true_2 (_ <> _)) by done.
    destruct (bool_decide_reflect (Relay.OscBindPort r = 0)) as [Hp|Hp]; cbn [andb negb].
    + destruct (bool_decide_reflect (Relay.OscPort r = 0)) as [Ho|Ho]; cbn [negb].
      * split; [|done]. split; [by intros [? ?] | tauto].
      * split; [split; [tauto | by eexists]|]. by intros srv [= <-].
    + rewrite (bool_decide_eq_false_2 _ Hp). cbn [negb].
      split; [split; [tauto | by eexists]|]. by intros srv [= <-].
Qed.

Lemma validated_relay_server_witness :
  exists r', [Sample.relay "osc/behringer_wing" 2223 "10.0.0.9" 2223;
              Sample.relay "osc/x32" 10023 "10.0.0.9" 10023] !! 0%nat = Some r' /\
    (is_Some (OscServer (Engine.Start r')) <->
     Relay.OscBindAddr Sample.wing <> EmptyString /\
     (Relay.OscBindPort Sample.wing <> 0 \/ Relay.OscPort Sample.wing <> 0)) /\
    (forall srv, OscServer (Engine.Start r') = Some srv ->
       osc.Addr srv = Engine.host_port (Relay.OscBindAddr Sample.wing)
                        (ConfigSpec.bind_port Sample.wing)).
Proof.
  exact (validated_relay_server [Sample.wing; Sample.x32] _ 0 Sample.wing eq_refl eq_refl).
Defined.

(** ** Nil pointers, the choice of the file, empty payloads *)

Section MoreHeapProofs.
Context `{GoOsc}.
Import Heap.

Lemma for_each_app {A} (l1 l2 : list A) (body : A -> M unit) h :
  for_each (l1 ++ l2) body h =
  match for_each l1 body h with
  | Ok _ h' => for_each l2 body h'
  | Panics => Panics
  | OutOfFuel => OutOfFuel
  end.
Proof.
  revert h. induction l1 as [|a l1 IH]; intros h; [done|].
  cbn [app for_each]. unfold mbind, M_bind, bind.
  destruct (body a h) as [[] h'| |]; [apply IH | done..].
Qed.

Lemma run_bind_panics {A B} (m : M A) (k : A -> M B) h :
  m h = Panics -> (m ≫= k) h = Panics.
Proof. intros Hm. unfold mbind, M_bind, bind. by rewrite Hm. Qed.

End MoreHeapProofs.

(** X18.  [MakeOSCBundle] dereferences every child: on a bundle that has
    a nil pointer among its messages, or among its nested bundles, the call
    panics, wherever the nil stands and whatever follows it, once the
    children before it have been converted. *)
Theorem MakeOSCBundle_nil_child_panics `{GoOsc} (n : nat) (h : gmap Heap.loc Heap.cell)
    (l : Heap.loc) (t : Time) (pms pbs : Slice.t Heap.ptr) (ms : list OscMessage.t) :
  h !! l = Some (Heap.COscBundle t pms pbs) ->
  (exists pre post,
     Slice.elems pms = pre ++ None :: post /\ Forall2 (Heap.is_OscMessage h) pre ms) \/
  (Forall2 (Heap.is_OscMessage h) (Slice.elems pms) ms /\
   exists pre post bs,
     Slice.elems pbs = pre ++ None :: post /\ Forall2 (Heap.is_OscBundle h) pre bs /\
     Forall (fun x => (Heap.depth x <= n)%nat) bs /\ (1 <= n)%nat) ->
  Heap.MakeOSCBundle (S n) (Some l) h = Heap.Panics.
Proof.
  intros Hl Hnil. cbn [Heap.MakeOSCBundle].
  rewrite (run_load_bind _ _ _ _ Hl), run_alloc.
  set (b := fresh (dom h)).
  set (h1 := <[b := Heap.CBundle (NewTimetag t) None None]> h).
  assert (Hfresh : h !! b = None) by apply fresh_lookup.
  assert (Hdel1 : delete b h1 = h).
  { unfold h1. rewrite delete_insert_eq. by apply delete_id. }
  assert (Hb1 : h1 !! b = Some (Heap.CBundle (NewTimetag t) None None)).
  { unfold h1. by rewrite lookup_insert_eq. }
  destruct Hnil as [(pre & post & -> & Hpre)|(Hms & pre & post & bs & -> & Hpre & Hdepth & Hn)].
  - destruct (MakeOSCBundle_messages b (NewTimetag t) None pre ms h Hpre h1 None)
      as (h2 & _ & _ & Hrun & _); [by rewrite Hdel1 | done|].
    apply run_bind_panics. by rewrite for_each_app, Hrun.
  - destruct (MakeOSCBundle_messages b (NewTimetag t) None (Slice.elems pms) ms h Hms h1 None)
      as (h2 & G2 & newm & Hrun2 & _ & HG2 & HG2h & _ & Hb2 & _); [by rewrite Hdel1 | done|].
    rewrite (run_bind _ _ _ _ _ Hrun2).
    destruct (MakeOSCBundle_bundles n b (NewTimetag t) (Slice.extend None newm) pre bs
                (MakeOSCBundle_correct n) Hdepth G2) with (h := h2) (acc := @None (list Heap.ptr))
      as (h3 & _ & _ & Hrun3 & _).
    { eapply Forall2_impl; [exact Hpre|]. intros ? ?. by apply is_OscBundle_mono. }
    { done. }
    { done. }
    apply run_bind_panics. rewrite for_each_app, Hrun3.
    destruct n as [|n]; [lia | done].
Qed.

Lemma MakeOSCBundle_nil_child_panics_witness :
  Heap.MakeOSCBundle 1 (Some 4%nat)
    (<[4%nat := Heap.COscBundle Sample.t0 (Some [Some 1%nat; None; Some 1%nat]) None]>
       Sample.heap) =
  Heap.Panics.
Proof.
  apply (MakeOSCBundle_nil_child_panics 0 _ 4%nat Sample.t0
           (Some [Some 1%nat; None; Some 1%nat]) None [OscMessage.mk "/ch/1/mute" [VInt 1]]).
  - reflexivity.
  - left. exists [Some 1%nat], [Some 1%nat]. split; [reflexivity|].
    constructor; [|constructor]. exists 1%nat, (Some 0%nat).
    split; [reflexivity|]. split; reflexivity.
Defined.

(** X19.  The choice of the configuration file: the file chosen is one
    that [os.Stat] accepts; a path given on the command line that
    [os.Stat] refuses is not an error, the choice is then the one made
    without that path; and there is no file to read exactly when the
    path of the command line is empty or refused and the three standard
    places are all refused. *)
Theorem config_file_choice (stat : string -> bool) (ConfigPath localConfig HomeDir : string) :
  (forall f, More.config_file stat ConfigPath localConfig HomeDir = Some f ->
     stat f = true /\
     (f = ConfigPath \/ f = localConfig \/
      f = HomeDir +:+ "/.config/mqtt-osc-bridge/config.yaml" \/
      f = "/etc/mqtt-osc-bridge/config.yaml")) /\
  (stat ConfigPath = false ->
   More.config_file stat ConfigPath localConfig HomeDir =
   More.config_file stat EmptyString localConfig HomeDir) /\
  (More.config_file stat ConfigPath localConfig HomeDir = None <->
   (stat ConfigPath = false \/ ConfigPath = EmptyString) /\
   stat localConfig = false /\
   stat (HomeDir +:+ "/.config/mqtt-osc-bridge/config.yaml") = false /\
   stat "/etc/mqtt-osc-bridge/config.yaml" = false).
Proof.
  unfold More.config_file. split_and!.
  - intros f.
    destruct (stat ConfigPath) eqn:E1; cbn [andb negb];
      [case_bool_decide; cbn [negb]|];
      (try (intros [= <-]; by auto));
      (destruct (stat localConfig) eqn:E2; [intros [= <-]; by auto|]);
      (destruct (stat (HomeDir +:+ _)) eqn:E3; [intros [= <-]; by auto|]);
      (destruct (stat "/etc/mqtt-osc-bridge/config.yaml") eqn:E4;
         [intros [= <-]; by auto | done]).
  - intros ->. cbn [andb].
    by rewrite (bool_decide_eq_true_2 (EmptyString = EmptyString)), andb_false_r by done.
  - destruct (stat ConfigPath) eqn:E1; cbn [andb negb];
      [case_bool_decide; cbn [negb]|];
      destruct (stat localConfig) eqn:E2;
      destruct (stat (HomeDir +:+ _)) eqn:E3;
      destruct (stat "/etc/mqtt-osc-bridge/config.yaml") eqn:E4;
      split; try done; try (intros (? & ? & ? & ?); done);
      try (intros ([?|?] & ? & ? & ?); done); auto.
Qed.

(** X20.  A message with an empty payload never reaches the JSON decoder
    in the loop over the commands: when no send can panic the loop
    completes, and every command mapped to the topic sends its address with
    its default arguments, whether it disallows payloads or not. *)
Theorem empty_payload_sends_defaults `{GoOsc} (w : World) (r : Runtime) (topic : string) :
  Observe.socket_ready r ->
  snd (Engine.commands_loop w r (Relay.Commands r) (mqtt.mkMessage topic EmptyString)) = Next /\
  Observe.sent (fst (Engine.commands_loop w r (Relay.Commands r)
                       (mqtt.mkMessage topic EmptyString))) =
    map (fun cmd => osc.PMessage (osc.mkMessage (RelayCommand.Command cmd)
                                                (RelayCommand.DefaultPayload cmd)))
        (filter (fun cmd => Engine.command_matches r cmd topic = true) (Relay.Commands r)).
Proof.
  intros Hready.
  destruct (commands_loop_decoded w r (Relay.Commands r) (mqtt.mkMessage topic EmptyString)
              [] Hready eq_refl) as [Hf Hs].
  split; [done|]. rewrite Hs. apply map_ext. intros cmd.
  unfold Observe.mapping_arguments. cbn. by rewrite andb_false_r.
Qed.

Lemma empty_payload_sends_defaults_witness :
  Observe.sent (fst (Engine.commands_loop Sample.world
                       (Sample.test_relay [Sample.mute; Sample.mute_fixed] false)
                       [Sample.mute; Sample.mute_fixed]
                       (mqtt.mkMessage "osc/test/mute" EmptyString))) =
  [osc.PMessage (osc.mkMessage "/ch/1/mute" [VInt 1]);
   osc.PMessage (osc.mkMessage "/ch/1/mute" [VInt 1])].
Proof.
  exact (proj2 (empty_payload_sends_defaults Sample.world
                  (Sample.test_relay [Sample.mute; Sample.mute_fixed] false)
                  "osc/test/mute" (or_introl eq_refl))).
Defined.

(** ** The sockets of a running relay *)

Section SocketProofs.
Context `{GoOsc}.
Import Engine Observe.

Lemma wire_app tr1 tr2 : wire (tr1 ++ tr2) = wire tr1 ++ wire tr2.
Proof. apply filter_app. Qed.

Lemma wire_Log (r : Relay.t) level format : wire (Log r level format) = [].
Proof. unfold Log. by case_bool_decide. Qed.

Lemma wire_SendStatus w r : wire (SendStatus w r) = [].
Proof.
  unfold SendStatus. destruct (Relay.MqttDisableConfigSend r); [done|].
  destruct (json_Marshal_Relay _ _); [done|]. by rewrite wire_app, wire_Log.
Qed.

Lemma wire_Dispatch w r packet : wire (Dispatch w r packet) = [].
Proof.
  destruct packet as [[m|b|k]|]; cbn [Dispatch]; [| |apply wire_Log|done].
  - destruct (json_Marshal_arguments _ _); by rewrite !wire_app, !wire_Log.
  - destruct (json_Marshal_OscBundle _ _); by rewrite !wire_app, !wire_Log.
Qed.

Lemma wire_started (r : Relay.t) (subs : list RelayOscSubscription.t) :
  wire (flat_map (fun _ : RelayOscSubscription.t =>
                    Log r DebugLog "Started subscription: %s") subs) = [].
Proof.
  induction subs as [|s subs IH]; [done|].
  cbn [flat_map]. by rewrite wire_app, wire_Log.
Qed.

Lemma bound_use_app w r c tr1 tr2 :
  bound_use w r c tr1 -> bound_use w r c tr2 -> bound_use w r c (tr1 ++ tr2).
Proof. induction 1; intros; cbn; [done | econstructor; eauto..]. Qed.

Lemma dial_use_app w r tr1 tr2 :
  dial_use w r tr1 -> dial_use w r tr2 -> dial_use w r (tr1 ++ tr2).
Proof. induction 1; intros; cbn; [done | econstructor; eauto..]. Qed.

(** What one send leaves on the wire. *)
Lemma wire_OscSend w (r : Runtime) p :
  wire (fst (OscSend w r (Some p))) =
  OscSendCall p ::
  match net_ResolveUDPAddr w (Relay.OscHost r) (Relay.OscPort r), osc_MarshalBinary w p with
  | Some addr, Some data =>
      match OscServer r, OscServerConn r with
      | Some _, Some c => [WriteTo c data addr]
      | Some _, None => []
      | None, _ =>
          if net_DialUDP_ok w addr
          then [DialUDP addr; Write (Dialed addr) data; Close (Dialed addr)] else []
      end
  | _, _ => []
  end.
Proof.
  unfold OscSend.
  match goal with |- context [OscSendCall p :: ?l] =>
    set (lg := l); assert (Hlg : wire lg = [])
      by (subst lg; destruct p; by rewrite ?wire_Log) end.
  match goal with |- context [if bool_decide ?P then ?a else ?b] =>
    set (dbg := if bool_decide P then a else b); assert (Hdbg : wire dbg = [])
      by (subst dbg; case_bool_decide; by rewrite ?wire_Log) end.
  clearbody lg dbg.
  assert (Hentry : forall l, wire ((OscSendCall p :: lg) ++ dbg ++ l) = OscSendCall p :: wire l).
  { intros l. rewrite <- app_comm_cons.
    change (OscSendCall p :: wire (lg ++ dbg ++ l) = OscSendCall p :: wire l).
    by rewrite !wire_app, Hlg, Hdbg. }
  assert (Hentry0 : wire (OscSendCall p :: lg) = [OscSendCall p])
    by (change (OscSendCall p :: wire lg = [OscSendCall p]); by rewrite Hlg).
  assert (Hentry1 : wire ((OscSendCall p :: lg) ++ dbg) = [OscSendCall p]).
  { rewrite <- (app_nil_r dbg). by rewrite Hentry. }
  destruct (net_ResolveUDPAddr _ _ _) as [addr|]; cbn [fst]; [|done].
  destruct (osc_MarshalBinary _ _) as [data|]; cbn [fst]; [|done].
  destruct (OscServer r) as [srv|].
  - destruct (OscServerConn r) as [c|]; cbn [fst]; [by rewrite Hentry | done].
  - destruct (net_DialUDP_ok _ _); cbn [fst]; [by rewrite Hentry | done].
Qed.

Lemma OscSend_bound w (r : Runtime) srv c p :
  OscServer r = Some srv -> OscServerConn r = Some c ->
  bound_use w r c (wire (fst (OscSend w r (Some p)))).
Proof.
  intros Hs Hc. rewrite wire_OscSend, Hs, Hc.
  destruct (net_ResolveUDPAddr _ _ _) as [addr|] eqn:Ha;
    [|apply bound_unsent; [by left | constructor]].
  destruct (osc_MarshalBinary _ _) as [data|] eqn:Hd;
    [|apply bound_unsent; [by right | constructor]].
  eapply bound_send; [done.. | constructor].
Qed.

Lemma OscSend_dial w (r : Runtime) p :
  OscServer r = None -> dial_use w r (wire (fst (OscSend w r (Some p)))).
Proof.
  intros Hs. rewrite wire_OscSend, Hs.
  destruct (net_ResolveUDPAddr _ _ _) as [addr|] eqn:Ha;
    [|apply dial_unsent; [by left | constructor]].
  destruct (osc_MarshalBinary _ _) as [data|] eqn:Hd;
    [|apply dial_unsent; [by right; left | constructor]].
  destruct (net_DialUDP_ok w addr) eqn:Hok.
  - eapply dial_send; [done.. | constructor].
  - apply dial_unsent; [|constructor]. right; right. by exists addr.
Qed.

(** What holds of the wire of every send holds of the wire of the
    handler and of a tick. *)
Section Handlers.
Variable P : list event -> Prop.
Variables (w : World) (r : Runtime).
Hypothesis P_nil : P [].
Hypothesis P_app : forall tr1 tr2, P tr1 -> P tr2 -> P (tr1 ++ tr2).
Hypothesis P_send : forall p, P (wire (fst (OscSend w r (Some p)))).

Lemma send_and_log_wire p : P (wire (fst (send_and_log w r p))).
Proof.
  unfold send_and_log. pose proof (P_send p) as Hs.
  destruct (OscSend w r (Some p)) as [tr []]; cbn [fst] in *; [done | | done].
  rewrite wire_app, wire_Log, app_nil_r. done.
Qed.

Lemma command_action_wire cmd message : P (wire (fst (command_action w r cmd message))).
Proof.
  unfold command_action.
  destruct (negb _ && negb _); [|apply send_and_log_wire].
  destruct (json_Unmarshal_arguments _ _); [apply send_and_log_wire|].
  cbn [fst]. by rewrite wire_Log.
Qed.

Lemma commands_loop_wire cmds message : P (wire (fst (commands_loop w r cmds message))).
Proof.
  induction cmds as [|cmd cmds IH]; [done|].
  cbn [commands_loop]. destruct (command_matches _ _ _); [|done].
  pose proof (command_action_wire cmd message) as Ha.
  destruct (command_action w r cmd message) as [tr []]; [|done..].
  destruct (commands_loop w r cmds message) as [tr' f']. cbn [fst] in *.
  rewrite wire_app. by apply P_app.
Qed.

Lemma generic_routing_wire message : P (wire (fst (generic_routing w r message))).
Proof.
  unfold generic_routing, standard_send, bundle_send.
  destruct (GoStrings.HasPrefix _ _).
  { destruct (Relay.OscDisallowArbritaryCommand r); [cbn [fst]; by rewrite wire_Log|].
    destruct (if negb _ then _ else _); [apply send_and_log_wire|].
    cbn [fst]. by rewrite wire_Log. }
  case_bool_decide.
  { destruct (Relay.OscDisallowArbritaryCommand r); [cbn [fst]; by rewrite wire_Log|].
    destruct (json_Unmarshal_OscBundle _ _); [|cbn [fst]; by rewrite wire_Log].
    destruct (Codec.MakeOSCBundle _); [apply send_and_log_wire | done]. }
  case_bool_decide; [|done]. cbn [fst]. by rewrite wire_SendStatus.
Qed.

Lemma MqttOnEvent_wire message : P (wire (fst (MqttOnEvent w r message))).
Proof.
  unfold MqttOnEvent.
  pose proof (commands_loop_wire (Relay.Commands r) message) as Hl.
  destruct (commands_loop w r _ _) as [tr1 f1]. cbn [fst] in Hl.
  destruct f1; cbn [fst]; rewrite ?wire_app, ?wire_Log; [|done..].
  pose proof (generic_routing_wire message) as Hg.
  destruct (generic_routing w r message) as [tr2 f2]. cbn [fst] in *.
  rewrite !wire_app, wire_Log. cbn [app]. by apply P_app.
Qed.

Lemma subscription_tick_wire sub : P (wire (fst (subscription_tick w r sub))).
Proof.
  unfold subscription_tick.
  match goal with |- context [send_and_log w r ?p] =>
    pose proof (send_and_log_wire p) as Hs; destruct (send_and_log w r p) as [tr f] end.
  cbn [fst] in *. by rewrite wire_app, wire_Log.
Qed.

End Handlers.

Lemma step_bound w r c (p : process) tr st :
  bound_state r c p -> step w p tr st ->
  bound_use w r c (wire tr) /\
  forall p', st = Running p' -> bound_state r c p'.
Proof.
  intros (Hcfg & Hsrv & [srv Hs] & Hc) Hstep.
  assert (Hkeep : forall pc', bound_state r c (at_pc pc' p)) by (by intros pc'; split_and!; eauto).
  assert (Hp : bound_state r c p) by (by split_and!; eauto).
  destruct Hstep; cbn [after];
    rewrite ?wire_app, ?wire_Log, ?wire_SendStatus, ?wire_started; try (destruct ok);
    rewrite ?wire_Log.
  - split; [constructor | by intros ? [= <-]].
  - split; [constructor | done].
  - split; [constructor | by intros ? [= <-]].
  - split; [constructor | by intros ? [= <-]].
  - split; [constructor | by intros ? [= <-]].
  - split; [constructor|]. intros ? [= <-]. split_and!; cbn; eauto.
  - split; [constructor|]. intros ? [= <-].
    split_and!; [done | exact (f_equal (fun x => OscServer (Start x)) Hcfg) | | done].
    change (is_Some (OscServer (Start (config p)))). rewrite Hcfg, <- Hsrv. eauto.
  - split; [constructor | by intros ? [= <-]].
  - split; [constructor | by intros ? [= <-]].
  - congruence.
  - congruence.
  - split; [|by intros ? [= <-]].
    change (bound_use w r c (wire ([ReadFrom c0 packet] ++ Dispatch w p packet))).
    rewrite wire_app, wire_Dispatch. assert (c0 = c) as -> by congruence.
    repeat constructor.
  - split; [constructor | done].
  - split.
    + rewrite <- Hcfg. apply MqttOnEvent_wire;
        [constructor | apply bound_use_app | intros; by eapply OscSend_bound].
    + destruct (snd (MqttOnEvent w p message)); by intros ? [= <-].
  - split.
    + rewrite <- Hcfg. apply subscription_tick_wire. intros; by eapply OscSend_bound.
    + destruct (snd (subscription_tick w p subcription)); by intros ? [= <-].
Qed.

Lemma run_bound w r c (p : process) tr st :
  bound_state r c p -> run w p tr st ->
  bound_use w r c (wire tr) /\
  forall p', st = Running p' -> bound_state r c p'.
Proof.
  intros Hp Hrun. induction Hrun as [|tr p1 tr' st Hrun [IHw IHs] Hstep].
  - split; [constructor | by intros ? [= <-]].
  - destruct (step_bound w r c p1 tr' st (IHs _ eq_refl) Hstep) as [Hw Hs].
    split; [|done]. rewrite wire_app. by apply bound_use_app.
Qed.

Lemma step_reached w r (p : process) tr st :
  reached r p -> step w p tr st -> forall p', st = Running p' -> reached r p'.
Proof.
  intros (Hcfg & Hsrv & Hconn) Hstep.
  assert (Hkeep : forall pc', reached r (at_pc pc' p)) by (by intros pc'; split_and!).
  assert (Hp : reached r p) by (by split_and!).
  destruct Hstep; cbn [after]; try (by intros ? [= <-]); try done.
  - intros ? [= <-]. split_and!; [done| |].
    + change (OscServer (Start (config p)) = None \/
              is_Some (OscServer (Start (config p))) /\
              OscServer (Start (config p)) = OscServer (Start r)).
      rewrite Hcfg. destruct (OscServer (Start r)) as [srv|]; [right | by left]. by eauto.
    + intros c Hc. destruct (Hconn c Hc) as (srv & Hs & ->).
      destruct Hsrv as [Hn|[_ Heq]]; [congruence|]. exists srv. split; [|done].
      change (OscServer (Start (config p)) = Some srv). by rewrite Hcfg, <- Heq.
  - intros ? [= <-]. split_and!; [done | done|].
    intros c [= <-]. by exists srv.
  - destruct (snd (MqttOnEvent w p message)); by intros ? [= <-].
  - destruct (snd (subscription_tick w p subcription)); by intros ? [= <-].
Qed.

Lemma run_reached w r tr p :
  run w (boot r) tr (Running p) -> reached r p.
Proof.
  intros Hrun. remember (boot r) as p0 eqn:E0. remember (Running p) as st eqn:Est.
  revert p Est. induction Hrun as [|tr p1 tr' st Hrun IH Hstep]; intros p Est.
  - injection Est as <-. subst p0. by split_and!; [|left|].
  - subst st. eapply step_reached; [|done..]. by apply IH.
Qed.

Lemma step_client_only w r (p : process) tr st :
  OscServer (Start r) = None ->
  client_state r p -> step w p tr st ->
  dial_use w r (wire tr) /\
  forall p', st = Running p' -> client_state r p'.
Proof.
  intros Hnone (Hcfg & Hs & Hc) Hstep.
  assert (Hkeep : forall pc', client_state r (at_pc pc' p)) by (by intros pc'; split_and!).
  assert (Hp : client_state r p) by (by split_and!).
  destruct Hstep; cbn [after];
    rewrite ?wire_app, ?wire_Log, ?wire_SendStatus, ?wire_started; try (destruct ok);
    rewrite ?wire_Log; try congruence.
  - split; [constructor | by intros ? [= <-]].
  - split; [constructor | done].
  - split; [constructor | by intros ? [= <-]].
  - split; [constructor | by intros ? [= <-]].
  - split; [constructor | by intros ? [= <-]].
  - split; [constructor|]. intros ? [= <-]. by split_and!.
  - split; [constructor|]. intros ? [= <-].
    split_and!; [done | | done].
    change (OscServer (Start (config p)) = None). by rewrite Hcfg.
  - split; [constructor | by intros ? [= <-]].
  - split; [constructor | by intros ? [= <-]].
  - split.
    + rewrite <- Hcfg. apply MqttOnEvent_wire;
        [constructor | apply dial_use_app | intros; by apply OscSend_dial].
    + destruct (snd (MqttOnEvent w p message)); by intros ? [= <-].
  - split.
    + rewrite <- Hcfg. apply subscription_tick_wire. intros; by apply OscSend_dial.
    + destruct (snd (subscription_tick w p subcription)); by intros ? [= <-].
Qed.

Lemma run_client_only w r tr st :
  OscServer (Start r) = None ->
  run w (boot r) tr st ->
  dial_use w r (wire tr) /\
  forall p', st = Running p' -> client_state r p'.
Proof.
  intros Hnone Hrun. induction Hrun as [|tr p1 tr' st Hrun [IHw IHs] Hstep].
  - split; [constructor | by intros ? [= <-]].
  - destruct (step_client_only w r p1 tr' st Hnone (IHs _ eq_refl) Hstep) as [Hw Hs].
    split; [|done]. rewrite wire_app. by apply dial_use_app.
Qed.

End SocketProofs.

(** X21.  From the moment the server has bound its socket, every send
    goes through that socket: in every run of a relay from the call of
    [Start], once [r.OscServerConn] is set it is the socket bound to the
    bind address and bind port of the configuration, and from then on
    every packet handed to [OscSend] is followed by exactly one write of
    its encoding to the resolved peer through that socket (by nothing when
    the peer does not resolve or the packet does not encode), the packets
    that are read are read from that socket, and no connection is dialed. *)
Theorem sends_use_the_bound_socket `{GoOsc} (w : World) (r : Relay.t)
    (tr : list event) (p : Engine.process) (c : conn)
    (tr' : list event) (st : Engine.status) :
  Engine.run w (Engine.boot r) tr (Engine.Running p) ->
  OscServerConn (Engine.rt p) = Some c ->
  Engine.run w p tr' st ->
  c = Bound (Engine.host_port (Relay.OscBindAddr r) (Relay.OscBindPort r)) /\
  Observe.bound_use w r c (Observe.wire tr').
Proof.
  intros Hrun Hc Hrun'. apply run_reached in Hrun as (Hcfg & Hsrv & Hconn).
  destruct (Hconn c Hc) as (srv & Hs & ->).
  destruct Hsrv as [Hn|[_ Heq]]; [congruence|].
  assert (Hb : Observe.bound_state r (Bound (osc.Addr srv)) p).
  { split_and!; [done | done | by eexists | done]. }
  split; [|by destruct (run_bound w r _ p tr' st Hb Hrun')].
  rewrite Hs in Heq. unfold Engine.Start in Heq. cbn [OscServer] in Heq.
  destruct (negb _ && negb _); [|done]. by injection Heq as ->.
Qed.

Lemma sends_use_the_bound_socket_witness :
  Bound "10.0.0.9:2223" = Bound (Engine.host_port "10.0.0.9" 2223) /\
  Observe.bound_use Sample.studio Sample.two_way (Bound "10.0.0.9:2223")
    [OscSendCall (osc.PMessage (osc.mkMessage "/x" []));
     WriteTo (Bound "10.0.0.9:2223") "osc:/x" (mkUDPAddr "10.0.0.3" 2223);
     ReadFrom (Bound "10.0.0.9:2223") None].
Proof.
  refine (sends_use_the_bound_socket Sample.studio Sample.two_way _ _
            (Bound "10.0.0.9:2223")
            (fst (Engine.MqttOnEvent Sample.studio
                    (mkRuntime Sample.two_way (Some ("10.0.0.3", 2223))
                       (Some (osc.mkServer "10.0.0.9:2223")) (Some (Bound "10.0.0.9:2223")))
                    (mqtt.mkMessage "osc/test/send/x" EmptyString)) ++
             [ReadFrom (Bound "10.0.0.9:2223") None])
            _ _ _ _).
  - eapply run_first; [by apply Engine.step_connect|].
    eapply run_first; [by eapply (Engine.step_subscribe _ _ 0 _ true)|].
    eapply run_first; [by eapply (Engine.step_subscribe _ _ 1 _ true)|].
    eapply run_first; [by eapply (Engine.step_subscribe _ _ 2 _ true)|].
    eapply run_first; [by apply Engine.step_subscribed|].
    eapply run_first; [by apply Engine.step_client|].
    eapply run_first; [by apply Engine.step_server|].
    apply run_last. by eapply Engine.step_listen.
  - reflexivity.
  - eapply run_first;
      [by refine (step_mqtt_on Sample.studio _
                    (mqtt.mkMessage "osc/test/send/x" EmptyString) _ _)|].
    apply run_last. by refine (Engine.step_serve Sample.studio _ _ _ None _ _).
Defined.

(** X22.  A relay without a bind address and port never has a server, and
    in every run from the call of [Start] each of its sends dials: every
    packet handed to [OscSend] is followed by a dial to the resolved peer,
    one write of its encoding on the connection just opened and the close
    of that connection (by nothing when the peer does not resolve, the
    packet does not encode or the dial fails); no socket is bound and no
    packet is read. *)
Theorem client_only_sends_dial `{GoOsc} (w : World) (r : Relay.t)
    (tr : list event) (st : Engine.status) :
  OscServer (Engine.Start r) = None ->
  Engine.run w (Engine.boot r) tr st ->
  Observe.dial_use w r (Observe.wire tr).
Proof. intros Hnone Hrun. by destruct (run_client_only w r tr st Hnone Hrun). Qed.

Lemma client_only_sends_dial_witness :
  Observe.dial_use Sample.studio Sample.one_way
    [OscSendCall (osc.PMessage (osc.mkMessage "/x" []));
     DialUDP (mkUDPAddr "10.0.0.3" 2223);
     Write (Dialed (mkUDPAddr "10.0.0.3" 2223)) "osc:/x";
     Close (Dialed (mkUDPAddr "10.0.0.3" 2223))].
Proof.
  refine (client_only_sends_dial Sample.studio Sample.one_way
            ((Engine.Log Sample.one_way DebugLog "Connecting to MQTT" ++
              (Engine.Log Sample.one_way DebugLog "Subscribing MQTT: %s" ++ [])) ++
             fst (Engine.MqttOnEvent Sample.studio (mkRuntime Sample.one_way None None None)
                    (mqtt.mkMessage "osc/test/send/x" EmptyString)))
            _ eq_refl _).
  eapply Engine.run_step.
  - eapply Engine.run_step.
    + apply run_last. by apply Engine.step_connect.
    + by refine (Engine.step_subscribe Sample.studio _ 0 _ true _ _).
  - by refine (step_mqtt_on Sample.studio _
                 (mqtt.mkMessage "osc/test/send/x" EmptyString) _ _).
Defined.

